(** * datatableview.datatables: a shallow embedding and its properties

    The development follows [src/datatableview/datatables.py]: the Python
    fragment the module relies on (exceptions, strings, slices, ordered
    dictionaries, a store of mutable objects), then the module's functions in
    source order, then the properties. *)

From Stdlib Require Import ZArith Lia Ascii String Sorted.
From stdpp Require Import base option list gmap strings pretty.

Open Scope string_scope.
Open Scope list_scope.
Open Scope Z_scope.

(** ** Exceptions and results

    [ColumnError] is the configuration error of the [exceptions] module; the
    others are Python's and Django's own. *)

Inductive exn : Type :=
  | ColumnError (names : list string)
  | TypeError
  | AttributeError (attribute : string)
  | ValueError
  | IndexError
  | KeyError (key : string)
  | NameError (name : string)
  | UnboundLocalError (variable : string)
  | FieldDoesNotExist (field : string)
  | UnicodeDecodeError
  | OtherError (tag : string).

Inductive result (A : Type) : Type :=
  | Ok (a : A)
  | Raise (e : exn).
Arguments Ok {A} a.
Arguments Raise {A} e.

#[global] Instance result_ret : MRet result := λ A, @Ok A.
#[global] Instance result_bind : MBind result :=
  λ A B f m, match m with Ok a => f a | Raise e => Raise e end.
#[global] Instance result_fmap : FMap result :=
  λ A B f m, match m with Ok a => Ok (f a) | Raise e => Raise e end.

Definition raises {A} (m : result A) : Prop := ∃ e, m = Raise e.

(** ** Python values that travel through the row pipeline *)

#[warnings="-register-all"]
Inductive pyval : Type :=
  | VNone
  | VBool (b : bool)
  | VInt (z : Z)
  | VStr (s : string)        (* the native [str] *)
  | VUnicode (s : string)    (* Python 2 [unicode]; what [six.text_type] builds *)
  | VTuple (items : list pyval)
  | VList (items : list pyval)
  | VDict (items : list (string * pyval))
  | VOpaque (what : string).  (* a module, class or function: nothing here looks inside *)

Definition pyval_truthy (v : pyval) : bool :=
  match v with
  | VNone => false
  | VBool b => b
  | VInt z => negb (z =? 0)
  | VStr s | VUnicode s => negb (String.eqb s "")
  | VTuple l | VList l => negb (Nat.eqb (length l) 0)
  | VDict l => negb (Nat.eqb (length l) 0)
  | VOpaque _ => true
  end.

(** An attribute as [getattr] returns it: plain data or something callable.
    Hook methods are called as [f(default_value=value)], so a callable is a
    function of that one keyword argument which may raise. *)
Inductive attr : Type :=
  | AData (v : pyval)
  | ACallable (f : pyval → result pyval).

Definition attr_truthy (a : attr) : bool :=
  match a with AData v => pyval_truthy v | ACallable _ => true end.

Definition callable (a : attr) : bool :=
  match a with AData _ => false | ACallable _ => true end.

Definition call (a : attr) (default_value : pyval) : result pyval :=
  match a with ACallable f => f default_value | AData _ => Raise TypeError end.

(** ** Strings *)

Definition is_digit (c : ascii) : bool :=
  let n := N_of_ascii c in ((48 <=? n) && (n <=? 57))%N.
Definition is_upper (c : ascii) : bool :=
  let n := N_of_ascii c in ((65 <=? n) && (n <=? 90))%N.
Definition is_lower (c : ascii) : bool :=
  let n := N_of_ascii c in ((97 <=? n) && (n <=? 122))%N.
Definition is_alnum (c : ascii) : bool := is_digit c || is_upper c || is_lower c.
Definition is_space (c : ascii) : bool :=
  let n := N_of_ascii c in ((n =? 32) || ((9 <=? n) && (n <=? 13)))%N.

(** [c.capitalize()] on a one-character byte string: a letter [a]-[z]
    becomes [A]-[Z] and every other byte is kept. Names are byte strings
    here; a text string whose first letter is not ASCII is not covered. *)
Definition capitalize (c : ascii) : ascii :=
  if is_lower c then ascii_of_N (N_of_ascii c - 32) else c.

Definition char_in (c : ascii) (chars : list ascii) : bool :=
  existsb (Ascii.eqb c) chars.

(** [s.lstrip(chars)] *)
Fixpoint lstrip (chars : list ascii) (s : string) : string :=
  match s with
  | String c rest => if char_in c chars then lstrip chars rest else s
  | EmptyString => EmptyString
  end.

(** [s.startswith(p)] *)
Definition startswith (p s : string) : bool := String.prefix p s.

(** [s[1:]] *)
Definition tail (s : string) : string :=
  match s with String _ rest => rest | EmptyString => EmptyString end.

(** [s[0]] *)
Definition first_char (s : string) : result ascii :=
  match s with String c _ => Ok c | EmptyString => Raise IndexError end.

Fixpoint rstrip_space (s : string) : string :=
  match s with
  | String c rest =>
      match rstrip_space rest with
      | EmptyString => if is_space c then EmptyString else String c EmptyString
      | rest' => String c rest'
      end
  | EmptyString => EmptyString
  end.

Fixpoint lstrip_space (s : string) : string :=
  match s with
  | String c rest => if is_space c then lstrip_space rest else s
  | EmptyString => EmptyString
  end.

Fixpoint digits_value (acc : Z) (s : string) : option Z :=
  match s with
  | EmptyString => Some acc
  | String c rest =>
      if is_digit c
      then digits_value (10 * acc + (Z.of_N (N_of_ascii c) - 48)) rest
      else None
  end.

(** [int(s)] in base ten: surrounding whitespace, an optional sign, then one
    or more decimal digits; anything else is a [ValueError]. *)
Definition int (s : string) : result Z :=
  let body := lstrip_space (rstrip_space s) in
  let '(sign, ds) :=
    match body with
    | String "-"%char rest => (-1, rest)
    | String "+"%char rest => (1, rest)
    | _ => (1, body)
    end in
  match ds with
  | EmptyString => Raise ValueError
  | _ => match digits_value 0 ds with
         | Some n => Ok (sign * n)
         | None => Raise ValueError
         end
  end.

(** ** Lists *)

(** [l[b:e]] with integer bounds: a negative bound counts from the end, and
    both are clamped to [0, len(l)]. *)
Definition slice_bound (len i : Z) : Z :=
  if i <? 0 then Z.max 0 (i + len) else Z.min i len.

Definition slice {A} (l : list A) (b e : Z) : list A :=
  let len := Z.of_nat (length l) in
  let b' := slice_bound len b in
  let e' := slice_bound len e in
  take (Z.to_nat (e' - b')) (drop (Z.to_nat b') l).

(** [v[i]] for a non-negative [i] on the sequences the pipeline meets. *)
Definition getitem (v : pyval) (i : nat) : result pyval :=
  match v with
  | VTuple l | VList l =>
      match l !! i with Some x => Ok x | None => Raise IndexError end
  | VStr s =>
      match String.get i s with
      | Some c => Ok (VStr (String c ""))
      | None => Raise IndexError
      end
  | VUnicode s =>
      match String.get i s with
      | Some c => Ok (VUnicode (String c ""))
      | None => Raise IndexError
      end
  | _ => Raise TypeError
  end.

(** ** Ordered dictionaries

    An [OrderedDict] is an association list with distinct keys in insertion
    order: assigning to a present key keeps its position. *)

Section ordered_dict.
Context {V : Type}.

Fixpoint od_get (d : list (string * V)) (k : string) : option V :=
  match d with
  | [] => None
  | (k', v) :: d' => if decide (k' = k) then Some v else od_get d' k
  end.

Fixpoint od_set (d : list (string * V)) (k : string) (v : V) : list (string * V) :=
  match d with
  | [] => [(k, v)]
  | (k', v') :: d' =>
      if decide (k' = k) then (k, v) :: d' else (k', v') :: od_set d' k v
  end.

(** [d.update(items)] *)
Definition od_update (d items : list (string * V)) : list (string * V) :=
  foldl (λ d kv, od_set d kv.1 kv.2) d items.

(** [OrderedDict(items)] *)
Definition OrderedDict (items : list (string * V)) : list (string * V) :=
  od_update [] items.

Definition od_keys (d : list (string * V)) : list string := d.*1.
End ordered_dict.

(** ** Columns, model fields and the object store *)

Definition loc := nat.

Inductive ColumnClass : Type :=
  | Column_        (* [columns.Column] itself or a subclass outside the table below *)
  | TextColumn | DateColumn | BooleanColumn | IntegerColumn | FloatColumn
  | ForeignKeyColumn.

(** A column's processor is a callable or the name of a member of the table. *)
Inductive processor_ref : Type :=
  | PCallable (f : pyval → result pyval)
  | PName (member : string).

(** Modelled from the spec: the [columns] module is not part of the sources.
    A column has a name, source field paths, a display label, an optional
    value processor and a creation order; a column object is truthy. An unset
    [sources] is the empty list. *)
Record Column : Type := {
  col_class : ColumnClass;
  col_name : option string;
  col_sources : list string;
  col_label : option string;
  col_processor : option processor_ref;
  col_creation_counter : nat;
}.

Inductive ModelFieldClass : Type :=
  | CharField | TextField | FileField | DateField | BooleanField
  | NullBooleanField | IntegerField | AutoField | FloatField | DecimalField
  | ForeignKey.

#[global] Instance ModelFieldClass_eq_dec : EqDecision ModelFieldClass.
Proof. solve_decision. Defined.

(** A model field as the module reads it: [f.name], [f.verbose_name], the
    listed Django field classes it is an instance of, and the creation
    counter by which Django orders fields. *)
Record ModelField : Type := {
  field_name : string;
  verbose_name : string;
  field_classes : list ModelFieldClass;
  field_creation_counter : Z;
}.

(** [model._meta] *)
Record Model : Type := {
  model_name : string;
  opts_fields : list ModelField;
}.

(** The attributes an inner [Meta] class may define; an absent one is [None]. *)
Record MetaDecl : Type := {
  meta_model : option Model;
  meta_columns : option (list string);
  meta_exclude : option (list string);
  meta_ordering : option (list string);
  meta_page_length : option Z;
  meta_search : option string;
  meta_search_fields : option (list string);
  meta_unsortable_columns : option (list string);
  meta_hidden_columns : option (list string);
  meta_structure_template : option string;
  meta_result_counter_id : option string;
}.

(** The attributes of a [DatatableOptions] object. *)
Record DatatableOptions : Type := {
  opt_model : option Model;
  opt_columns : option (list string);
  opt_exclude : option (list string);
  opt_ordering : option (list string);
  opt_page_length : Z;
  opt_search : option string;
  opt_search_fields : option (list string);
  opt_unsortable_columns : option (list string);
  opt_hidden_columns : option (list string);
  opt_structure_template : string;
  opt_result_counter_id : string;
}.

(** The store holds the objects that are shared and mutated: column objects,
    the ordered dictionaries that refer to them, and the options object of a
    class, which the class and all its instances reach as [_meta]. A
    dictionary value is a reference to a column or [None]. *)
Inductive obj : Type :=
  | OColumn (c : Column)
  | ODict (d : list (string * option loc))
  | OOptions (o : DatatableOptions).

Record pystate : Type := {
  heap : list obj;
  column_creation_counter : nat;   (* [Column.creation_counter], the class attribute *)
}.

(** Computations over the store that may raise. *)
Definition M (A : Type) : Type := pystate → result (A * pystate).

#[global] Instance M_ret : MRet M := λ A a st, Ok (a, st).
#[global] Instance M_bind : MBind M :=
  λ A B f m st, match m st with Ok (a, st') => f a st' | Raise e => Raise e end.

Definition throw {A} (e : exn) : M A := λ _, Raise e.

Definition alloc (o : obj) : M loc :=
  λ st, Ok (length (heap st),
            {| heap := heap st ++ [o];
               column_creation_counter := column_creation_counter st |}).

Definition bad_reference : exn := OtherError "reference to no such object".

Definition read_column (h : list obj) (l : loc) : result Column :=
  match h !! l with Some (OColumn c) => Ok c | _ => Raise bad_reference end.

Definition read_dict (h : list obj) (l : loc) : result (list (string * option loc)) :=
  match h !! l with Some (ODict d) => Ok d | _ => Raise bad_reference end.

Definition get_column (l : loc) : M Column :=
  λ st, (λ c, (c, st)) <$> read_column (heap st) l.

Definition read_options (h : list obj) (l : loc) : result DatatableOptions :=
  match h !! l with Some (OOptions o) => Ok o | _ => Raise bad_reference end.

Definition get_dict (l : loc) : M (list (string * option loc)) :=
  λ st, (λ d, (d, st)) <$> read_dict (heap st) l.

Definition get_options (l : loc) : M DatatableOptions :=
  λ st, (λ o, (o, st)) <$> read_options (heap st) l.

Definition store (l : loc) (o : obj) : M unit :=
  λ st, Ok (tt, {| heap := <[l:=o]> (heap st);
                   column_creation_counter := column_creation_counter st |}).

Fixpoint foldM {A B} (f : B → A → M B) (b : B) (l : list A) : M B :=
  match l with
  | [] => mret b
  | x :: l' => b' ← f b x; foldM f b' l'
  end.

(** [Column(sources=..., label=...)]: the constructor stamps the object with
    the running creation counter. *)
Definition new_column (cls : ColumnClass) (sources : list string)
    (label : option string) : M loc :=
  λ st,
    let c := {| col_class := cls; col_name := None; col_sources := sources;
                col_label := label; col_processor := None;
                col_creation_counter := column_creation_counter st |} in
    Ok (length (heap st),
        {| heap := heap st ++ [OColumn c];
           column_creation_counter := S (column_creation_counter st) |}).

(** [sorted(l)] and [l.sort(key=...)]: a stable sort by an integer key. *)
Section sorting.
Context {A : Type} (key : A → Z).

Fixpoint insert_sorted (x : A) (l : list A) : list A :=
  match l with
  | [] => [x]
  | y :: l' => if key x <=? key y then x :: y :: l' else y :: insert_sorted x l'
  end.

Definition sorted (l : list A) : list A := foldr insert_sorted [] l.
End sorting.

(** ** The module, in source order *)

Definition COLUMN_TYPES : list (ColumnClass * list ModelFieldClass) :=
  [ (TextColumn, [CharField; TextField; FileField]);
    (DateColumn, [DateField]);
    (BooleanColumn, [BooleanField; NullBooleanField]);
    (IntegerColumn, [IntegerField; AutoField]);
    (FloatColumn, [FloatField; DecimalField]);
    (ForeignKeyColumn, [ForeignKey]) ].

Definition pretty_name (name : string) : string :=
  match name with
  | EmptyString => ""
  | String c rest => String (capitalize c) rest
  end.

(** [isinstance(model_field, tuple(classes))] *)
Definition isinstance (model_field : ModelField) (classes : list ModelFieldClass) : bool :=
  existsb (λ c, bool_decide (c ∈ field_classes model_field)) classes.

(** Falls off the end of the loop, returning [None], for a field of no listed
    class. *)
Definition get_column_for_modelfield (model_field : ModelField) : option ColumnClass :=
  (fix loop (items : list (ColumnClass * list ModelFieldClass)) :=
     match items with
     | [] => None
     | (ColumnClass, modelfield_classes) :: rest =>
         if isinstance model_field modelfield_classes then Some ColumnClass
         else loop rest
     end) COLUMN_TYPES.

Definition set_column (l : loc) (f : Column → Column) : M unit :=
  c ← get_column l; store l (OColumn (f c)).

Definition with_name (n : string) (c : Column) : Column :=
  {| col_class := col_class c; col_name := Some n; col_sources := col_sources c;
     col_label := col_label c; col_processor := col_processor c;
     col_creation_counter := col_creation_counter c |}.

Definition with_sources (s : list string) (c : Column) : Column :=
  {| col_class := col_class c; col_name := col_name c; col_sources := s;
     col_label := col_label c; col_processor := col_processor c;
     col_creation_counter := col_creation_counter c |}.

Definition with_label (s : string) (c : Column) : Column :=
  {| col_class := col_class c; col_name := col_name c; col_sources := col_sources c;
     col_label := Some s; col_processor := col_processor c;
     col_creation_counter := col_creation_counter c |}.

(** [fields is not None and name not in fields] *)
Definition not_listed (fields : option (list string)) (name : string) : bool :=
  match fields with
  | Some l => negb (bool_decide (name ∈ l))
  | None => false
  end.

(** [exclude and name in exclude] *)
Definition excluded (exclude : option (list string)) (name : string) : bool :=
  match exclude with
  | Some ((_ :: _) as l) => bool_decide (name ∈ l)
  | _ => false
  end.

(** One turn of the loop over [sorted(opts.fields)]. *)
Definition columns_for_model_step (fields exclude : option (list string))
    (field_list : list (string * option loc)) (f : ModelField)
    : M (list (string * option loc)) :=
  if not_listed fields (field_name f) then mret field_list
  else if excluded exclude (field_name f) then mret field_list
  else
    match get_column_for_modelfield f with
    | None => throw TypeError     (* calling [None] *)
    | Some column_class =>
        column ← new_column column_class [field_name f]
                   (Some (pretty_name (verbose_name f)));
        _ ← set_column column (with_name (field_name f));
        mret (field_list ++ [(field_name f, Some column)])
    end.

Definition columns_for_model (model : Model) (fields exclude : option (list string))
    : M loc :=
  let opts := model in
  field_list ← foldM (columns_for_model_step fields exclude) []
                 (sorted field_creation_counter (opts_fields opts));
  field_dict ← alloc (ODict (OrderedDict field_list));
  match fields with
  | Some ((_ :: _) as fields) =>
      d ← get_dict field_dict;
      alloc (ODict (OrderedDict
        ((λ f, (f, mjoin (od_get d f))) <$>
           filter (λ f, excluded exclude f = false) fields)))
  | _ => mret field_dict
  end.

(** [DatatableOptions.__init__] : every [getattr(options, name, default)]. *)
Definition DatatableOptions_init (options : option MetaDecl) : DatatableOptions :=
  let get {A} (f : MetaDecl → option A) : option A := options ≫= f in
  {| opt_model := get meta_model;
     opt_columns := get meta_columns;
     opt_exclude := get meta_exclude;
     opt_ordering := get meta_ordering;
     opt_page_length := default 25 (get meta_page_length);
     opt_search := get meta_search;
     opt_search_fields := get meta_search_fields;
     opt_unsortable_columns := get meta_unsortable_columns;
     opt_hidden_columns := get meta_hidden_columns;
     opt_structure_template :=
       default "datatableview/default_structure.html" (get meta_structure_template);
     opt_result_counter_id := default "id_count" (get meta_result_counter_id) |}.

(** A base class as the metaclass looks at it: it may or may not carry the
    two column attributes ([hasattr]) and a [Meta]. *)
Record BaseClass : Type := {
  base_Meta : option MetaDecl;
  base_declared_columns : option loc;
  base_base_columns : option loc;
  base_attrs : gmap string attr;
}.

(** The class body namespace [attrs], split by what the metaclass does with an
    entry: the entries that are [Column] instances (in the dictionary's
    iteration order), the inner [Meta], and everything else. *)
Record ClassAttrs : Type := {
  attr_columns : list (string * loc);
  attr_Meta : option MetaDecl;
  attr_others : gmap string attr;
}.

Record TableClass : Type := {
  class_name : string;
  class_Meta : option MetaDecl;       (* what [getattr(cls, 'Meta', None)] finds *)
  _meta : loc;                        (* the class's [DatatableOptions] object *)
  declared_columns : loc;
  base_columns : loc;
  class_attrs : gmap string attr;     (* the members [getattr] finds on the class *)
}.

Definition as_base (c : TableClass) : BaseClass :=
  {| base_Meta := class_Meta c;
     base_declared_columns := Some (declared_columns c);
     base_base_columns := Some (base_columns c);
     base_attrs := class_attrs c |}.

(** The key of [local_columns.sort]: [x[1].creation_counter]. *)
Definition with_creation_counter (item : string * loc) : M (Z * (string * loc)) :=
  c ← get_column item.2; mret (Z.of_nat (col_creation_counter c), item).

Definition get_declared_columns (bases : list BaseClass) (attrs : ClassAttrs)
    (with_base_columns : bool) : M loc :=
  keyed ← foldM (λ acc item, k ← with_creation_counter item; mret (acc ++ [k]))
            [] (attr_columns attrs);
  let local_columns : list (string * option loc) :=
    (λ x : Z * (string * loc), (x.2.1, Some x.2.2)) <$> sorted fst keyed in
  local_columns ←
    foldM (λ local_columns base,
             match (if with_base_columns then base_base_columns base
                    else base_declared_columns base) with
             | Some d => items ← get_dict d; mret (items ++ local_columns)
             | None => mret local_columns
             end)
          local_columns (reverse bases);
  alloc (ODict (OrderedDict local_columns)).

(** [opts.model._meta.get_field_by_name(name)], on the model's plain fields. *)
Definition get_field_by_name (model : Model) (name : string) : result ModelField :=
  match list_find (λ f, field_name f = name) (opts_fields model) with
  | Some (_, f) => Ok f
  | None => Raise (FieldDoesNotExist name)
  end.

Definition lift {A} (r : result A) : M A :=
  λ st, (λ a, (a, st)) <$> r.

(** [not s] for an optional string *)
Definition falsy_str (s : option string) : bool :=
  match s with Some (String _ _) => false | _ => true end.

(** One turn of the loop over [declared_columns.items()]. *)
Definition declared_column_step (model : Model) (item : string * option loc) : M unit :=
  let '(name, column) := item in
  match column with
  | None => throw (AttributeError "name")
  | Some column =>
      _ ← set_column column (with_name name);
      c ← get_column column;
      _ ← (if bool_decide (col_sources c = []) then set_column column (with_sources [name])
           else mret tt);
      c ← get_column column;
      if falsy_str (col_label c) then
        field ← lift (get_field_by_name model name);
        set_column column (with_label (pretty_name (verbose_name field)))
      else mret tt
  end.

(** [getattr(new_class, 'Meta', None)]: the class's own [Meta], else the first
    one a base provides. *)
Definition getattr_Meta (bases : list BaseClass) (attrs : ClassAttrs) : option MetaDecl :=
  match attr_Meta attrs with
  | Some m => Some m
  | None => head (omap base_Meta bases)
  end.

(** [set(none_model_columns) - set(declared_columns.keys())] *)
Definition missing_columns (none_model_columns declared_keys : list string) : gset string :=
  list_to_set none_model_columns ∖ list_to_set declared_keys.

(** A dictionary as a member: what is observed of it is whether it is empty. *)
Definition keys_attr (keys : list string) : attr :=
  AData (VDict ((λ k, (k, VOpaque "value")) <$> keys)).

(** What [getattr] finds on the new class: the members of the class bodies,
    the class's own before those of the bases, the [Meta] class, and the three
    attributes that the metaclass assigns. A [Meta] class called with a
    keyword argument raises [TypeError]. *)
Definition class_members (bases : list BaseClass) (attrs : ClassAttrs)
    (declared assembled : list (string * option loc)) : gmap string attr :=
  let bodies := foldl (λ m b, m ∪ base_attrs b) (attr_others attrs) bases in
  let bodies :=
    match getattr_Meta bases attrs with
    | Some _ => <["Meta" := ACallable (λ _, Raise TypeError)]> bodies
    | None => bodies
    end in
  <["base_columns" := keys_attr (od_keys assembled)]>
    (<["declared_columns" := keys_attr (od_keys declared)]>
       (<["_meta" := AData (VOpaque "options")]> bodies)).

Definition DatatableMetaclass_new (name : string) (bases : list BaseClass)
    (attrs : ClassAttrs) : M TableClass :=
  declared_columns ← get_declared_columns bases attrs false;
  let Meta := getattr_Meta bases attrs in
  let opts := DatatableOptions_init Meta in
  _meta ← alloc (OOptions opts);
  columns ←
    match opt_model opts with
    | Some model =>
        columns ← columns_for_model model (opt_columns opts) (opt_exclude opts);
        d ← get_dict columns;
        declared ← get_dict declared_columns;
        let none_model_columns :=
          (filter (λ kv : string * option loc, kv.2 = None) d).*1 in
        let missing := missing_columns none_model_columns (od_keys declared) in
        if decide (missing = ∅) then
          _ ← foldM (λ _ item, declared_column_step model item) tt declared;
          d ← get_dict columns;
          declared ← get_dict declared_columns;
          _ ← store columns (ODict (od_update d declared));
          mret columns
        else throw (ColumnError (elements missing))
    | None => mret declared_columns
    end;
  declared ← get_dict declared_columns;
  assembled ← get_dict columns;
  mret {| class_name := name;
          class_Meta := Meta;
          _meta := _meta;
          declared_columns := declared_columns;
          base_columns := columns;
          class_attrs := class_members bases attrs declared assembled |}.

(** ** Table instances *)

(** A model instance as the module uses it: [obj.pk], and the field values the
    column accessors read. *)
Record Obj : Type := {
  pk : pyval;
  obj_fields : list (string * pyval);
}.

(** The result set handed to the table; a queryset has a [model] attribute. *)
Record ObjectList : Type := {
  ol_items : list Obj;
  ol_model : option Model;
}.

(** A view or delegate object: an instance with a truth value and members;
    it is not callable itself. *)
Record PyObject : Type := {
  object_truthy : bool;
  object_attrs : gmap string attr;
}.

(** Modelled from the spec: [normalize_config] is not part of the sources.
    The resolved set of options, with the keys this module reads. *)
Record Config : Type := {
  cfg_ordering : option (list string);
  cfg_page_length : Z;
  cfg_start_offset : Z;
  cfg_structure_template : string;
}.

(** Modelled from the spec: [utils.ColumnOrderingTuple] is not part of the
    sources. An ordering-state entry is (request order-index, column
    position, direction). *)
Record ColumnOrderingTuple : Type := {
  order : nat;
  column_index : Z;
  direction : string;
}.

(** Modelled from the spec: [utils.ColumnInfoTuple] is not part of the
    sources. What [get_field_definition] returns, with the two attributes
    [configure] reads from it. *)
Record ColumnInfoTuple : Type := {
  info_pretty_name : option string;
  info_fields : list string;
}.

Record Datatable : Type := {
  object_list : ObjectList;
  url : string;
  view : option PyObject;
  fallback_callback_target : option PyObject;
  model : option Model;
  columns : loc;
  config : Config;
  self_meta : loc;                       (* [self._meta]: the options object of the class *)
  _flat_column_names : list (option string);
  ordering : gmap string ColumnOrderingTuple;
  _records : option (list Obj);          (* [None]: the attribute is not set *)
  self_attrs : gmap string attr;         (* the members [getattr(self, ...)] finds *)
}.

(** The attributes that the methods assign are members too. Of a member that
    is no hook, [_get_processor_method] and the row loop observe the truth
    value and whether it can be called: a sequence or dictionary stands with
    its length, an object with its truth value, a model class is called. *)
Definition setattr (name : string) (a : attr) (self : Datatable) : Datatable :=
  {| object_list := object_list self; url := url self; view := view self;
     fallback_callback_target := fallback_callback_target self;
     model := model self; columns := columns self; config := config self;
     self_meta := self_meta self; _flat_column_names := _flat_column_names self;
     ordering := ordering self; _records := _records self;
     self_attrs := <[name := a]> (self_attrs self) |}.

Definition records_attr (records : list Obj) : attr := AData (VList (pk <$> records)).

Definition object_attr (o : option PyObject) : attr :=
  match o with
  | Some o => AData (if object_truthy o then VOpaque "object" else VBool false)
  | None => AData VNone
  end.

(** A model class called with the one keyword [default_value]: Django
    rejects a keyword that names no field. *)
Definition model_attr (m : option Model) : attr :=
  match m with
  | Some m =>
      ACallable (λ _, if bool_decide ("default_value" ∈ field_name <$> opts_fields m)
                      then Ok (VOpaque (model_name m)) else Raise TypeError)
  | None => AData VNone
  end.

Definition names_attr (names : list (option string)) : attr :=
  AData (VList ((λ n, match n with Some s => VStr s | None => VNone end) <$> names)).

(** [self._records = records] *)
Definition set_records (self : Datatable) (records : list Obj) : Datatable :=
  {| object_list := object_list self; url := url self; view := view self;
     fallback_callback_target := fallback_callback_target self;
     model := model self; columns := columns self; config := config self;
     self_meta := self_meta self; _flat_column_names := _flat_column_names self;
     ordering := ordering self; _records := Some records;
     self_attrs := <["_records" := records_attr records]> (self_attrs self) |}.

Fixpoint foldR {A B} (f : B → A → result B) (b : B) (l : list A) : result B :=
  match l with
  | [] => Ok b
  | x :: l' => b' ← f b x; foldR f b' l'
  end.

Fixpoint enumerate_from {A} (i : nat) (l : list A) : list (nat * A) :=
  match l with
  | [] => []
  | x :: l' => (i, x) :: enumerate_from (S i) l'
  end.

Definition enumerate {A} (l : list A) : list (nat * A) := enumerate_from 0 l.

(** [l.index(x)] on the flat column names, with the [ValueError] of a missing
    element. *)
Fixpoint index_of (x : option string) (l : list (option string)) : result Z :=
  match l with
  | [] => Raise ValueError
  | y :: l' => if decide (y = x) then Ok 0 else (λ i, i + 1) <$> index_of x l'
  end.

Definition get_column_index (flat_column_names : list (option string)) (name : string)
    : result Z :=
  if startswith "!" name then int (tail name)
  else
    match index_of (Some name) flat_column_names with
    | Ok i => Ok i
    | Raise ValueError => Ok (-1)
    | Raise e => Raise e
    end.

(** The body of the loop over [enumerate(self.config['ordering'])]. *)
Definition ordering_step (flat_column_names : list (option string))
    (ordering : gmap string ColumnOrderingTuple) (item : nat * string)
    : result (gmap string ColumnOrderingTuple) :=
  let '(i, name) := item in
  let plain_name := lstrip ["-"%char; "+"%char] name in
  index ← get_column_index flat_column_names plain_name;
  if index =? -1 then mret ordering
  else
    c ← first_char name;
    let sort_direction := if Ascii.eqb c "-" then "desc" else "asc" in
    mret (<[plain_name :=
              {| order := i; column_index := index; direction := sort_direction |}]>
            ordering).

(** Lines 192-200 of [configure]: [self.ordering]. *)
Definition configure_ordering (flat_column_names : list (option string))
    (spec : option (list string)) : result (gmap string ColumnOrderingTuple) :=
  match spec with
  | Some ((_ :: _) as spec) => foldR (ordering_step flat_column_names) ∅ (enumerate spec)
  | _ => Ok ∅
  end.

(** Lines 175-182: [x if x is not None else []] for the three lists of
    [self._meta]. *)
Definition or_empty (l : option (list string)) : option (list string) :=
  match l with None => Some [] | Some l => Some l end.

Definition meta_defaults (m : DatatableOptions) : DatatableOptions :=
  {| opt_model := opt_model m; opt_columns := opt_columns m;
     opt_exclude := opt_exclude m; opt_ordering := opt_ordering m;
     opt_page_length := opt_page_length m; opt_search := opt_search m;
     opt_search_fields := or_empty (opt_search_fields m);
     opt_unsortable_columns := or_empty (opt_unsortable_columns m);
     opt_hidden_columns := or_empty (opt_hidden_columns m);
     opt_structure_template := opt_structure_template m;
     opt_result_counter_id := opt_result_counter_id m |}.

(** The keyword arguments handed to [column.value]. *)
Record Kwargs : Type := {
  kw_preloaded : list (string * pyval);
  kw_datatable : Datatable;
  kw_view : option PyObject;
}.

(** [re.sub(r'[\W_]+', '_', name)] on an ASCII string: a character matches
    [[\W_]] when it is not a letter or a digit, and each maximal run of
    matching characters becomes one underscore. *)
Fixpoint sub_runs (in_run : bool) (s : string) : string :=
  match s with
  | EmptyString => EmptyString
  | String c rest =>
      if is_alnum c then String c (sub_runs false rest)
      else if in_run then sub_runs true rest
      else String "_" (sub_runs true rest)
  end.

Definition mangle (name : string) : string := sub_runs false name.

(** [getattr(o, name, None)] and [getattr(o, name)] *)
Definition getattr_or_none (members : gmap string attr) (name : string) : attr :=
  default (AData VNone) (members !! name).

Definition getattr (members : gmap string attr) (name : string) : result attr :=
  match members !! name with
  | Some a => Ok a
  | None => Raise (AttributeError name)
  end.

(** [if callback:] *)
Definition processor_truthy (p : option processor_ref) : bool :=
  match p with
  | Some (PCallable _) => true
  | Some (PName s) => negb (String.eqb s "")
  | None => false
  end.

(** [if self.fallback_callback_target:] *)
Definition target_truthy (t : option PyObject) : bool :=
  match t with Some o => object_truthy o | None => false end.

Definition hook_by_name (mangled_name : string) : string :=
  "get_column_" +:+ mangled_name +:+ "_data".

Definition hook_by_index (i : nat) : string :=
  "get_column_" +:+ pretty i +:+ "_data".

Definition _get_processor_method (self : Datatable) (i : nat) (column : Column)
    : result attr :=
  let callback := col_processor column in
  if processor_truthy callback then
    match callback with
    | Some (PCallable f) => Ok (ACallable f)
    | Some (PName member) => getattr (self_attrs self) member
    | None => Ok (AData VNone)
    end
  else
    name ← match col_label column with
           | Some (String _ _ as label) => Ok label
           | _ => match col_name column with
                  | Some name => Ok name
                  | None => Raise TypeError     (* [re.sub] on [None] *)
                  end
           end;
    let mangled_name := mangle name in
    let f := getattr_or_none (self_attrs self) (hook_by_name mangled_name) in
    if attr_truthy f then Ok f else
    let f := getattr_or_none (self_attrs self) (hook_by_index i) in
    if attr_truthy f then Ok f else
    if target_truthy (fallback_callback_target self) then
      let target := default ∅ (object_attrs <$> fallback_callback_target self) in
      let f := getattr_or_none target (hook_by_name mangled_name) in
      if attr_truthy f then Ok f else
      let f := getattr_or_none target (hook_by_index i) in
      if attr_truthy f then Ok f else
      Ok (AData VNone)
    else Ok (AData VNone).

(** [self._get_current_page]: [object_list] is a local that only the paged
    branch binds. *)
Definition _get_current_page (self : Datatable) : result (list Obj) :=
  let object_list : option (list Obj) := None in
  object_list ←
    (if negb (cfg_page_length (config self) =? -1) then
       let i_begin := cfg_start_offset (config self) in
       let i_end := cfg_start_offset (config self) + cfg_page_length (config self) in
       records ← match _records self with
                 | Some r => Ok r
                 | None => Raise (AttributeError "_records")
                 end;
       mret (Some (slice records i_begin i_end))
     else mret object_list);
  match object_list with
  | Some l => Ok l
  | None => Raise (UnboundLocalError "object_list")
  end.

Definition preload_record_data (self : Datatable) (instance : Obj) : list (string * pyval) :=
  [].

Definition process_value (self : Datatable) (obj : Obj) (default_value : pyval) : pyval :=
  default_value.

(** [copy.deepcopy] of an ordered dictionary of columns: a new dictionary
    whose values are new column objects, one per distinct object copied (the
    memo keeps sharing inside the copy). *)
Definition deepcopy_step (acc : gmap nat loc * list (string * option loc))
    (item : string * option loc) : M (gmap nat loc * list (string * option loc)) :=
  let '(memo, out) := acc in
  match item.2 with
  | None => mret (memo, out ++ [(item.1, None)])
  | Some l =>
      match memo !! l with
      | Some l' => mret (memo, out ++ [(item.1, Some l')])
      | None =>
          c ← get_column l;
          l' ← alloc (OColumn c);
          mret (<[l:=l']> memo, out ++ [(item.1, Some l')])
      end
  end.

Definition deepcopy (d : loc) : M loc :=
  items ← get_dict d;
  r ← foldM deepcopy_step (∅, []) items;
  alloc (ODict r.2).

(** [self.columns.items()] with the column objects read from the store. *)
Definition read_item (h : list obj) (acc : list (string * option Column))
    (item : string * option loc) : result (list (string * option Column)) :=
  match item.2 with
  | None => Ok (acc ++ [(item.1, None)])
  | Some l => c ← read_column h l; Ok (acc ++ [(item.1, Some c)])
  end.

Definition column_items (h : list obj) (d : loc) : result (list (string * option Column)) :=
  items ← read_dict h d;
  foldR (read_item h) [] items.

(** [kwargs = self.preload_record_data(obj)] updated with the table and its
    view. *)
Definition record_kwargs (self : Datatable) (obj : Obj) : Kwargs :=
  {| kw_preloaded := preload_record_data self obj;
     kw_datatable := self; kw_view := view self |}.

(** The names the module body binds at top level, and the lookup of a name
    that a function neither binds nor receives: module globals, then
    builtins. *)
Definition module_globals : list string :=
  [ "re"; "copy"; "OrderedDict"; "models"; "flatatt"; "render_to_string";
    "python_2_unicode_compatible"; "six"; "ColumnError"; "columns";
    "normalize_config"; "apply_options"; "get_field_definition";
    "ColumnInfoTuple"; "ColumnOrderingTuple"; "COLUMN_TYPES"; "pretty_name";
    "get_column_for_modelfield"; "columns_for_model"; "get_declared_columns";
    "DatatableOptions"; "DatatableMetaclass"; "Datatable";
    "__name__"; "__doc__"; "__file__"; "__package__"; "__builtins__" ].

(** The interpreter's builtin namespace (Python 2.7, with the names Python 3
    adds or keeps). *)
Definition builtin_names : list string :=
  [ "ArithmeticError"; "AssertionError"; "AttributeError"; "BaseException";
    "BufferError"; "BytesWarning"; "DeprecationWarning"; "EOFError"; "Ellipsis";
    "EnvironmentError"; "Exception"; "False"; "FloatingPointError";
    "FutureWarning"; "GeneratorExit"; "IOError"; "ImportError"; "ImportWarning";
    "IndentationError"; "IndexError"; "KeyError"; "KeyboardInterrupt";
    "LookupError"; "MemoryError"; "NameError"; "None"; "NotImplemented";
    "NotImplementedError"; "OSError"; "OverflowError";
    "PendingDeprecationWarning"; "ReferenceError"; "ResourceWarning";
    "RuntimeError"; "RuntimeWarning"; "StandardError"; "StopIteration";
    "SyntaxError"; "SyntaxWarning"; "SystemError"; "SystemExit"; "TabError";
    "True"; "TypeError"; "UnboundLocalError"; "UnicodeDecodeError";
    "UnicodeEncodeError"; "UnicodeError"; "UnicodeTranslateError";
    "UnicodeWarning"; "UserWarning"; "ValueError"; "Warning";
    "ZeroDivisionError"; "__debug__"; "__doc__"; "__import__"; "__name__";
    "__package__"; "abs"; "all"; "any"; "apply"; "ascii"; "basestring"; "bin";
    "bool"; "buffer"; "bytearray"; "bytes"; "callable"; "chr"; "classmethod";
    "cmp"; "coerce"; "compile"; "complex"; "copyright"; "credits"; "delattr";
    "dict"; "dir"; "divmod"; "enumerate"; "eval"; "exec"; "execfile"; "exit";
    "file"; "filter"; "float"; "format"; "frozenset"; "getattr"; "globals";
    "hasattr"; "hash"; "help"; "hex"; "id"; "input"; "int"; "intern";
    "isinstance"; "issubclass"; "iter"; "len"; "license"; "list"; "locals";
    "long"; "map"; "max"; "memoryview"; "min"; "next"; "object"; "oct"; "open";
    "ord"; "pow"; "print"; "property"; "quit"; "range"; "raw_input"; "reduce";
    "reload"; "repr"; "reversed"; "round"; "set"; "setattr"; "slice"; "sorted";
    "staticmethod"; "str"; "sum"; "super"; "tuple"; "type"; "unichr";
    "unicode"; "vars"; "xrange"; "zip" ].

(** [LOAD_GLOBAL]: the module's globals, then the builtins, else a
    [NameError]. *)
Definition load_global (name : string) : result pyval :=
  if bool_decide (name ∈ module_globals) then Ok (VOpaque name)
  else if bool_decide (name ∈ builtin_names) then Ok (VOpaque name)
  else Raise (NameError name).

Section absent_parts.
(** What the module imports from files that are not part of the sources. *)
Variable normalize_config :
  DatatableOptions → list (string * pyval) → list (string * pyval) →
  option Model → result Config.
Variable get_field_definition : string → result ColumnInfoTuple.
Variable apply_options : ObjectList → Datatable → result (list Obj).
Variable column_value : Column → Obj → Kwargs → result pyval.
Variable PY2 : bool.
Variable decode_utf8 : string → result string.
Variable text_type : pyval → string.

(** Lines 184-190 of [configure]. *)
Definition flat_column_name (acc : list (option string)) (column : string)
    : result (list (option string)) :=
  column ← get_field_definition column;
  let flat_name := match info_fields column with
                   | f :: _ => Some f
                   | [] => info_pretty_name column
                   end in
  mret (acc ++ [flat_name]).

(** [meta_config] and [view_config] reach [normalize_config] unmerged: it
    stands for [normalize_config(dict(meta_config, **view_config), ...)]. The
    three defaults are written to the options object that [self._meta]
    names, which is the one of the class. *)
Definition configure (self : Datatable) (meta_config : DatatableOptions)
    (view_config query_config : list (string * pyval)) : M Datatable :=
  config ← lift (normalize_config meta_config view_config query_config (model self));
  opts ← get_options (self_meta self);
  _ ← store (self_meta self) (OOptions (meta_defaults opts));
  d ← get_dict (columns self);
  flat ← lift (foldR flat_column_name [] (od_keys d));
  ordering ← lift (configure_ordering flat (cfg_ordering config));
  mret {| object_list := object_list self; url := url self; view := view self;
          fallback_callback_target := fallback_callback_target self;
          model := model self; columns := columns self; config := config;
          self_meta := self_meta self;
          _flat_column_names := flat; ordering := ordering;
          _records := _records self;
          self_attrs :=
            <["ordering" := keys_attr (map_to_list ordering).*1]>
              (<["_flat_column_names" := names_attr flat]>
                 (<["config" := AData (VOpaque "config")]> (self_attrs self))) |}.

(** The members of a new instance before [configure] runs: those of the
    class, and over them the attributes that lines 153-160 assign. *)
Definition init_attrs (cls : TableClass) (object_list : ObjectList) (url : string)
    (view callback_target : option PyObject) (model : option Model)
    (column_names : list string) : gmap string attr :=
  <["columns" := keys_attr column_names]>
    (<["model" := model_attr model]>
       (<["fallback_callback_target" := object_attr callback_target]>
          (<["view" := object_attr view]>
             (<["url" := AData (VStr url)]>
                (<["object_list" := records_attr (ol_items object_list)]>
                   (class_attrs cls)))))).

(** [Datatable.__init__]. [self._meta] is found on the class. The
    attributes that [configure] sets hold placeholders until it has run. *)
Definition Datatable_init (cls : TableClass) (object_list : ObjectList) (url : string)
    (view callback_target : option PyObject) (model : option Model)
    (query_config kwargs : list (string * pyval)) : M Datatable :=
  opts ← get_options (_meta cls);
  let model := match opt_model opts with Some m => Some m | None => model end in
  let model := match model with None => ol_model object_list | Some m => Some m end in
  columns ← deepcopy (base_columns cls);
  d ← get_dict columns;
  meta_config ← get_options (_meta cls);
  self ← configure
    {| object_list := object_list; url := url; view := view;
       fallback_callback_target := callback_target; model := model;
       columns := columns;
       config := {| cfg_ordering := None; cfg_page_length := 0;
                    cfg_start_offset := 0; cfg_structure_template := "" |};
       self_meta := _meta cls; _flat_column_names := []; ordering := ∅;
       _records := None;
       self_attrs := init_attrs cls object_list url view callback_target model
                       (od_keys d) |}
    meta_config kwargs query_config;
  mret (setattr "unpaged_record_count" (AData VNone)
          (setattr "total_initial_record_count" (AData VNone) self)).

Definition populate_records (self : Datatable) : result Datatable :=
  records ← apply_options (object_list self) self;
  mret (set_records self records).

(** Lines 268-273: a sequence gives its first element, a Python 2 byte
    string is decoded, and the value is turned into text. *)
Definition to_text (value : pyval) : result pyval :=
  value ← match value with
          | VTuple _ | VList _ => getitem value 0
          | _ => Ok value
          end;
  value ← match value with
          | VStr s => if PY2 then VUnicode <$> decode_utf8 s else Ok value
          | _ => Ok value
          end;
  mret (VUnicode (text_type value)).

(** The body of the loop of [get_record_data]. *)
Definition record_cell (self : Datatable) (obj : Obj) (i : nat)
    (column : option Column) : result pyval :=
  let kwargs := record_kwargs self obj in
  match column with
  | None => Raise (AttributeError "value")
  | Some column =>
      pair ← column_value column obj kwargs;
      value ← getitem pair 1;
      processor ← _get_processor_method self i column;
      value ← (if attr_truthy processor then call processor value else Ok value);
      to_text value
  end.

(** [data[str(i)] = six.text_type(value)] for the column at position [i]. *)
Definition record_step (self : Datatable) (obj : Obj) (data : gmap string pyval)
    (item : nat * (string * option Column)) : result (gmap string pyval) :=
  cell ← record_cell self obj item.1 item.2.2;
  mret (<[pretty item.1 := cell]> data).

Definition get_record_data (h : list obj) (self : Datatable) (obj : Obj)
    : result (gmap string pyval) :=
  let data : gmap string pyval :=
    {[ "pk" := pk obj; "_extra_data" := VDict [] ]} in
  items ← column_items h (columns self);
  foldR (record_step self obj) data (enumerate items).

Definition get_records (h : list obj) (self : Datatable)
    : result (list (gmap string pyval) * Datatable) :=
  self ← match _records self with
         | None => populate_records self
         | Some _ => Ok self
         end;
  page ← _get_current_page self;
  rows ← foldR (λ acc obj, row ← get_record_data h self obj; mret (acc ++ [row]))
           [] page;
  mret (rows, self).

(** The [attributes] property. [name] is not a parameter and is never
    assigned in the body, so each use is a global lookup. *)
Definition attributes (h : list obj) (self : Datatable)
    : result (list (string * string)) :=
  let javascript_boolean (b : bool) : string := if b then "true" else "false" in
  let contains (v : pyval) (l : option (list string)) : result bool :=
    match l with
    | None => Raise TypeError
    | Some l => Ok (match v with
                    | VStr s | VUnicode s => bool_decide (s ∈ l)
                    | _ => false
                    end)
    end in
  name ← load_global "name";
  opts ← read_options h (self_meta self);
  unsortable ← contains name (opt_unsortable_columns opts);
  name ← load_global "name";
  opts ← read_options h (self_meta self);
  hidden ← contains name (opt_hidden_columns opts);
  let attributes := [ ("data-sortable", javascript_boolean (negb unsortable));
                      ("data-visible", javascript_boolean (negb hidden)) ] in
  name ← load_global "name";
  match name with
  | VStr s | VUnicode s =>
      match ordering self !! s with
      | Some t =>
          Ok (attributes ++
              [("data-sorting",
                text_type (VInt (Z.of_nat (order t))) +:+ ","
                +:+ text_type (VInt (column_index t))
                +:+ "," +:+ direction t)])
      | None => Ok attributes
      end
  | _ => Ok attributes
  end.
End absent_parts.
(** * Properties *)

(** ** Paging *)

Lemma slice_nonneg {A} (l : list A) (b e : Z) :
  0 ≤ b → 0 ≤ e →
  slice l b e = take (Z.to_nat (e - b)) (drop (Z.to_nat b) l).
Proof.
  intros Hb He. unfold slice, slice_bound.
  destruct (Z.ltb_spec b 0); [lia|]. destruct (Z.ltb_spec e 0); [lia|].
  destruct (Z_lt_le_dec b (Z.of_nat (length l))) as [Hlt|Hge].
  - rewrite (Z.min_l b) by lia.
    destruct (Z_le_gt_dec e (Z.of_nat (length l))) as [Hle|Hgt].
    + by rewrite (Z.min_l e) by lia.
    + rewrite (Z.min_r e) by lia.
      rewrite !take_ge; [done| |]; rewrite length_drop; lia.
  - rewrite (Z.min_r b) by lia.
    rewrite !drop_ge by lia. by rewrite !take_nil.
Qed.

(** The rows of [records] at the positions [start], ..., [start + len - 1]
    that exist, in order, and nothing else. *)
Definition is_window {A} (records : list A) (start len : Z) (page : list A) : Prop :=
  ∀ k : nat,
    page !! k =
      if decide (Z.of_nat k < len) then records !! (Z.to_nat start + k)%nat else None.

Lemma take_drop_window {A} (records : list A) (start len : Z) :
  is_window records start len (take (Z.to_nat len) (drop (Z.to_nat start) records)).
Proof.
  intros k. case_decide as Hk.
  - rewrite lookup_take_lt by lia. by rewrite lookup_drop.
  - apply lookup_take_ge. lia.
Qed.

Lemma is_window_unique {A} (records : list A) start len page page' :
  is_window records start len page → is_window records start len page' → page = page'.
Proof. intros H H'. apply list_eq. intros k. by rewrite H, H'. Qed.

Lemma current_page_paged (self : Datatable) (records : list Obj) :
  _records self = Some records →
  cfg_page_length (config self) ≠ -1 →
  _get_current_page self =
    Ok (slice records (cfg_start_offset (config self))
          (cfg_start_offset (config self) + cfg_page_length (config self))).
Proof.
  intros Hr Hp. unfold _get_current_page. rewrite Hr.
  destruct (Z.eqb_spec (cfg_page_length (config self)) (-1)); [done|]. done.
Qed.

(** C2, as amended. On a populated table with a non-negative start offset, a
    page length other than -1 and a non-negative sum of the two, the current
    page is exactly the rows of the record list at the positions
    [start_offset], ..., [start_offset + page_length - 1] that exist: with
    page length 10 and offset 20 over 50 rows, the rows 20 to 29. *)
Theorem current_page_window (self : Datatable) (records : list Obj) :
  _records self = Some records →
  0 ≤ cfg_start_offset (config self) →
  cfg_page_length (config self) ≠ -1 →
  0 ≤ cfg_start_offset (config self) + cfg_page_length (config self) →
  ∃ page, _get_current_page self = Ok page ∧
          is_window records (cfg_start_offset (config self))
            (cfg_page_length (config self)) page.
Proof.
  intros Hr Hs Hp He. eexists. split; [by apply current_page_paged|].
  rewrite slice_nonneg by done.
  replace (cfg_start_offset (config self) + cfg_page_length (config self)
           - cfg_start_offset (config self)) with (cfg_page_length (config self)) by lia.
  apply take_drop_window.
Qed.

(** Sample data for the closed examples. *)
Definition row (n : Z) : Obj := {| pk := VInt n; obj_fields := [] |}.

Definition rows (n : nat) : list Obj := (λ i, row (Z.of_nat i)) <$> seq 0 n.

Definition sample_config (page_length start_offset : Z) : Config :=
  {| cfg_ordering := None; cfg_page_length := page_length;
     cfg_start_offset := start_offset;
     cfg_structure_template := "datatableview/default_structure.html" |}.

Definition populated_table (records : list Obj) (page_length start_offset : Z)
    : Datatable :=
  {| object_list := {| ol_items := records; ol_model := None |};
     url := "/"; view := None; fallback_callback_target := None; model := None;
     columns := 0%nat; config := sample_config page_length start_offset;
     self_meta := 1%nat;
     _flat_column_names := []; ordering := ∅; _records := Some records;
     self_attrs := ∅ |}.

Lemma current_page_window_witness :
  ∃ page, _get_current_page (populated_table (rows 50) 10 20) = Ok page ∧
          is_window (rows 50) 20 10 page.
Proof.
  apply (current_page_window (populated_table (rows 50) 10 20) (rows 50));
    simpl; [reflexivity | lia | lia | lia].
Defined.

Example current_page_rows_20_to_29 :
  _get_current_page (populated_table (rows 50) 10 20)
  = Ok (row <$> [20; 21; 22; 23; 24; 25; 26; 27; 28; 29]).
Proof. reflexivity. Qed.

Lemma current_page_negative_length :
  let self := populated_table (rows 5) (-3) 2 in
  0 ≤ cfg_start_offset (config self) ∧
  cfg_page_length (config self) ≠ -1 ∧
  _get_current_page self = Ok [row 2; row 3] ∧
  ¬ is_window (rows 5) (cfg_start_offset (config self))
      (cfg_page_length (config self)) [row 2; row 3].
Proof.
  simpl. split; [lia|]. split; [lia|]. split; [reflexivity|].
  intros H. specialize (H 0%nat). simpl in H. discriminate.
Qed.

(** ** The unpaged setting *)

Lemma set_records_config self records : config (set_records self records) = config self.
Proof. done. Qed.

(** C10. With page length -1 the current-page computation raises
    [UnboundLocalError] for [object_list], which only the paged branch binds;
    so [get_records] raises for every unpaged configuration, and with that
    very error once the records are populated. *)
Theorem unpaged_current_page_raises (self : Datatable) :
  cfg_page_length (config self) = -1 →
  _get_current_page self = Raise (UnboundLocalError "object_list") ∧
  ∀ apply_options column_value PY2 decode_utf8 text_type h,
    raises (get_records apply_options column_value PY2 decode_utf8 text_type h self) ∧
    (∀ self', (match _records self with
               | None => populate_records apply_options self
               | Some _ => Ok self
               end) = Ok self' →
              get_records apply_options column_value PY2 decode_utf8 text_type h self
              = Raise (UnboundLocalError "object_list")).
Proof.
  intros Hp.
  assert (Hpage : ∀ s, cfg_page_length (config s) = -1 →
            _get_current_page s = Raise (UnboundLocalError "object_list")).
  { intros s Hs. unfold _get_current_page. by rewrite Hs. }
  split; [by apply Hpage|].
  intros apply_options column_value PY2 decode_utf8 text_type h.
  assert (Hkeep : ∀ self', (match _records self with
               | None => populate_records apply_options self
               | Some _ => Ok self
               end) = Ok self' → cfg_page_length (config self') = -1).
  { intros self' H. destruct (_records self); [by inversion H; subst|].
    unfold populate_records in H.
    destruct (apply_options (object_list self) self); simpl in H; [|done].
    inversion H; subst. by rewrite set_records_config. }
  split.
  - unfold raises, get_records.
    destruct (match _records self with None => _ | Some _ => _ end) as [self'|e] eqn:E.
    + simpl. rewrite (Hpage self') by (by apply Hkeep). simpl. eauto.
    + simpl. eauto.
  - intros self' E. unfold get_records. rewrite E. simpl.
    rewrite (Hpage self') by (by apply Hkeep). done.
Qed.

Lemma unpaged_current_page_raises_witness :
  _get_current_page (populated_table (rows 3) (-1) 0)
  = Raise (UnboundLocalError "object_list").
Proof.
  apply (proj1 (unpaged_current_page_raises (populated_table (rows 3) (-1) 0) eq_refl)).
Defined.

(** ** The [attributes] property *)

Lemma name_is_unbound : load_global "name" = Raise (NameError "name").
Proof. vm_compute. reflexivity. Qed.

(** C9. On every table instance, in every store, the [attributes] property
    raises [NameError]: [name] is bound neither in the property, nor at
    module level, nor as a builtin, and its first use comes before anything
    else is computed. *)
Theorem attributes_raises_name_error (text_type : pyval → string) (h : list obj)
    (self : Datatable) :
  attributes text_type h self = Raise (NameError "name").
Proof. unfold attributes. rewrite name_is_unbound. reflexivity. Qed.

(** ** Ordering state *)

Definition plain_name (name : string) : string := lstrip ["-"%char; "+"%char] name.

(** ['desc' if name[0] == '-' else 'asc'] *)
Definition sort_direction (name : string) : string :=
  match name with String "-"%char _ => "desc" | _ => "asc" end.

Lemma index_of_found (x : option string) (l : list (option string)) :
  x ∈ l →
  ∃ i, index_of x l = Ok i ∧ 0 ≤ i ∧ l !! Z.to_nat i = Some x ∧
       ∀ k : nat, (k < Z.to_nat i)%nat → l !! k ≠ Some x.
Proof.
  induction l as [|y l IH]; intros Hin; [by apply elem_of_nil in Hin|].
  simpl. destruct (decide (y = x)) as [->|Hne].
  - exists 0. repeat split; [done|]. intros k Hk. simpl in Hk. lia.
  - apply elem_of_cons in Hin as [->|Hin]; [done|].
    destruct (IH Hin) as (i & -> & Hi & Hl & Hfirst). exists (i + 1). simpl.
    repeat split; [lia| |].
    + replace (Z.to_nat (i + 1)) with (S (Z.to_nat i)) by lia. done.
    + intros [|k] Hk; simpl; [congruence|]. apply Hfirst. lia.
Qed.

Lemma index_of_missing (x : option string) (l : list (option string)) :
  x ∉ l → index_of x l = Raise ValueError.
Proof.
  induction l as [|y l IH]; intros Hin; [done|].
  simpl. apply not_elem_of_cons in Hin as [Hne Hin].
  destruct (decide (y = x)); [congruence|]. by rewrite IH.
Qed.

Lemma get_column_index_missing flat name :
  startswith "!" name = false → Some name ∉ flat → get_column_index flat name = Ok (-1).
Proof.
  intros Hbang Hin. unfold get_column_index. rewrite Hbang.
  by rewrite index_of_missing.
Qed.

Lemma get_column_index_found flat name :
  startswith "!" name = false → Some name ∈ flat →
  ∃ i, index_of (Some name) flat = Ok i ∧ get_column_index flat name = Ok i ∧ 0 ≤ i.
Proof.
  intros Hbang Hin. unfold get_column_index. rewrite Hbang.
  destruct (index_of_found _ _ Hin) as (i & -> & Hi & _). eauto.
Qed.

Lemma ordering_step_skip flat m i name :
  startswith "!" (plain_name name) = false →
  Some (plain_name name) ∉ flat →
  ordering_step flat m (i, name) = Ok m.
Proof.
  intros Hbang Hin. unfold ordering_step. fold (plain_name name).
  by rewrite get_column_index_missing.
Qed.

Lemma ordering_step_record flat m i name :
  startswith "!" (plain_name name) = false →
  Some (plain_name name) ∈ flat →
  name ≠ "" →
  ∃ idx, index_of (Some (plain_name name)) flat = Ok idx ∧
    ordering_step flat m (i, name)
    = Ok (<[plain_name name := {| order := i; column_index := idx;
                                   direction := sort_direction name |}]> m).
Proof.
  intros Hbang Hin Hne. unfold ordering_step. fold (plain_name name).
  destruct (get_column_index_found _ _ Hbang Hin) as (idx & Hidx & -> & Hpos).
  exists idx. split; [done|]. simpl.
  destruct (Z.eqb_spec idx (-1)); [lia|].
  destruct name as [|c rest]; [done|]. simpl.
  unfold sort_direction.
  destruct (Ascii.eqb_spec c "-") as [->|Hc]; [done|].
  destruct c as [[] [] [] [] [] [] [] []]; try done.
Qed.

Lemma plain_name_empty : plain_name "" = "".
Proof. done. Qed.

(** The loop from any starting map and position. *)
Lemma ordering_loop flat (items : list string) :
  (∀ name, name ∈ items → startswith "!" (plain_name name) = false) →
  ("" ∈ items → Some "" ∉ flat) →
  ∀ m0 i0, ∃ m,
    foldR (ordering_step flat) m0 (enumerate_from i0 items) = Ok m ∧
    (∀ n, Some n ∉ flat → m !! n = m0 !! n) ∧
    (∀ n, (∀ name, name ∈ items → plain_name name ≠ n) → m !! n = m0 !! n) ∧
    (∀ j name, items !! j = Some name → Some (plain_name name) ∈ flat →
       (∀ j' name', (j < j')%nat → items !! j' = Some name' →
                    plain_name name' ≠ plain_name name) →
       ∃ idx, index_of (Some (plain_name name)) flat = Ok idx ∧
              m !! plain_name name
              = Some {| order := i0 + j; column_index := idx;
                        direction := sort_direction name |}) ∧
    (∀ name, name ∈ items → Some (plain_name name) ∈ flat →
             is_Some (m !! plain_name name)).
Proof.
  induction items as [|x items IH]; intros Hbang Hempty m0 i0.
  { exists m0. repeat split; try done.
    intros name H. by apply elem_of_nil in H. }
  assert (Hstep : ∃ m1, ordering_step flat m0 (i0, x) = Ok m1 ∧
            (((Some (plain_name x) ∉ flat) ∧ m1 = m0) ∨
             (Some (plain_name x) ∈ flat ∧
              (∃ idx,
                index_of (Some (plain_name x)) flat = Ok idx ∧
                m1 = <[plain_name x := {| order := i0; column_index := idx;
                                          direction := sort_direction x |}]> m0)))).
  { destruct (decide (Some (plain_name x) ∈ flat)) as [Hin|Hin].
    - assert (x ≠ "") as Hx.
      { intros ->. apply Hempty; [left|done]. }
      destruct (ordering_step_record flat m0 i0 x) as (idx & Hidx & Hs);
        [apply Hbang; left|done|done|].
      eexists. split; [done|]. right. eauto.
    - exists m0. split; [|by left]. apply ordering_step_skip; [apply Hbang; left|done]. }
  destruct Hstep as (m1 & Hs & Hm1).
  destruct (IH (λ n H, Hbang n (proj2 (elem_of_cons _ _ _) (or_intror H)))
               (λ H, Hempty (proj2 (elem_of_cons _ _ _) (or_intror H))) m1 (S i0))
    as (m & Hfold & Hunk & Hnone & Hlast & Hpresent).
  exists m. cbn [enumerate_from foldR]. rewrite Hs. cbn [mbind result_bind].
  split; [done|].
  assert (Hother : ∀ n, plain_name x ≠ n → m1 !! n = m0 !! n).
  { intros n Hn. destruct Hm1 as [[_ ->]|[_ (idx & _ & ->)]]; [done|].
    by rewrite lookup_insert_ne. }
  split; [|split; [|split]].
  - intros n Hn. rewrite Hunk by done.
    destruct Hm1 as [[_ ->]|[Hin (idx & _ & ->)]]; [done|].
    rewrite lookup_insert_ne; [done|]. intros E. by rewrite E in Hin.
  - intros n Hn. rewrite Hnone.
    + apply Hother. apply Hn. left.
    + intros name H. apply Hn. by right.
  - intros [|j] name Hj Hin Hlater; simpl in Hj.
    + inversion Hj; subst name.
      destruct Hm1 as [[Hnin _]|[_ (idx & Hidx & ->)]]; [done|].
      exists idx. split; [done|]. rewrite Hnone.
      * rewrite lookup_insert_eq. do 2 f_equal. lia.
      * intros name' H'. apply list_elem_of_lookup in H' as [j' Hj'].
        apply (Hlater (S j') name'); [lia|done].
    + destruct (Hlast j name Hj Hin) as (idx & Hidx & Hm).
      { intros j' name' Hlt Hj'. apply (Hlater (S j') name'); [lia|done]. }
      exists idx. split; [done|]. rewrite Hm. do 2 f_equal. lia.
  - intros name Hname Hin.
    destruct (decide (Exists (λ name', plain_name name' = plain_name name) items))
      as [Hex|Hex].
    + apply Exists_exists in Hex as (name' & Hname' & Heq).
      rewrite <- Heq. apply Hpresent; [done|]. by rewrite Heq.
    + rewrite Hnone.
      * apply elem_of_cons in Hname as [->|Hname].
        -- destruct Hm1 as [[Hnin _]|[_ (idx & _ & ->)]]; [done|].
           by rewrite lookup_insert_eq.
        -- exfalso. apply Hex, Exists_exists. eauto.
      * intros name' Hname' Heq. apply Hex, Exists_exists. eauto.
Qed.

(** Writing an options object leaves the dictionaries and columns that can
    be read afterwards as they were. *)
Lemma read_dict_insert_options (h : list obj) (m l : loc) (o : DatatableOptions) d :
  read_dict (<[m := OOptions o]> h) l = Ok d → read_dict h l = Ok d ∧ l ≠ m.
Proof.
  unfold read_dict. intros H. destruct (decide (l = m)) as [->|Hne].
  - destruct (decide (m < length h)%nat) as [Hlt|Hge].
    + by rewrite list_lookup_insert_eq in H.
    + rewrite lookup_ge_None_2 in H; [done|]. rewrite length_insert. lia.
  - by rewrite list_lookup_insert_ne in H.
Qed.

Lemma read_column_insert_options (h : list obj) (m l : loc) (o : DatatableOptions) c :
  read_column (<[m := OOptions o]> h) l = Ok c → read_column h l = Ok c ∧ l ≠ m.
Proof.
  unfold read_column. intros H. destruct (decide (l = m)) as [->|Hne].
  - destruct (decide (m < length h)%nat) as [Hlt|Hge].
    + by rewrite list_lookup_insert_eq in H.
    + rewrite lookup_ge_None_2 in H; [done|]. rewrite length_insert. lia.
  - by rewrite list_lookup_insert_ne in H.
Qed.

(** What a call of [configure] that returns has done. *)
Lemma configure_Ok normalize_config get_field_definition self meta_config
    view_config query_config st self' st' :
  configure normalize_config get_field_definition self meta_config view_config
    query_config st = Ok (self', st') →
  ∃ cfg opts d flat ord,
    normalize_config meta_config view_config query_config (model self) = Ok cfg ∧
    read_options (heap st) (self_meta self) = Ok opts ∧
    read_dict (heap st) (columns self) = Ok d ∧
    columns self ≠ self_meta self ∧
    foldR (flat_column_name get_field_definition) [] (od_keys d) = Ok flat ∧
    configure_ordering flat (cfg_ordering cfg) = Ok ord ∧
    heap st' = <[self_meta self := OOptions (meta_defaults opts)]> (heap st) ∧
    column_creation_counter st' = column_creation_counter st ∧
    self' = {| object_list := object_list self; url := url self; view := view self;
               fallback_callback_target := fallback_callback_target self;
               model := model self; columns := columns self; config := cfg;
               self_meta := self_meta self;
               _flat_column_names := flat; ordering := ord;
               _records := _records self;
               self_attrs :=
                 <["ordering" := keys_attr (map_to_list ord).*1]>
                   (<["_flat_column_names" := names_attr flat]>
                      (<["config" := AData (VOpaque "config")]> (self_attrs self))) |}.
Proof.
  unfold configure, mbind, M_bind, lift, get_options, get_dict, store, mret, M_ret.
  intros H.
  destruct (normalize_config _ _ _ _) as [cfg|] eqn:E1; simpl in H; [|done].
  destruct (read_options (heap st) (self_meta self)) as [opts|] eqn:E2; simpl in H; [|done].
  destruct (read_dict _ (columns self)) as [d|] eqn:E3; simpl in H; [|done].
  destruct (foldR _ _ _) as [flat|] eqn:E4; simpl in H; [|done].
  destruct (configure_ordering flat _) as [m|] eqn:E5; simpl in H; [|done].
  injection H as <- <-. apply read_dict_insert_options in E3 as [E3 Hne].
  exists cfg, opts, d, flat, m. repeat split; done.
Qed.

Lemma configure_sets_ordering normalize_config get_field_definition self
    meta_config view_config query_config st self' st' :
  configure normalize_config get_field_definition self meta_config view_config
    query_config st = Ok (self', st') →
  configure_ordering (_flat_column_names self') (cfg_ordering (config self'))
  = Ok (ordering self').
Proof.
  intros H.
  apply configure_Ok in H as (cfg & opts & d & flat & ord & _ & _ & _ & _ & _ & Hord & _ & _ & ->).
  exact Hord.
Qed.

Lemma lookup_snoc {A} (l : list A) (x : A) : (l ++ [x]) !! length l = Some x.
Proof. rewrite lookup_app_r by lia. by rewrite Nat.sub_diag. Qed.

Lemma ordering_step_Ok flat m i name m' :
  ordering_step flat m (i, name) = Ok m' →
  m' = m ∨
  ∃ idx, get_column_index flat (plain_name name) = Ok idx ∧ idx ≠ -1 ∧ name ≠ "" ∧
         m' = <[plain_name name := {| order := i; column_index := idx;
                                      direction := sort_direction name |}]> m.
Proof.
  unfold ordering_step. fold (plain_name name).
  destruct (get_column_index flat (plain_name name)) as [idx|]; [|done].
  cbn [mbind result_bind]. destruct (Z.eqb_spec idx (-1)) as [->|Hidx].
  { intros [= <-]. by left. }
  destruct name as [|c rest]; [done|]. cbn [first_char mbind result_bind mret result_ret].
  intros [= <-]. right. exists idx. repeat split; [done..|].
  do 3 f_equal. unfold sort_direction.
  destruct (Ascii.eqb_spec c "-") as [->|Hc]; [done|].
  destruct c as [[] [] [] [] [] [] [] []]; done.
Qed.

(** What an entry of the ordering state says, for the spec [items]. *)
Definition ordering_entry (flat : list (option string)) (items : list string)
    (k : string) (t : ColumnOrderingTuple) : Prop :=
  ∃ name, items !! order t = Some name ∧ k = plain_name name ∧ name ≠ "" ∧
          get_column_index flat k = Ok (column_index t) ∧ column_index t ≠ -1 ∧
          direction t = sort_direction name.

Lemma ordering_loop_entries flat (items : list string) :
  ∀ (pre : list string) m0 m,
    foldR (ordering_step flat) m0 (enumerate_from (length pre) items) = Ok m →
    (∀ k t, m0 !! k = Some t → ordering_entry flat (pre ++ items) k t) →
    ∀ k t, m !! k = Some t → ordering_entry flat (pre ++ items) k t.
Proof.
  induction items as [|name items IH]; intros pre m0 m H Hm0 k t Hk.
  { injection H as <-. by apply Hm0. }
  cbn [enumerate_from foldR] in H.
  destruct (ordering_step flat m0 (length pre, name)) as [m1|] eqn:Hstep; [|done].
  cbn [mbind result_bind] in H.
  replace (pre ++ name :: items) with ((pre ++ [name]) ++ items) in *
    by by rewrite <- app_assoc.
  replace (S (length pre)) with (length (pre ++ [name])) in H
    by (rewrite length_app; simpl; lia).
  apply (IH _ _ _ H); [|done]. intros k' t' Hk'.
  apply ordering_step_Ok in Hstep as [->|(idx & Hidx & Hne & Hname & ->)];
    [by apply Hm0|].
  destruct (decide (k' = plain_name name)) as [->|Hother].
  - rewrite lookup_insert_eq in Hk'. injection Hk' as <-. exists name.
    cbn [order column_index direction]. repeat split; try done.
    rewrite lookup_app_l by (rewrite length_app; simpl; lia). apply lookup_snoc.
  - rewrite lookup_insert_ne in Hk' by done. by apply Hm0.
Qed.

(** A step that found a column position other than -1 stores the entry. *)
Lemma ordering_step_index flat m i name idx m' :
  get_column_index flat (plain_name name) = Ok idx → idx ≠ -1 →
  ordering_step flat m (i, name) = Ok m' →
  m' = <[plain_name name := {| order := i; column_index := idx;
                               direction := sort_direction name |}]> m.
Proof.
  intros Hidx Hne. unfold ordering_step. fold (plain_name name). rewrite Hidx.
  cbn [mbind result_bind]. destruct (Z.eqb_spec idx (-1)) as [|_]; [done|].
  destruct name as [|c rest]; [done|]. cbn [first_char mbind result_bind mret result_ret].
  intros [= <-]. do 3 f_equal. unfold sort_direction.
  destruct (Ascii.eqb_spec c "-") as [->|Hc]; [done|].
  destruct c as [[] [] [] [] [] [] [] []]; done.
Qed.

(** The loop over any spec, from any starting map and position: a name for
    which [get_column_index] gives -1 is left as it was, and so is a name that
    no entry has; the last entry of a name with another index decides. *)
Lemma ordering_loop_general flat (items : list string) :
  ∀ m0 i0 m,
    foldR (ordering_step flat) m0 (enumerate_from i0 items) = Ok m →
    (∀ n, get_column_index flat n = Ok (-1) → m !! n = m0 !! n) ∧
    (∀ n, (∀ name, name ∈ items → plain_name name ≠ n) → m !! n = m0 !! n) ∧
    (∀ j name idx, items !! j = Some name →
       get_column_index flat (plain_name name) = Ok idx → idx ≠ -1 →
       (∀ j' name', (j < j')%nat → items !! j' = Some name' →
                    plain_name name' ≠ plain_name name) →
       m !! plain_name name
       = Some {| order := i0 + j; column_index := idx;
                 direction := sort_direction name |}).
Proof.
  induction items as [|x items IH]; intros m0 i0 m H.
  { injection H as <-. repeat split; done. }
  cbn [enumerate_from foldR] in H.
  destruct (ordering_step flat m0 (i0, x)) as [m1|] eqn:Hstep; [|done].
  cbn [mbind result_bind] in H.
  destruct (IH _ _ _ H) as (Hskip & Hnone & Hlast).
  assert (Hother : ∀ n, plain_name x ≠ n → m1 !! n = m0 !! n).
  { intros n Hn.
    apply ordering_step_Ok in Hstep as [->|(idx & _ & _ & _ & ->)]; [done|].
    by rewrite lookup_insert_ne. }
  split; [|split].
  - intros n Hn. rewrite Hskip by done.
    pose proof Hstep as Hstep'.
    apply ordering_step_Ok in Hstep' as [->|(idx & Hidx & Hne & _ & ->)]; [done|].
    apply lookup_insert_ne. intros E. rewrite E in Hidx. congruence.
  - intros n Hn. rewrite Hnone.
    + apply Hother. apply Hn. left.
    + intros name Hname. apply Hn. by right.
  - intros [|j] name idx Hj Hidx Hne Hlater; simpl in Hj.
    + injection Hj as ->.
      rewrite (ordering_step_index _ _ _ _ _ _ Hidx Hne Hstep) in *.
      rewrite Hnone.
      * rewrite lookup_insert_eq. do 2 f_equal. lia.
      * intros name' H'. apply list_elem_of_lookup in H' as [j' Hj'].
        apply (Hlater (S j') name'); [lia|done].
    + rewrite (Hlast j name idx Hj Hidx Hne).
      * do 2 f_equal. lia.
      * intros j' name' Hlt Hj'. apply (Hlater (S j') name'); [lia|done].
Qed.

Lemma index_of_raises (x : option string) (l : list (option string)) e :
  index_of x l = Raise e → e = ValueError.
Proof.
  destruct (decide (x ∈ l)) as [Hin|Hout].
  - destruct (index_of_found _ _ Hin) as (i & -> & _). done.
  - rewrite index_of_missing by done. by intros [= <-].
Qed.

(** The loop returns when every index reference of the spec is a numeral
    and the empty entry, if any, names no column. *)
Lemma ordering_loop_returns flat (items : list string) :
  (∀ name, name ∈ items → startswith "!" (plain_name name) = true →
           ∃ z, int (tail (plain_name name)) = Ok z) →
  ("" ∈ items → Some "" ∉ flat) →
  ∀ m0 i0, ∃ m, foldR (ordering_step flat) m0 (enumerate_from i0 items) = Ok m.
Proof.
  induction items as [|x items IH]; intros Hint Hempty m0 i0; [by exists m0|].
  assert (∃ m1, ordering_step flat m0 (i0, x) = Ok m1) as [m1 Hm1].
  { assert (∃ idx, get_column_index flat (plain_name x) = Ok idx) as [idx Hidx].
    { unfold get_column_index.
      destruct (startswith "!" (plain_name x)) eqn:Hbang.
      - apply (Hint x); [left|done].
      - destruct (index_of (Some (plain_name x)) flat) as [i|e] eqn:E; [eauto|].
        apply index_of_raises in E as ->. eauto. }
    destruct (decide (x = "")) as [->|Hx].
    - exists m0. apply ordering_step_skip; [done|]. apply Hempty. left.
    - unfold ordering_step. fold (plain_name x). rewrite Hidx.
      cbn [mbind result_bind]. destruct (idx =? -1); [eauto|].
      destruct x as [|c rest]; [done|]. eauto. }
  destruct (IH (λ n H, Hint n (proj2 (elem_of_cons _ _ _) (or_intror H)))
               (λ H, Hempty (proj2 (elem_of_cons _ _ _) (or_intror H))) m1 (S i0))
    as [m Hm].
  exists m. cbn [enumerate_from foldR]. rewrite Hm1. exact Hm.
Qed.

(** C3, as amended. An ordering entry whose stripped name does not start
    with ['!'] and is not among the flat column names is skipped: the step
    returns the mapping unchanged and raises nothing. For a whole spec
    without ['!'] names (and without an empty entry while the empty string is
    a column name) the loop returns a mapping that has no entry for any name
    outside the flat column names, has entries only for stripped names of the
    spec, has one for every entry with a recognized name, and records for a
    name the request position and direction of its last entry together with
    the column position.

    A stripped name that starts with ['!'] is an index reference: its column
    position is the integer that follows, whatever the column names are, and
    the step stores an entry with that position unless it is -1. The loop
    returns for every spec whose index references are numerals (and that has
    no empty entry while the empty string is a column name). Whenever it
    returns, also for a spec with index references, no name for which the
    column position is -1 has an entry (so none that is not an index
    reference and not a column name), and the last entry of a name, index
    reference or column name, gives the name its entry: request position,
    column position and direction. *)
Theorem ordering_skips_unknown_names (flat : list (option string)) :
  (∀ m i name,
     startswith "!" (plain_name name) = false →
     Some (plain_name name) ∉ flat →
     ordering_step flat m (i, name) = Ok m) ∧
  (∀ spec : list string,
     (∀ name, name ∈ spec → startswith "!" (plain_name name) = false) →
     ("" ∈ spec → Some "" ∉ flat) →
     ∃ m, configure_ordering flat (Some spec) = Ok m ∧
       (∀ n, Some n ∉ flat → m !! n = None) ∧
       (∀ n, is_Some (m !! n) → ∃ name, name ∈ spec ∧ plain_name name = n) ∧
       (∀ name, name ∈ spec → Some (plain_name name) ∈ flat →
                is_Some (m !! plain_name name)) ∧
       (∀ j name, spec !! j = Some name → Some (plain_name name) ∈ flat →
          (∀ j' name', (j < j')%nat → spec !! j' = Some name' →
                       plain_name name' ≠ plain_name name) →
          ∃ idx, index_of (Some (plain_name name)) flat = Ok idx ∧
                 m !! plain_name name
                 = Some {| order := j; column_index := idx;
                           direction := sort_direction name |})) ∧
  (∀ n, startswith "!" n = true → get_column_index flat n = int (tail n)) ∧
  (∀ m i name z,
     startswith "!" (plain_name name) = true →
     int (tail (plain_name name)) = Ok z →
     ordering_step flat m (i, name)
     = Ok (if z =? -1 then m
           else <[plain_name name := {| order := i; column_index := z;
                                        direction := sort_direction name |}]> m)) ∧
  (∀ spec : list string,
     (∀ name, name ∈ spec → startswith "!" (plain_name name) = true →
              ∃ z, int (tail (plain_name name)) = Ok z) →
     ("" ∈ spec → Some "" ∉ flat) →
     ∃ m, configure_ordering flat (Some spec) = Ok m) ∧
  (∀ (spec : list string) m,
     configure_ordering flat (Some spec) = Ok m →
     (∀ n, get_column_index flat n = Ok (-1) → m !! n = None) ∧
     (∀ n, startswith "!" n = false → Some n ∉ flat → m !! n = None) ∧
     (∀ j name z, spec !! j = Some name →
        startswith "!" (plain_name name) = true →
        int (tail (plain_name name)) = Ok z → z ≠ -1 →
        (∀ j' name', (j < j')%nat → spec !! j' = Some name' →
                     plain_name name' ≠ plain_name name) →
        m !! plain_name name
        = Some {| order := j; column_index := z; direction := sort_direction name |}) ∧
     (∀ j name idx, spec !! j = Some name →
        get_column_index flat (plain_name name) = Ok idx → idx ≠ -1 →
        (∀ j' name', (j < j')%nat → spec !! j' = Some name' →
                     plain_name name' ≠ plain_name name) →
        m !! plain_name name
        = Some {| order := j; column_index := idx;
                  direction := sort_direction name |})).
Proof.
  split; [intros; by apply ordering_step_skip|]. split.
  { intros spec Hbang Hempty.
    destruct (ordering_loop flat spec Hbang Hempty ∅ 0%nat)
      as (m & Hfold & Hunk & Hnone & Hlast & Hpresent).
    exists m. split.
    { destruct spec; [by inversion Hfold|done]. }
    split; [|split; [|split]].
    - intros n Hn. by rewrite Hunk.
    - intros n [t Ht].
      destruct (decide (Exists (λ name, plain_name name = n) spec)) as [Hex|Hex].
      + apply Exists_exists in Hex as (name & Hname & Heq). eauto.
      + rewrite Hnone in Ht; [done|].
        intros name Hname Heq. apply Hex, Exists_exists. eauto.
    - intros name Hname Hin. by apply Hpresent.
    - intros j name Hj Hin Hlater. apply (Hlast j name Hj Hin Hlater). }
  split.
  { intros n Hn. unfold get_column_index. by rewrite Hn. }
  split.
  { intros m i name z Hbang Hz.
    assert (get_column_index flat (plain_name name) = Ok z) as Hidx.
    { unfold get_column_index. by rewrite Hbang. }
    unfold ordering_step. fold (plain_name name). rewrite Hidx.
    cbn [mbind result_bind]. destruct (z =? -1); [done|].
    destruct name as [|c rest]; [done|].
    cbn [first_char mbind result_bind mret result_ret]. do 4 f_equal.
    unfold sort_direction.
    destruct (Ascii.eqb_spec c "-") as [->|Hc]; [done|].
    destruct c as [[] [] [] [] [] [] [] []]; done. }
  split.
  { intros spec Hint Hempty.
    destruct (ordering_loop_returns flat spec Hint Hempty ∅ 0%nat) as [m Hm].
    destruct spec as [|x spec]; [by exists ∅|]. by exists m. }
  intros spec m H.
  assert (foldR (ordering_step flat) ∅ (enumerate_from 0 spec) = Ok m) as Hfold.
  { destruct spec; [by injection H as <-|done]. }
  destruct (ordering_loop_general flat spec ∅ 0%nat m Hfold) as (Hskip & _ & Hlast).
  split; [|split; [|split]].
  - intros n Hn. by rewrite Hskip.
  - intros n Hbang Hn. rewrite Hskip; [done|]. by apply get_column_index_missing.
  - intros j name z Hj Hbang Hz Hne Hlater.
    apply (Hlast j name z Hj); [|done..].
    unfold get_column_index. by rewrite Hbang.
  - intros j name idx Hj Hidx Hne Hlater. by apply (Hlast j name idx Hj).
Qed.

Example ordering_example :
  configure_ordering [Some "a"; Some "b"] (Some ["-b"; "nope"; "a"])
  = Ok (<["a" := {| order := 2; column_index := 0; direction := "asc" |}]>
          (<["b" := {| order := 0; column_index := 1; direction := "desc" |}]> ∅)).
Proof. reflexivity. Qed.

Lemma ordering_skips_unknown_names_witness :
  ∃ m, configure_ordering [Some "a"; Some "b"] (Some ["-b"; "nope"; "a"]) = Ok m ∧
       m !! "nope" = None ∧ is_Some (m !! "b").
Proof.
  destruct (proj1 (proj2 (ordering_skips_unknown_names [Some "a"; Some "b"]))
              ["-b"; "nope"; "a"]) as (m & Hm & Hunk & _ & Hpresent & _).
  - intros name H. by repeat (apply elem_of_cons in H as [->|H]; [done|]);
      apply elem_of_nil in H.
  - intros H. by repeat (apply elem_of_cons in H as [?|H]; [done|]);
      apply elem_of_nil in H.
  - exists m. split; [done|]. split.
    + apply Hunk. intros H.
      by repeat (apply elem_of_cons in H as [?|H]; [done|]); apply elem_of_nil in H.
    + apply (Hpresent "-b"); [by left|]. right. by left.
Defined.

Lemma ordering_index_reference_counterexample :
  (Some "!7" ∉ [Some "a"]) ∧
  configure_ordering [Some "a"] (Some ["!7"])
  = Ok {[ "!7" := {| order := 0; column_index := 7; direction := "asc" |} ]} ∧
  (Some "!x" ∉ [Some "a"]) ∧
  configure_ordering [Some "a"] (Some ["!x"]) = Raise ValueError.
Proof.
  assert (∀ s, s ≠ "a" → Some s ∉ [Some "a"]) as Hnot.
  { intros s Hs H. apply elem_of_cons in H as [H|H]; [congruence|].
    by apply elem_of_nil in H. }
  split; [by apply Hnot|]. split; [reflexivity|]. split; [by apply Hnot|]. reflexivity.
Qed.

(** ** Override hooks *)

(** [column.label or column.name] *)
Definition label_or_name (column : Column) : option string :=
  match col_label column with
  | Some (String _ _ as label) => Some label
  | _ => col_name column
  end.

Lemma processor_method_hooks (self : Datatable) (i : nat) (column : Column) name :
  processor_truthy (col_processor column) = false →
  label_or_name column = Some name →
  _get_processor_method self i column =
    let own := self_attrs self in
    let target := default ∅ (object_attrs <$> fallback_callback_target self) in
    if attr_truthy (getattr_or_none own (hook_by_name (mangle name)))
    then Ok (getattr_or_none own (hook_by_name (mangle name)))
    else if attr_truthy (getattr_or_none own (hook_by_index i))
    then Ok (getattr_or_none own (hook_by_index i))
    else if target_truthy (fallback_callback_target self) then
      if attr_truthy (getattr_or_none target (hook_by_name (mangle name)))
      then Ok (getattr_or_none target (hook_by_name (mangle name)))
      else if attr_truthy (getattr_or_none target (hook_by_index i))
      then Ok (getattr_or_none target (hook_by_index i))
      else Ok (AData VNone)
    else Ok (AData VNone).
Proof.
  intros Hp Hn. unfold _get_processor_method. rewrite Hp.
  unfold label_or_name in Hn.
  destruct (col_label column) as [[|c l]|].
  - rewrite Hn. reflexivity.
  - inversion Hn; subst. reflexivity.
  - rewrite Hn. reflexivity.
Qed.

(** C5, as amended. The explicit processor comes first: a callable is used
    as it is, and a non-empty name is looked up on the table with plain
    [getattr], so a missing member raises [AttributeError] instead of falling
    through. Without a truthy processor the hooks are tried in a fixed order
    and the first truthy one wins: the name-mangled method of the table, its
    index-based method, and then, when the fallback delegate is truthy, the
    same two lookups on the delegate. When none is found the result is [None]
    and the cell is computed from the column's default value. *)
Theorem processor_resolution_order (self : Datatable) (i : nat) (column : Column) :
  let own := self_attrs self in
  let target := default ∅ (object_attrs <$> fallback_callback_target self) in
  (∀ f, col_processor column = Some (PCallable f) →
        _get_processor_method self i column = Ok (ACallable f)) ∧
  (∀ member, col_processor column = Some (PName member) → member ≠ "" →
        _get_processor_method self i column = getattr own member) ∧
  (∀ name,
     processor_truthy (col_processor column) = false →
     label_or_name column = Some name →
     let own_named := getattr_or_none own (hook_by_name (mangle name)) in
     let own_indexed := getattr_or_none own (hook_by_index i) in
     let target_named := getattr_or_none target (hook_by_name (mangle name)) in
     let target_indexed := getattr_or_none target (hook_by_index i) in
     (attr_truthy own_named = true →
      _get_processor_method self i column = Ok own_named) ∧
     (attr_truthy own_named = false → attr_truthy own_indexed = true →
      _get_processor_method self i column = Ok own_indexed) ∧
     (attr_truthy own_named = false → attr_truthy own_indexed = false →
      target_truthy (fallback_callback_target self) = true →
      attr_truthy target_named = true →
      _get_processor_method self i column = Ok target_named) ∧
     (attr_truthy own_named = false → attr_truthy own_indexed = false →
      target_truthy (fallback_callback_target self) = true →
      attr_truthy target_named = false → attr_truthy target_indexed = true →
      _get_processor_method self i column = Ok target_indexed) ∧
     (attr_truthy own_named = false → attr_truthy own_indexed = false →
      target_truthy (fallback_callback_target self) = false ∨
      (attr_truthy target_named = false ∧ attr_truthy target_indexed = false) →
      _get_processor_method self i column = Ok (AData VNone))) ∧
  (∀ column_value PY2 decode_utf8 text_type obj pair value p,
     column_value column obj (record_kwargs self obj) = Ok pair →
     getitem pair 1 = Ok value →
     _get_processor_method self i column = Ok p →
     record_cell column_value PY2 decode_utf8 text_type self obj i (Some column)
     = if attr_truthy p
       then call p value ≫= to_text PY2 decode_utf8 text_type
       else to_text PY2 decode_utf8 text_type value).
Proof.
  intros own target. split; [|split; [|split]].
  - intros f Hf. unfold _get_processor_method. by rewrite Hf.
  - intros member Hm Hne. unfold _get_processor_method. rewrite Hm. simpl.
    destruct member; [done|]. done.
  - intros name Hp Hn own_named own_indexed target_named target_indexed.
    rewrite (processor_method_hooks self i column name Hp Hn). cbn zeta.
    fold own target. fold own_named own_indexed target_named target_indexed.
    repeat split.
    + by intros ->.
    + by intros -> ->.
    + by intros -> -> -> ->.
    + by intros -> -> -> -> ->.
    + intros -> -> [->|[-> ->]]; [done|]. by destruct (target_truthy _).
  - intros column_value PY2 decode_utf8 text_type obj pair value p Hv Hg Hp.
    unfold record_cell. rewrite Hv. simpl. rewrite Hg. simpl. rewrite Hp. simpl.
    by destruct (attr_truthy p).
Qed.

(** Sample members, columns and collaborators for the closed examples. *)
Definition sample_table (attrs : gmap string attr) (target : option PyObject)
    : Datatable :=
  {| object_list := {| ol_items := []; ol_model := None |};
     url := "/"; view := None; fallback_callback_target := target; model := None;
     columns := 0%nat; config := sample_config 25 0;
     self_meta := 2%nat;
     _flat_column_names := []; ordering := ∅; _records := None;
     self_attrs := attrs |}.

Definition sample_column (name : string) (label : option string)
    (processor : option processor_ref) : Column :=
  {| col_class := TextColumn; col_name := Some name; col_sources := [name];
     col_label := label; col_processor := processor; col_creation_counter := 0 |}.

(** A stand-in for [column.value]: the display and the plain value of the
    first source field. *)
Definition sample_column_value (column : Column) (obj : Obj) (kwargs : Kwargs)
    : result pyval :=
  match col_sources column with
  | source :: _ =>
      match od_get (obj_fields obj) source with
      | Some v => Ok (VTuple [v; v])
      | None => Raise (AttributeError source)
      end
  | [] => Raise IndexError
  end.

Definition sample_text_type (v : pyval) : string :=
  match v with
  | VStr s | VUnicode s => s
  | VInt z => pretty z
  | VNone => "None"
  | VBool true => "True"
  | VBool false => "False"
  | _ => "<object>"
  end.

Definition constant_hook (s : string) : attr := ACallable (λ _, Ok (VStr s)).

Definition sample_delegate (attrs : gmap string attr) : PyObject :=
  {| object_truthy := true; object_attrs := attrs |}.

Lemma processor_resolution_order_witness :
  let self := sample_table {[ "get_column_0_data" := constant_hook "by index" ]}
                (Some (sample_delegate
                         {[ "get_column_Region_data" := constant_hook "delegate" ]})) in
  _get_processor_method self 0 (sample_column "region" (Some "Region") None)
  = Ok (constant_hook "by index").
Proof.
  intros self.
  apply (proj1 (proj2 (proj1 (proj2 (proj2
           (processor_resolution_order self 0
              (sample_column "region" (Some "Region") None))))
           "Region" eq_refl eq_refl))); reflexivity.
Defined.

Lemma missing_processor_member_raises :
  let self := sample_table {[ "get_column_Region_data" := constant_hook "by name" ]} None in
  let column := sample_column "region" (Some "Region") (Some (PName "missing")) in
  self_attrs self !! "missing" = None ∧
  getattr_or_none (self_attrs self) (hook_by_name (mangle "Region"))
    = constant_hook "by name" ∧
  _get_processor_method self 0 column = Raise (AttributeError "missing") ∧
  record_cell sample_column_value false Ok sample_text_type self
    {| pk := VInt 1; obj_fields := [("region", VStr "north")] |} 0 (Some column)
  = Raise (AttributeError "missing").
Proof. repeat split; reflexivity. Qed.

(** ** Name mangling and the named hook *)

Fixpoint all_chars (P : ascii → bool) (s : string) : bool :=
  match s with
  | EmptyString => true
  | String c rest => P c && all_chars P rest
  end.

(** What follows a run: the end of the name or a letter or digit. *)
Definition run_ends (s : string) : bool :=
  match s with
  | EmptyString => true
  | String c _ => is_alnum c
  end.

Lemma append_cons c (u s : string) : String c u +:+ s = String c (u +:+ s).
Proof. reflexivity. Qed.

Lemma append_nil (s : string) : "" +:+ s = s.
Proof. reflexivity. Qed.

Lemma sub_runs_word (b : bool) (u s : string) :
  all_chars is_alnum u = true → u ≠ "" →
  sub_runs b (u +:+ s) = u +:+ sub_runs false s.
Proof.
  revert b. induction u as [|c u IH]; intros b Hu Hne; [done|].
  simpl in Hu. apply andb_prop in Hu as [Hc Hu].
  rewrite !append_cons. simpl. rewrite Hc. f_equal.
  destruct u as [|c' u']; [by rewrite !append_nil|]. by apply IH.
Qed.

Lemma sub_runs_inside_run (r s : string) :
  all_chars (λ c, negb (is_alnum c)) r = true → run_ends s = true →
  sub_runs true (r +:+ s) = sub_runs false s.
Proof.
  induction r as [|c r IH]; intros Hr Hs.
  - rewrite append_nil. destruct s as [|c s]; [done|]. simpl in *. by rewrite Hs.
  - simpl in Hr. apply andb_prop in Hr as [Hc Hr]. apply negb_true_iff in Hc.
    rewrite append_cons. simpl. rewrite Hc. by apply IH.
Qed.

(** Every maximal run of characters that are not letters or digits becomes one
    underscore; letters and digits are kept. *)
Lemma mangle_run (u r v : string) :
  all_chars is_alnum u = true →
  all_chars (λ c, negb (is_alnum c)) r = true → r ≠ "" →
  run_ends v = true →
  mangle (u +:+ r +:+ v) = u +:+ "_" +:+ mangle v.
Proof.
  intros Hu Hr Hne Hv. unfold mangle.
  assert (sub_runs false (r +:+ v) = "_" +:+ sub_runs false v) as Hrun.
  { destruct r as [|c r]; [done|]. simpl in Hr.
    apply andb_prop in Hr as [Hc Hr]. apply negb_true_iff in Hc.
    rewrite !append_cons, append_nil. simpl. rewrite Hc.
    f_equal. by apply sub_runs_inside_run. }
  destruct u as [|c u]; [by rewrite !append_nil|].
  rewrite sub_runs_word by done. by rewrite Hrun.
Qed.

Lemma mangle_word (u : string) : all_chars is_alnum u = true → mangle u = u.
Proof.
  unfold mangle. generalize false.
  induction u as [|c u IH]; intros b Hu; [done|].
  simpl in *. apply andb_prop in Hu as [Hc Hu]. rewrite Hc. f_equal. by apply IH.
Qed.

Lemma record_step_inv column_value PY2 decode_utf8 text_type self obj
    (data data' : gmap string pyval) i name column :
  record_step column_value PY2 decode_utf8 text_type self obj data (i, (name, column))
  = Ok data' →
  ∃ cell, record_cell column_value PY2 decode_utf8 text_type self obj i column = Ok cell ∧
          data' = <[pretty i := cell]> data.
Proof.
  unfold record_step. cbn [fst snd]. intros H.
  destruct (record_cell _ _ _ _ _ _ _ _) as [cell|]; [|done].
  inversion H. eauto.
Qed.

(** A key that the loop of [get_record_data] does not write keeps its value. *)
Lemma record_fold_frame column_value PY2 decode_utf8 text_type self obj
    (items : list (string * option Column)) :
  ∀ i0 (data0 data : gmap string pyval),
    foldR (record_step column_value PY2 decode_utf8 text_type self obj)
          data0 (enumerate_from i0 items) = Ok data →
    ∀ k : nat, (k < i0)%nat → data !! pretty k = data0 !! pretty k.
Proof.
  induction items as [|[name column] items IH]; intros i0 data0 data H k Hk.
  { by inversion H. }
  cbn [enumerate_from foldR] in H.
  destruct (record_step _ _ _ _ _ _ _ (i0, _)) as [data1|] eqn:Hstep; [|done].
  cbn [mbind result_bind] in H.
  apply record_step_inv in Hstep as (cell & _ & ->).
  rewrite (IH _ _ _ H k) by lia.
  apply lookup_insert_ne. intros E. apply (inj pretty) in E. lia.
Qed.

Lemma record_fold_cell column_value PY2 decode_utf8 text_type self obj
    (items : list (string * option Column)) :
  ∀ i0 (data0 data : gmap string pyval),
    foldR (record_step column_value PY2 decode_utf8 text_type self obj)
          data0 (enumerate_from i0 items) = Ok data →
    ∀ j name column, items !! j = Some (name, column) →
      ∃ cell, record_cell column_value PY2 decode_utf8 text_type self obj
                (i0 + j) column = Ok cell ∧
              data !! pretty (i0 + j)%nat = Some cell.
Proof.
  induction items as [|[name0 column0] items IH];
    intros i0 data0 data H j name column Hj; [done|].
  cbn [enumerate_from foldR] in H.
  destruct (record_step _ _ _ _ _ _ _ (i0, _)) as [data1|] eqn:Hstep; [|done].
  cbn [mbind result_bind] in H.
  apply record_step_inv in Hstep as (cell0 & Hcell & ->).
  destruct j as [|j]; simpl in Hj.
  - inversion Hj; subst. rewrite Nat.add_0_r. exists cell0. split; [done|].
    rewrite (record_fold_frame _ _ _ _ _ _ _ _ _ _ H i0) by lia.
    apply lookup_insert_eq.
  - destruct (IH _ _ _ H j name column Hj) as (cell & Hc & Hd).
    exists cell. by replace (i0 + S j)%nat with (S i0 + j)%nat by lia.
Qed.

Lemma get_record_data_cell column_value PY2 decode_utf8 text_type h self obj
    data items i name column :
  get_record_data column_value PY2 decode_utf8 text_type h self obj = Ok data →
  column_items h (columns self) = Ok items →
  items !! i = Some (name, column) →
  ∃ cell, record_cell column_value PY2 decode_utf8 text_type self obj i column = Ok cell ∧
          data !! pretty i = Some cell.
Proof.
  unfold get_record_data. intros H Hitems Hi. rewrite Hitems in H.
  cbn [mbind result_bind] in H.
  apply (record_fold_cell _ _ _ _ _ _ _ _ _ _ H i name column Hi).
Qed.

(** C6, as amended. Each maximal run of characters that are not letters or
    digits becomes one underscore, so "Region Type" is mangled to
    "Region_Type"; for a column
    with that label (or that name and no label) and no explicit processor, a
    table method [get_column_Region_Type_data] is the processor found, and the
    cell serialized for the column is computed from the method's return value
    in place of the default value. *)
Theorem region_type_hook_overrides (self : Datatable) (i : nat) (column : Column)
    (f : pyval → result pyval) :
  label_or_name column = Some "Region Type" →
  processor_truthy (col_processor column) = false →
  self_attrs self !! "get_column_Region_Type_data" = Some (ACallable f) →
  (∀ u r v, all_chars is_alnum u = true →
            all_chars (λ c, negb (is_alnum c)) r = true → r ≠ "" →
            run_ends v = true →
            mangle (u +:+ r +:+ v) = u +:+ "_" +:+ mangle v) ∧
  mangle "Region Type" = "Region_Type" ∧
  _get_processor_method self i column = Ok (ACallable f) ∧
  ∀ column_value PY2 decode_utf8 text_type obj pair value,
    column_value column obj (record_kwargs self obj) = Ok pair →
    getitem pair 1 = Ok value →
    record_cell column_value PY2 decode_utf8 text_type self obj i (Some column)
    = f value ≫= to_text PY2 decode_utf8 text_type ∧
    ∀ h items name data,
      column_items h (columns self) = Ok items →
      items !! i = Some (name, Some column) →
      get_record_data column_value PY2 decode_utf8 text_type h self obj = Ok data →
      ∃ v cell, f value = Ok v ∧ to_text PY2 decode_utf8 text_type v = Ok cell ∧
                data !! pretty i = Some cell.
Proof.
  intros Hname Hp Hf.
  assert (mangle "Region Type" = "Region_Type") as Hmangle by reflexivity.
  assert (_get_processor_method self i column = Ok (ACallable f)) as Hfound.
  { rewrite (processor_method_hooks self i column _ Hp Hname). cbn zeta.
    rewrite Hmangle. unfold getattr_or_none at 1 2.
    change (hook_by_name "Region_Type") with "get_column_Region_Type_data".
    by rewrite Hf. }
  split; [apply mangle_run|]. split; [done|]. split; [done|].
  intros column_value PY2 decode_utf8 text_type obj pair value Hv Hg.
  assert (record_cell column_value PY2 decode_utf8 text_type self obj i (Some column)
          = f value ≫= to_text PY2 decode_utf8 text_type) as Hcell.
  { unfold record_cell. rewrite Hv. cbn [mbind result_bind]. rewrite Hg.
    cbn [mbind result_bind]. by rewrite Hfound. }
  split; [done|].
  intros h items name data Hitems Hi Hdata.
  destruct (get_record_data_cell _ _ _ _ _ _ _ _ _ _ _ _ Hdata Hitems Hi)
    as (cell & Hc & Hd).
  rewrite Hcell in Hc. destruct (f value) as [v|]; [|done].
  exists v, cell. done.
Qed.

Definition region_type_store : list obj :=
  [ ODict [("region_type", Some 1%nat)];
    OColumn (sample_column "region_type" (Some "Region Type") None);
    OOptions (meta_defaults (DatatableOptions_init None)) ].

Definition region_type_table : Datatable :=
  sample_table {[ "get_column_Region_Type_data" := constant_hook "custom" ]} None.

Definition north : Obj :=
  {| pk := VInt 7; obj_fields := [("region_type", VStr "north")] |}.

Lemma region_type_hook_overrides_witness :
  _get_processor_method region_type_table 0
    (sample_column "region_type" (Some "Region Type") None)
  = Ok (constant_hook "custom").
Proof.
  apply (proj1 (proj2 (proj2
    (region_type_hook_overrides region_type_table 0
       (sample_column "region_type" (Some "Region Type") None)
       (λ _, Ok (VStr "custom")) eq_refl eq_refl eq_refl)))).
Defined.

Example region_type_row :
  get_record_data sample_column_value false Ok sample_text_type
    region_type_store region_type_table north
  = Ok (<["0" := VUnicode "custom"]>
          {[ "pk" := VInt 7; "_extra_data" := VDict [] ]}) ∧
  get_record_data sample_column_value false Ok sample_text_type
    region_type_store (sample_table ∅ None) north
  = Ok (<["0" := VUnicode "north"]>
          {[ "pk" := VInt 7; "_extra_data" := VDict [] ]}).
Proof. split; reflexivity. Qed.

(** The same column with a processor of its own, on the same table: the
    method named after the label is there but is not looked up, and the row
    holds what the processor returns. *)
Definition region_type_processed : Column :=
  sample_column "region_type" (Some "Region Type")
    (Some (PCallable (λ _, Ok (VStr "explicit")))).

Definition region_type_processed_store : list obj :=
  [ ODict [("region_type", Some 1%nat)];
    OColumn region_type_processed;
    OOptions (meta_defaults (DatatableOptions_init None)) ].

Lemma region_type_processor_counterexample :
  label_or_name region_type_processed = Some "Region Type" ∧
  self_attrs region_type_table !! "get_column_Region_Type_data"
  = Some (constant_hook "custom") ∧
  _get_processor_method region_type_table 0 region_type_processed
  = Ok (ACallable (λ _, Ok (VStr "explicit"))) ∧
  get_record_data sample_column_value false Ok sample_text_type
    region_type_processed_store region_type_table north
  = Ok (<["0" := VUnicode "explicit"]>
          {[ "pk" := VInt 7; "_extra_data" := VDict [] ]}).
Proof. repeat split; reflexivity. Qed.

(** ** Column assembly *)

(** *** Ordered dictionaries *)

Section ordered_dict_facts.
Context {V : Type}.
Implicit Types (d items : list (string * V)) (k : string) (v : V).

Lemma od_get_set d k v k' :
  od_get (od_set d k v) k' = if decide (k = k') then Some v else od_get d k'.
Proof.
  induction d as [|[k0 v0] d IH]; simpl.
  - by destruct (decide (k = k')).
  - destruct (decide (k0 = k)) as [->|Hne]; simpl.
    + by destruct (decide (k = k')).
    + destruct (decide (k0 = k')) as [->|Hne'].
      * by destruct (decide (k = k')) as [->|].
      * apply IH.
Qed.

Lemma od_get_None d k : od_get d k = None ↔ k ∉ od_keys d.
Proof.
  unfold od_keys. induction d as [|[k0 v0] d IH]; simpl.
  - split; [intros _; apply not_elem_of_nil|done].
  - rewrite not_elem_of_cons. destruct (decide (k0 = k)) as [->|Hne].
    + split; [done|]. by intros [H _].
    + rewrite IH. split; [by split|]. by intros [_ H].
Qed.

Lemma od_get_Some_key d k v : od_get d k = Some v → k ∈ od_keys d.
Proof.
  intros H. destruct (decide (k ∈ od_keys d)) as [|Hn]; [done|].
  apply od_get_None in Hn. congruence.
Qed.

Lemma od_get_elem d k v : od_get d k = Some v → (k, v) ∈ d.
Proof.
  induction d as [|[k0 v0] d IH]; simpl; [done|].
  destruct (decide (k0 = k)) as [->|Hne].
  - intros [= ->]. left.
  - intros H. right. by apply IH.
Qed.

Lemma od_keys_set d k v k' : k' ∈ od_keys (od_set d k v) ↔ k' = k ∨ k' ∈ od_keys d.
Proof.
  unfold od_keys. induction d as [|[k0 v0] d IH]; simpl.
  - rewrite list_elem_of_singleton, elem_of_nil. tauto.
  - destruct (decide (k0 = k)) as [->|Hne]; simpl.
    + rewrite !elem_of_cons. tauto.
    + rewrite !elem_of_cons, IH. tauto.
Qed.

Lemma od_set_NoDup d k v : NoDup (od_keys d) → NoDup (od_keys (od_set d k v)).
Proof.
  unfold od_keys. induction d as [|[k0 v0] d IH]; simpl; intros Hd.
  - apply NoDup_singleton.
  - apply NoDup_cons in Hd as [Hk0 Hd].
    destruct (decide (k0 = k)) as [->|Hne]; simpl.
    + by apply NoDup_cons.
    + apply NoDup_cons. split; [|by apply IH].
      intros H. apply (od_keys_set d k v k0) in H as [?|?]; done.
Qed.

Lemma od_update_NoDup d items : NoDup (od_keys d) → NoDup (od_keys (od_update d items)).
Proof.
  unfold od_update. revert d.
  induction items as [|[k v] items IH]; intros d Hd; simpl; [done|].
  apply IH. by apply od_set_NoDup.
Qed.

Lemma OrderedDict_NoDup items : NoDup (od_keys (OrderedDict items)).
Proof. apply od_update_NoDup. apply NoDup_nil_2. Qed.

Lemma od_set_fresh d k v : k ∉ od_keys d → od_set d k v = d ++ [(k, v)].
Proof.
  unfold od_keys. induction d as [|[k0 v0] d IH]; simpl; intros Hk; [done|].
  apply not_elem_of_cons in Hk as [Hne Hk].
  destruct (decide (k0 = k)); [congruence|]. by rewrite IH.
Qed.

Lemma od_update_fresh d items :
  NoDup (od_keys d ++ od_keys items) → od_update d items = d ++ items.
Proof.
  unfold od_update, od_keys. revert d.
  induction items as [|[k v] items IH]; intros d Hd; simpl.
  - by rewrite app_nil_r.
  - rewrite od_set_fresh.
    + rewrite IH; [by rewrite <- app_assoc|].
      rewrite fmap_app. simpl. rewrite <- app_assoc. done.
    + apply NoDup_app in Hd as (_ & Hd & _). intros H. apply (Hd _ H). left.
Qed.

Lemma OrderedDict_NoDup_id items : NoDup items.*1 → OrderedDict items = items.
Proof. intros H. unfold OrderedDict. by rewrite od_update_fresh. Qed.

(** After [d.update(items)] a key of [items] holds the last value [items]
    gives it; any other key keeps the value it had. *)
Lemma od_get_update d items k :
  od_get (od_update d items) k =
    match od_get (reverse items) k with
    | Some v => Some v
    | None => od_get d k
    end.
Proof.
  unfold od_update. revert d.
  induction items as [|[k0 v0] items IH]; intros d; simpl; [done|].
  rewrite IH, reverse_cons.
  assert (∀ l, od_get (l ++ [(k0, v0)]) k =
               match od_get l k with
               | Some v => Some v
               | None => if decide (k0 = k) then Some v0 else None
               end) as Hsnoc.
  { induction l as [|[k1 v1] l IHl]; simpl; [done|].
    destruct (decide (k1 = k)); [done|]. apply IHl. }
  rewrite Hsnoc, od_get_set.
  destruct (od_get (reverse items) k); [done|].
  by destruct (decide (k0 = k)).
Qed.

Lemma od_get_reverse_NoDup d k : NoDup (od_keys d) → od_get (reverse d) k = od_get d k.
Proof.
  unfold od_keys. induction d as [|[k0 v0] d IH]; intros Hd; simpl; [done|].
  apply NoDup_cons in Hd as [Hk0 Hd]. rewrite reverse_cons.
  assert (∀ l, od_get (l ++ [(k0, v0)]) k =
               match od_get l k with
               | Some v => Some v
               | None => if decide (k0 = k) then Some v0 else None
               end) as Hsnoc.
  { induction l as [|[k1 v1] l IHl]; simpl; [done|].
    destruct (decide (k1 = k)); [done|]. apply IHl. }
  rewrite Hsnoc, IH by done.
  destruct (decide (k0 = k)) as [->|Hne].
  - apply (od_get_None d k) in Hk0. by rewrite Hk0.
  - by destruct (od_get d k).
Qed.

Lemma od_keys_update d items k :
  k ∈ od_keys (od_update d items) ↔ k ∈ od_keys d ∨ k ∈ od_keys items.
Proof.
  unfold od_update. revert d.
  induction items as [|[k0 v0] items IH]; intros d; simpl.
  - split; [by left|]. intros [?|H]; [done|]. by apply elem_of_nil in H.
  - rewrite IH, od_keys_set.
    change (od_keys ((k0, v0) :: items)) with (k0 :: od_keys items).
    rewrite elem_of_cons. tauto.
Qed.
End ordered_dict_facts.

(** *** Columns derived from the model *)

Definition selected (fields exclude : option (list string)) (f : ModelField) : bool :=
  negb (not_listed fields (field_name f)) && negb (excluded exclude (field_name f)).

Definition mapped (f : ModelField) : bool :=
  bool_decide (is_Some (get_column_for_modelfield f)).

(** The column [columns_for_model] builds for a field. *)
Definition derived_column (f : ModelField) (counter : nat) : Column :=
  {| col_class := default Column_ (get_column_for_modelfield f);
     col_name := Some (field_name f);
     col_sources := [field_name f];
     col_label := Some (pretty_name (verbose_name f));
     col_processor := None;
     col_creation_counter := counter |}.

Definition selected_fields (model : Model) (fields exclude : option (list string))
    : list ModelField :=
  filter (λ f, selected fields exclude f = true)
    (sorted field_creation_counter (opts_fields model)).

Lemma columns_loop fields exclude (l : list ModelField) :
  ∀ st acc,
    foldM (columns_for_model_step fields exclude) acc l st =
      let sel := filter (λ f, selected fields exclude f = true) l in
      if forallb mapped sel then
        Ok (acc ++ imap (λ k f, (field_name f, Some (length (heap st) + k)%nat)) sel,
            {| heap := heap st ++
                 imap (λ k f, OColumn (derived_column f (column_creation_counter st + k)))
                   sel;
               column_creation_counter := column_creation_counter st + length sel |})
      else Raise TypeError.
Proof.
  induction l as [|f l IH]; intros [h n] acc; cbn zeta.
  { simpl. rewrite !app_nil_r, Nat.add_0_r. done. }
  cbn [foldM]. unfold mbind at 1, M_bind at 1.
  unfold columns_for_model_step at 1.
  destruct (not_listed fields (field_name f)) eqn:Hnl.
  { rewrite filter_cons_False by (unfold selected; rewrite Hnl; done).
    apply IH. }
  destruct (excluded exclude (field_name f)) eqn:Hex.
  { rewrite filter_cons_False by (unfold selected; rewrite Hnl, Hex; done).
    apply IH. }
  rewrite filter_cons_True by (unfold selected; rewrite Hnl, Hex; done).
  cbn [forallb]. unfold mapped at 1.
  destruct (get_column_for_modelfield f) as [cls|] eqn:Hcls.
  2:{ rewrite bool_decide_eq_false_2 by (by intros [? ?]). done. }
  rewrite bool_decide_eq_true_2 by eauto. cbn [andb].
  unfold mbind, M_bind, new_column, set_column, get_column, store, mbind, M_bind.
  cbn [heap column_creation_counter].
  unfold read_column. rewrite lookup_app_r by lia.
  rewrite Nat.sub_diag. cbn [lookup list_lookup fmap result_fmap].
  cbn [heap column_creation_counter mret M_ret].
  rewrite insert_app_r_alt by lia. rewrite Nat.sub_diag. cbn [insert list_insert].
  rewrite IH. cbn zeta. cbn [heap column_creation_counter].
  destruct (forallb mapped _); [|done].
  f_equal. f_equal.
  - rewrite <- app_assoc. f_equal. cbn [app imap]. f_equal.
    + by rewrite Nat.add_0_r.
    + apply imap_ext. intros k x _. simpl. rewrite length_app. simpl.
      do 2 f_equal. lia.
  - f_equal.
    + rewrite <- app_assoc. f_equal. cbn [app imap]. f_equal.
      * unfold derived_column, with_name. rewrite Hcls. simpl.
        by rewrite Nat.add_0_r.
      * apply imap_ext. intros k x _. simpl. do 2 f_equal. lia.
    + simpl. lia.
Qed.

Definition field_list_of (base : nat) (sel : list ModelField) : list (string * option loc) :=
  imap (λ k f, (field_name f, Some (base + k)%nat)) sel.

Definition derived_columns (counter : nat) (sel : list ModelField) : list obj :=
  imap (λ k f, OColumn (derived_column f (counter + k))) sel.

(** The dictionary [columns_for_model] returns when the store has [base]
    objects before the call. *)
Definition model_columns (base : nat) (model : Model)
    (fields exclude : option (list string)) : list (string * option loc) :=
  let field_dict :=
    OrderedDict (field_list_of base (selected_fields model fields exclude)) in
  match fields with
  | Some ((_ :: _) as fs) =>
      OrderedDict ((λ f, (f, mjoin (od_get field_dict f))) <$>
                     filter (λ f, excluded exclude f = false) fs)
  | _ => field_dict
  end.

Lemma columns_for_model_unmapped model fields exclude st :
  forallb mapped (selected_fields model fields exclude) = false →
  columns_for_model model fields exclude st = Raise TypeError.
Proof.
  intros Hm. unfold columns_for_model. unfold mbind at 1, M_bind at 1.
  rewrite columns_loop. cbn zeta. fold (selected_fields model fields exclude).
  by rewrite Hm.
Qed.

Lemma columns_for_model_mapped model fields exclude st :
  forallb mapped (selected_fields model fields exclude) = true →
  ∃ l st' more,
    columns_for_model model fields exclude st = Ok (l, st') ∧
    heap st' = heap st ++ derived_columns (column_creation_counter st)
                            (selected_fields model fields exclude) ++ more ∧
    (length (heap st) ≤ l)%nat ∧
    read_dict (heap st') l = Ok (model_columns (length (heap st)) model fields exclude) ∧
    (∀ o, o ∈ more → ∃ d, o = ODict d).
Proof.
  intros Hm. unfold columns_for_model. unfold mbind at 1, M_bind at 1.
  rewrite columns_loop. cbn zeta. fold (selected_fields model fields exclude).
  rewrite Hm. destruct st as [h n]. cbn [heap column_creation_counter app].
  set (sel := selected_fields model fields exclude).
  fold (field_list_of (length h) sel). fold (derived_columns n sel).
  unfold mbind at 1, M_bind at 1, alloc at 1.
  cbn [heap column_creation_counter].
  assert (∀ (l : list obj) o, (l ++ [o]) !! length l = Some o) as Hlast.
  { intros l o. rewrite lookup_app_r by lia. by rewrite Nat.sub_diag. }
  destruct fields as [[|f0 fs]|].
  - eexists _, _, [_]. split; [reflexivity|]. cbn [heap].
    split; [by rewrite <- app_assoc|]. split; [rewrite length_app; lia|].
    split.
    + unfold read_dict. by rewrite Hlast.
    + intros o Ho. apply list_elem_of_singleton in Ho. eauto.
  - unfold mbind, M_bind, get_dict, alloc. cbn [heap column_creation_counter].
    unfold read_dict at 1. rewrite Hlast.
    cbn [fmap result_fmap heap column_creation_counter].
    eexists _, _, [_; _]. split; [reflexivity|]. cbn [heap].
    split; [by rewrite <- !app_assoc|]. split; [rewrite !length_app; simpl; lia|].
    split.
    + unfold read_dict. by rewrite Hlast.
    + intros o Ho. apply elem_of_cons in Ho as [->|Ho]; [eauto|].
      apply list_elem_of_singleton in Ho. eauto.
  - eexists _, _, [_]. split; [reflexivity|]. cbn [heap].
    split; [by rewrite <- app_assoc|]. split; [rewrite length_app; lia|].
    split.
    + unfold read_dict. by rewrite Hlast.
    + intros o Ho. apply list_elem_of_singleton in Ho. eauto.
Qed.

(** *** Declared columns *)

Lemma bind_ok {A B} (m : M A) (f : A → M B) st b st' :
  (m ≫= f) st = Ok (b, st') ↔ ∃ a st1, m st = Ok (a, st1) ∧ f a st1 = Ok (b, st').
Proof.
  unfold mbind, M_bind. split.
  - destruct (m st) as [[a st1]|]; [eauto|done].
  - intros (a & st1 & -> & H). done.
Qed.

Lemma foldM_app {A B} (f : B → A → M B) (l1 l2 : list A) b st :
  foldM f b (l1 ++ l2) st = (foldM f b l1 ≫= λ b', foldM f b' l2) st.
Proof.
  revert b st. induction l1 as [|x l1 IH]; intros b st; simpl; [done|].
  unfold mbind, M_bind. destruct (f b x st) as [[b' st']|]; [|done]. apply IH.
Qed.

Lemma foldM_readonly {A B} (f : B → A → M B) (l : list A) :
  (∀ b a st r st', f b a st = Ok (r, st') → st' = st) →
  ∀ b st r st', foldM f b l st = Ok (r, st') → st' = st.
Proof.
  intros Hf. induction l as [|x l IH]; intros b st r st' H; simpl in H.
  - by inversion H.
  - apply bind_ok in H as (b' & st1 & H1 & H2).
    apply Hf in H1 as ->. by apply IH in H2.
Qed.

Definition counter_at (h : list obj) (l : loc) : Z :=
  match h !! l with
  | Some (OColumn c) => Z.of_nat (col_creation_counter c)
  | _ => 0
  end.

Definition dict_at (h : list obj) (d : loc) : list (string * option loc) :=
  match h !! d with Some (ODict items) => items | _ => [] end.

(** The class's own columns in creation order. *)
Definition local_columns (h : list obj) (attrs : ClassAttrs) : list (string * option loc) :=
  (λ x : string * loc, (x.1, Some x.2)) <$>
    sorted (λ x : string * loc, counter_at h x.2) (attr_columns attrs).

Definition columns_attribute (with_base_columns : bool) (base : BaseClass) : option loc :=
  if with_base_columns then base_base_columns base else base_declared_columns base.

(** The entries the bases contribute, first base first. *)
Definition inherited_columns (h : list obj) (with_base_columns : bool)
    (bases : list BaseClass) : list (string * option loc) :=
  mjoin ((λ base, match columns_attribute with_base_columns base with
                  | Some d => dict_at h d
                  | None => []
                  end) <$> bases).

Definition declared_dict (h : list obj) (bases : list BaseClass) (attrs : ClassAttrs)
    (with_base_columns : bool) : list (string * option loc) :=
  OrderedDict (inherited_columns h with_base_columns bases ++ local_columns h attrs).

(** References that point at what they should. *)
Definition columns_allocated (h : list obj) (attrs : ClassAttrs) : Prop :=
  ∀ n l, (n, l) ∈ attr_columns attrs → ∃ c, read_column h l = Ok c.

Definition bases_allocated (h : list obj) (with_base_columns : bool)
    (bases : list BaseClass) : Prop :=
  ∀ base d, base ∈ bases → columns_attribute with_base_columns base = Some d →
            ∃ items, read_dict h d = Ok items.

Lemma insert_sorted_decorate {A} (key : A → Z) (x : A) (s : list A) :
  insert_sorted fst (key x, x) ((λ x, (key x, x)) <$> s)
  = (λ x, (key x, x)) <$> insert_sorted key x s.
Proof.
  induction s as [|y s IH]; [done|].
  rewrite fmap_cons. cbn [insert_sorted fst].
  destruct (key x <=? key y); [done|]. by rewrite IH, fmap_cons.
Qed.

Lemma sorted_decorate {A} (key : A → Z) (l : list A) :
  sorted fst ((λ x, (key x, x)) <$> l) = (λ x, (key x, x)) <$> sorted key l.
Proof.
  unfold sorted. induction l as [|x l IH]; [done|].
  rewrite fmap_cons. cbn [foldr]. by rewrite IH, insert_sorted_decorate.
Qed.

Lemma keyed_loop (cols : list (string * loc)) st :
  (∀ n l, (n, l) ∈ cols → ∃ c, read_column (heap st) l = Ok c) →
  ∀ acc,
    foldM (λ acc item, k ← with_creation_counter item; mret (acc ++ [k])) acc cols st
    = Ok (acc ++ ((λ x : string * loc, (counter_at (heap st) x.2, x)) <$> cols), st).
Proof.
  induction cols as [|[n l] cols IH]; intros Hwf acc.
  { simpl. by rewrite app_nil_r. }
  destruct (Hwf n l) as [c Hc]; [left|].
  cbn [foldM]. apply bind_ok. eexists _, st. split.
  - apply bind_ok. exists (counter_at (heap st) l, (n, l)), st. split; [|done].
    unfold with_creation_counter. apply bind_ok. exists c, st. split.
    + unfold get_column. cbn [snd]. by rewrite Hc.
    + unfold mret, M_ret. do 3 f_equal.
      unfold counter_at. unfold read_column in Hc.
      destruct (heap st !! l) as [[c'| |]|]; by inversion Hc.
  - rewrite IH.
    + by rewrite fmap_cons, <- app_assoc.
    + intros n' l' H. apply (Hwf n' l'). by right.
Qed.

Lemma bases_loop (with_base_columns : bool) (bases : list BaseClass) st :
  bases_allocated (heap st) with_base_columns bases →
  ∀ acc,
    foldM (λ local_columns base,
             match (if with_base_columns then base_base_columns base
                    else base_declared_columns base) with
             | Some d => items ← get_dict d; mret (items ++ local_columns)
             | None => mret local_columns
             end) acc (reverse bases) st
    = Ok (inherited_columns (heap st) with_base_columns bases ++ acc, st).
Proof.
  induction bases as [|base bases IH]; intros Hwf acc; [done|].
  rewrite reverse_cons, foldM_app. apply bind_ok.
  exists (inherited_columns (heap st) with_base_columns bases ++ acc), st. split.
  { apply IH. intros b d Hb. apply Hwf. by right. }
  cbn [foldM]. apply bind_ok. eexists _, st. split; [|done].
  unfold inherited_columns. rewrite fmap_cons. cbn [mjoin list_join].
  fold (columns_attribute with_base_columns base).
  destruct (columns_attribute with_base_columns base) as [d|] eqn:Hd; [|done].
  destruct (Hwf base d) as [items Hitems]; [left|done|].
  apply bind_ok. exists items, st. split.
  - unfold get_dict. by rewrite Hitems.
  - unfold mret, M_ret. do 2 f_equal. rewrite <- app_assoc. f_equal.
    unfold dict_at. unfold read_dict in Hitems.
    destruct (heap st !! d) as [[|items'|]|]; by inversion Hitems.
Qed.

Lemma get_declared_columns_allocated bases attrs with_base_columns st :
  columns_allocated (heap st) attrs →
  bases_allocated (heap st) with_base_columns bases →
  get_declared_columns bases attrs with_base_columns st
  = Ok (length (heap st),
        {| heap := heap st ++
                   [ODict (declared_dict (heap st) bases attrs with_base_columns)];
           column_creation_counter := column_creation_counter st |}).
Proof.
  intros Hcols Hbases. unfold get_declared_columns.
  apply bind_ok. eexists _, st. split; [by apply keyed_loop|].
  apply bind_ok. eexists _, st. split; [by apply bases_loop|].
  unfold alloc, declared_dict, local_columns. do 5 f_equal.
  rewrite app_nil_l, sorted_decorate. rewrite <- list_fmap_compose. done.
Qed.

(** Whatever the references, a call that returns has only added the new
    dictionary. *)
Lemma get_declared_columns_inv bases attrs with_base_columns st l st' :
  get_declared_columns bases attrs with_base_columns st = Ok (l, st') →
  ∃ dd, l = length (heap st) ∧ heap st' = heap st ++ [ODict dd] ∧
        column_creation_counter st' = column_creation_counter st ∧
        NoDup (od_keys dd).
Proof.
  unfold get_declared_columns. intros H.
  apply bind_ok in H as (keyed & st1 & H1 & H).
  apply foldM_readonly in H1 as ->.
  2:{ intros b a s r s' Hs. apply bind_ok in Hs as (k & s1 & Hk & Hr).
      unfold with_creation_counter in Hk.
      apply bind_ok in Hk as (c & s2 & Hc & Hk). unfold get_column in Hc.
      destruct (read_column _ _); [|done]. inversion Hc; subst.
      inversion Hk; subst. by inversion Hr. }
  apply bind_ok in H as (local & st2 & H2 & H).
  apply foldM_readonly in H2 as ->.
  2:{ intros b a s r s' Hs. destruct (if with_base_columns then _ else _).
      - apply bind_ok in Hs as (k & s1 & Hk & Hr). unfold get_dict in Hk.
        destruct (read_dict _ _); [|done]. inversion Hk; subst. by inversion Hr.
      - by inversion Hs. }
  unfold alloc in H. inversion H; subst. eexists. repeat split.
  apply OrderedDict_NoDup.
Qed.

(** *** Unknown column names *)

Definition field_names (model : Model) : list string := field_name <$> opts_fields model.

Lemma elem_of_insert_sorted {A} (key : A → Z) (x y : A) (l : list A) :
  y ∈ insert_sorted key x l ↔ y = x ∨ y ∈ l.
Proof.
  induction l as [|z l IH]; simpl.
  - rewrite list_elem_of_singleton, elem_of_nil. tauto.
  - destruct (key x <=? key z).
    + by rewrite elem_of_cons.
    + rewrite !elem_of_cons, IH. tauto.
Qed.

Lemma elem_of_sorted {A} (key : A → Z) (y : A) (l : list A) :
  y ∈ sorted key l ↔ y ∈ l.
Proof.
  unfold sorted. induction l as [|x l IH]; simpl; [done|].
  by rewrite elem_of_insert_sorted, elem_of_cons, IH.
Qed.

Lemma od_get_graph {V} (g : string → V) (l : list string) (k : string) :
  od_get ((λ f, (f, g f)) <$> l) k = if decide (k ∈ l) then Some (g k) else None.
Proof.
  induction l as [|x l IH].
  - destruct (decide (k ∈ [])) as [H|]; [by apply elem_of_nil in H|done].
  - rewrite fmap_cons. cbn [od_get]. destruct (decide (x = k)) as [->|Hne].
    + rewrite decide_True; [done|left].
    + rewrite IH. destruct (decide (k ∈ l)) as [Hin|Hin].
      * rewrite decide_True; [done|by right].
      * rewrite decide_False; [done|]. rewrite elem_of_cons.
        by intros [?|?].
Qed.

Lemma od_get_None_value {V} (d : list (string * option V)) (k : string) :
  NoDup (od_keys d) →
  k ∈ (filter (λ kv : string * option V, kv.2 = None) d).*1 ↔ od_get d k = Some None.
Proof.
  unfold od_keys. induction d as [|[k0 v0] d IH]; intros Hd; simpl.
  - split; [intros H; by apply elem_of_nil in H|done].
  - apply NoDup_cons in Hd as [Hk0 Hd].
    destruct (decide (k0 = k)) as [->|Hne].
    + destruct v0 as [v|].
      * rewrite filter_cons_False by done. split; [|done].
        intros H. exfalso. apply Hk0.
        apply list_elem_of_fmap in H as ([k' v'] & -> & H).
        apply list_elem_of_filter in H as [_ H]. apply list_elem_of_fmap.
        by exists (k', v').
      * rewrite filter_cons_True by done. split; [done|]. intros _. left.
    + rewrite <- IH by done. destruct v0 as [v|].
      * by rewrite filter_cons_False by done.
      * rewrite filter_cons_True by done. simpl. rewrite elem_of_cons.
        split; [by intros [?|?]|by right].
Qed.

Lemma field_list_keys base sel : (field_list_of base sel).*1 = field_name <$> sel.
Proof.
  unfold field_list_of. apply list_eq. intros i.
  rewrite !list_lookup_fmap, list_lookup_imap. by destruct (sel !! i).
Qed.

Lemma field_list_values base sel k v :
  (k, v) ∈ field_list_of base sel → v ≠ None.
Proof.
  unfold field_list_of. intros H. apply list_elem_of_lookup in H as [i H].
  rewrite list_lookup_imap in H. destruct (sel !! i); simpl in H; [|done].
  by inversion H.
Qed.

Lemma none_model_columns_spec base model (include : list string) exclude k :
  include ≠ [] →
  k ∈ (filter (λ kv : string * option loc, kv.2 = None)
         (model_columns base model (Some include) exclude)).*1
  ↔ k ∈ include ∧ excluded exclude k = false ∧ k ∉ field_names model.
Proof.
  intros Hne. rewrite od_get_None_value.
  2:{ unfold model_columns. destruct include; apply OrderedDict_NoDup. }
  unfold model_columns. destruct include as [|f0 fs]; [done|].
  set (include := f0 :: fs). unfold OrderedDict at 1.
  rewrite od_get_update. rewrite <- fmap_reverse, od_get_graph. simpl.
  set (field_dict := OrderedDict _).
  assert (od_get field_dict k = None ↔
          ¬ (∃ f, f ∈ opts_fields model ∧ field_name f = k ∧
                  selected (Some include) exclude f = true)) as Hdict.
  { rewrite od_get_None. unfold field_dict, OrderedDict.
    rewrite od_keys_update. unfold od_keys. rewrite field_list_keys.
    unfold selected_fields. split.
    - intros Hn (f & Hf & Hk & Hs). apply Hn. right.
      apply list_elem_of_fmap. exists f. split; [done|].
      apply list_elem_of_filter. split; [done|]. by apply elem_of_sorted.
    - intros Hn [H|H]; [by apply elem_of_nil in H|].
      apply list_elem_of_fmap in H as (f & -> & H).
      apply list_elem_of_filter in H as [Hs H]. apply elem_of_sorted in H.
      apply Hn. eauto. }
  assert (∀ v, od_get field_dict k = Some v → v ≠ None) as Hsome.
  { intros v Hv. apply od_get_elem in Hv. unfold field_dict, OrderedDict in Hv.
    destruct v; [done|]. exfalso.
    assert (∀ (items d : list (string * option loc)),
              (∀ k v, (k, v) ∈ d → v ≠ None) → (∀ k v, (k, v) ∈ items → v ≠ None) →
              ∀ k v, (k, v) ∈ od_update d items → v ≠ None) as Hupd.
    { clear. unfold od_update. induction items as [|[k0 v0] items IH];
        intros d Hd Hitems k v; simpl; [apply Hd|].
      apply IH.
      - intros k' v' H. clear IH.
        induction d as [|[k1 v1] d IHd]; simpl in H.
        + apply list_elem_of_singleton in H. inversion H; subst.
          apply (Hitems k0). left.
        + destruct (decide (k1 = k0)).
          * apply elem_of_cons in H as [H|H].
            -- inversion H; subst. apply (Hitems k0). left.
            -- apply (Hd k' v'). by right.
          * apply elem_of_cons in H as [H|H].
            -- inversion H; subst. apply (Hd k1). left.
            -- apply IHd; [|done]. intros k2 v2 H2. apply (Hd k2). by right.
      - intros k' v' H. apply (Hitems k'). by right. }
    apply (Hupd _ [] (λ k v H, False_ind _ (proj1 (elem_of_nil _) H))
                 (field_list_values _ _) k None Hv). done. }
  destruct (decide (k ∈ reverse (filter (λ f, excluded exclude f = false) include)))
    as [Hin|Hin].
  - rewrite elem_of_reverse, list_elem_of_filter in Hin. destruct Hin as [Hex Hin].
    split.
    + intros H. inversion H as [Hj]. split; [done|]. split; [done|].
      assert (od_get field_dict k = None) as Hnone.
      { destruct (od_get field_dict k) as [[v|]|] eqn:E; [done| |done].
        by destruct (Hsome None). }
      apply Hdict in Hnone. intros Hf. apply Hnone.
      apply list_elem_of_fmap in Hf as (f & -> & Hf). exists f.
      split; [done|]. split; [done|]. unfold selected. rewrite Hex.
      unfold not_listed. by rewrite bool_decide_eq_true_2.
    + intros (_ & _ & Hf).
      assert (od_get field_dict k = None) as ->; [|done].
      apply Hdict. intros (f & Hfin & <- & _). apply Hf.
      apply list_elem_of_fmap. eauto.
  - split; [done|]. intros (Hk & Hex & _). exfalso. apply Hin.
    rewrite elem_of_reverse, list_elem_of_filter. done.
Qed.

Lemma bind_raise {A B} (m : M A) (f : A → M B) st e :
  m st = Raise e → (m ≫= f) st = Raise e.
Proof. unfold mbind, M_bind. by intros ->. Qed.

Lemma bind_step {A B} (m : M A) (f : A → M B) st a st1 :
  m st = Ok (a, st1) → (m ≫= f) st = f a st1.
Proof. unfold mbind, M_bind. by intros ->. Qed.

(** C1, as amended. For a class with a configured model whose store
    references are in order and whose listed, not excluded model fields all
    have a mapped column type: if the include list has a name that is not
    excluded, is no model field and is no declared column, then creating the
    class raises [ColumnError], and the names it carries are exactly the
    included, not excluded names that are neither model fields nor declared
    columns. *)
Theorem unknown_column_raises_ColumnError (name : string) (bases : list BaseClass)
    (attrs : ClassAttrs) (st : pystate) (model : Model) (include : list string)
    (n : string) :
  let opts := DatatableOptions_init (getattr_Meta bases attrs) in
  opt_model opts = Some model →
  opt_columns opts = Some include →
  columns_allocated (heap st) attrs →
  bases_allocated (heap st) false bases →
  forallb mapped (selected_fields model (Some include) (opt_exclude opts)) = true →
  n ∈ include →
  excluded (opt_exclude opts) n = false →
  n ∉ field_names model →
  n ∉ od_keys (declared_dict (heap st) bases attrs false) →
  ∃ names,
    DatatableMetaclass_new name bases attrs st = Raise (ColumnError names) ∧
    n ∈ names ∧
    ∀ k, k ∈ names ↔
         k ∈ include ∧ excluded (opt_exclude opts) k = false ∧
         (k ∉ field_names model) ∧
         (k ∉ od_keys (declared_dict (heap st) bases attrs false)).
Proof.
  intros opts Hmodel Hcols Hattrs Hbases Hmapped Hn Hex Hfield Hdecl.
  set (dd := declared_dict (heap st) bases attrs false) in *.
  set (st0 := {| heap := heap st ++ [ODict dd];
                 column_creation_counter := column_creation_counter st |}).
  set (st1 := {| heap := heap st ++ [ODict dd; OOptions opts];
                 column_creation_counter := column_creation_counter st |}).
  destruct (columns_for_model_mapped model (Some include) (opt_exclude opts) st1 Hmapped)
    as (cl & st2 & more & Hc & Hheap & Hfresh & Hread & _).
  set (d := model_columns (length (heap st1)) model (Some include) (opt_exclude opts)) in *.
  set (missing := missing_columns
                    (filter (λ kv : string * option loc, kv.2 = None) d).*1 (od_keys dd)).
  assert (include ≠ []) as Hne by (intros ->; by apply elem_of_nil in Hn).
  assert (∀ k, k ∈ missing ↔
               k ∈ include ∧ excluded (opt_exclude opts) k = false ∧
               (k ∉ field_names model) ∧ (k ∉ od_keys dd)) as Hmissing.
  { intros k. unfold missing, missing_columns.
    rewrite elem_of_difference, !elem_of_list_to_set.
    unfold d. rewrite none_model_columns_spec by done. tauto. }
  exists (elements missing). split; [|split].
  - unfold DatatableMetaclass_new.
    rewrite (bind_step _ _ st (length (heap st)) st0)
      by (by apply get_declared_columns_allocated).
    cbn zeta. fold opts.
    rewrite (bind_step _ _ st0 (length (heap st0)) st1)
      by (unfold alloc, st0, st1; cbn [heap column_creation_counter];
          by rewrite <- app_assoc).
    apply bind_raise. rewrite Hmodel, Hcols.
    rewrite (bind_step _ _ _ _ _ Hc).
    rewrite (bind_step _ _ st2 d st2) by (unfold get_dict; by rewrite Hread).
    rewrite (bind_step _ _ st2 dd st2).
    2:{ unfold get_dict, read_dict. rewrite Hheap. cbn [heap st1].
        rewrite <- app_assoc. rewrite lookup_app_r by lia.
        rewrite Nat.sub_diag. done. }
    cbn zeta. fold missing.
    destruct (decide (missing = ∅)) as [Hempty|_]; [|done].
    exfalso. assert (n ∈ missing) as Hin by (by apply Hmissing).
    rewrite Hempty in Hin. by apply not_elem_of_empty in Hin.
  - apply elem_of_elements. by apply Hmissing.
  - intros k. rewrite elem_of_elements. apply Hmissing.
Qed.

(** Sample model and class bodies for the closed examples. *)
Definition sample_field (name : string) (classes : list ModelFieldClass) (counter : Z)
    : ModelField :=
  {| field_name := name; verbose_name := name; field_classes := classes;
     field_creation_counter := counter |}.

Definition abc_model : Model :=
  {| model_name := "Abc";
     opts_fields := [ sample_field "a" [CharField] 1;
                      sample_field "b" [IntegerField] 2;
                      sample_field "c" [DateField] 3 ] |}.

Definition sample_Meta (model : Model) (columns exclude : option (list string)) : MetaDecl :=
  {| meta_model := Some model; meta_columns := columns; meta_exclude := exclude;
     meta_ordering := None; meta_page_length := None; meta_search := None;
     meta_search_fields := None; meta_unsortable_columns := None;
     meta_hidden_columns := None; meta_structure_template := None;
     meta_result_counter_id := None |}.

Definition class_body (columns : list (string * loc)) (Meta : option MetaDecl)
    : ClassAttrs :=
  {| attr_columns := columns; attr_Meta := Meta; attr_others := ∅ |}.

Definition empty_store : pystate := {| heap := []; column_creation_counter := 0 |}.

Lemma unknown_column_raises_ColumnError_witness :
  ∃ names,
    DatatableMetaclass_new "T" []
      (class_body [] (Some (sample_Meta abc_model (Some ["a"; "zzz"]) None)))
      empty_store = Raise (ColumnError names) ∧
    "zzz" ∈ names.
Proof.
  destruct (unknown_column_raises_ColumnError "T" []
              (class_body [] (Some (sample_Meta abc_model (Some ["a"; "zzz"]) None)))
              empty_store abc_model ["a"; "zzz"] "zzz")
    as (names & Hraise & Hin & _).
  - reflexivity.
  - reflexivity.
  - intros n l H. by apply elem_of_nil in H.
  - intros b d H. by apply elem_of_nil in H.
  - reflexivity.
  - right. left.
  - reflexivity.
  - intros H. by repeat (apply elem_of_cons in H as [?|H]; [done|]);
      apply elem_of_nil in H.
  - intros H. by apply elem_of_nil in H.
  - eauto.
Defined.

Example unknown_column_names_exactly :
  DatatableMetaclass_new "T" []
    (class_body [] (Some (sample_Meta abc_model (Some ["a"; "zzz"]) None)))
    empty_store = Raise (ColumnError ["zzz"]).
Proof. reflexivity. Qed.

Lemma excluded_unknown_column_accepted :
  let Meta := sample_Meta abc_model (Some ["a"; "zzz"]) (Some ["zzz"]) in
  "zzz" ∈ default [] (meta_columns Meta) ∧
  ("zzz" ∉ field_names abc_model) ∧
  match DatatableMetaclass_new "T" [] (class_body [] (Some Meta)) empty_store with
  | Ok (cls, st) =>
      od_keys (dict_at (heap st) (declared_columns cls)) = [] ∧
      od_keys (dict_at (heap st) (base_columns cls)) = ["a"]
  | Raise _ => False
  end.
Proof.
  split; [right; left|]. split.
  - intros H. by repeat (apply elem_of_cons in H as [?|H]; [done|]);
      apply elem_of_nil in H.
  - vm_compute. split; reflexivity.
Qed.

(** A listed field of no mapped type stops class creation with the
    [TypeError] of calling [None], before any name is checked. *)
Example unmapped_field_raises_TypeError :
  DatatableMetaclass_new "T" []
    (class_body []
       (Some (sample_Meta
                {| model_name := "Blob"; opts_fields := [sample_field "data" [] 1] |}
                (Some ["data"; "zzz"]) None)))
    empty_store = Raise TypeError.
Proof. reflexivity. Qed.

(** *** A model without declared columns *)

Lemma selected_all model :
  selected_fields model None None = sorted field_creation_counter (opts_fields model).
Proof.
  unfold selected_fields. generalize (sorted field_creation_counter (opts_fields model)).
  induction l as [|f l IH]; [done|].
  rewrite filter_cons_True by done. by rewrite IH.
Qed.

Lemma insert_sorted_Permutation {A} (key : A → Z) (x : A) (l : list A) :
  insert_sorted key x l ≡ₚ x :: l.
Proof.
  induction l as [|y l IH]; simpl; [done|].
  destruct (key x <=? key y); [done|]. rewrite IH. apply Permutation_swap.
Qed.

Lemma sorted_Permutation {A} (key : A → Z) (l : list A) : sorted key l ≡ₚ l.
Proof.
  unfold sorted. induction l as [|x l IH]; simpl; [done|].
  by rewrite insert_sorted_Permutation, IH.
Qed.

Lemma sorted_in_order {A} (key : A → Z) (l : list A) :
  StronglySorted (λ x y, key x ≤ key y) l → sorted key l = l.
Proof.
  unfold sorted. induction 1 as [|x l Hl IH Hx]; simpl; [done|]. rewrite IH.
  destruct l as [|y l]; [done|]. simpl.
  apply Forall_cons in Hx as [Hxy _].
  destruct (Z.leb_spec (key x) (key y)); [done|lia].
Qed.

Lemma read_item_column h acc k l c :
  read_column h l = Ok c → read_item h acc (k, Some l) = Ok (acc ++ [(k, Some c)]).
Proof. unfold read_item. cbn [fst snd]. by intros ->. Qed.

Lemma column_items_derived (h : list obj) (sel : list ModelField) :
  ∀ (base n : nat) acc,
    (∀ (k : nat) f, sel !! k = Some f →
            read_column h (base + k)%nat = Ok (derived_column f (n + k))) →
    foldR (read_item h) acc (field_list_of base sel)
    = Ok (acc ++ imap (λ k f, (field_name f, Some (derived_column f (n + k)))) sel).
Proof.
  unfold field_list_of.
  induction sel as [|f sel IH]; intros base n acc Hread.
  { simpl. by rewrite app_nil_r. }
  rewrite !imap_cons. cbn [foldR].
  rewrite (read_item_column _ _ _ _ _ (Hread 0%nat f eq_refl)).
  cbn [mbind result_bind].
  rewrite (imap_ext _ (λ k f, (field_name f, Some (S base + k)%nat))).
  2:{ intros i x _. simpl. do 2 f_equal. lia. }
  rewrite (IH (S base) (S n)).
  - rewrite <- app_assoc. do 2 f_equal. simpl. f_equal.
    apply imap_ext. intros i x _. simpl. do 3 f_equal. lia.
  - intros k g Hk. replace (S base + k)%nat with (base + S k)%nat by lia.
    replace (S n + k)%nat with (n + S k)%nat by lia. by apply Hread.
Qed.

(** C7. For a model all of whose fields have a mapped column type and distinct
    names, and a class body with no column objects (own or inherited) and no
    include or exclude list, class creation succeeds and the assembled mapping
    has exactly one derived column per field, in the order of the fields'
    creation counters, which is the order of [opts.fields] when that list is
    in creation order. *)
Theorem model_fields_become_columns (name : string) (bases : list BaseClass)
    (attrs : ClassAttrs) (st : pystate) (model : Model) :
  let opts := DatatableOptions_init (getattr_Meta bases attrs) in
  let in_order := sorted field_creation_counter (opts_fields model) in
  opt_model opts = Some model →
  opt_columns opts = None →
  opt_exclude opts = None →
  attr_columns attrs = [] →
  bases_allocated (heap st) false bases →
  inherited_columns (heap st) false bases = [] →
  forallb mapped (opts_fields model) = true →
  NoDup (field_names model) →
  ∃ cls st' items,
    DatatableMetaclass_new name bases attrs st = Ok (cls, st') ∧
    column_items (heap st') (base_columns cls) = Ok items ∧
    items = imap (λ k f, (field_name f,
                          Some (derived_column f (column_creation_counter st + k))))
              in_order ∧
    length items = length (opts_fields model) ∧
    (StronglySorted (λ f g, field_creation_counter f ≤ field_creation_counter g)
       (opts_fields model) →
     items.*1 = field_names model).
Proof.
  intros opts in_order Hmodel Hcols Hexcl Hattrs Hbases Hinh Hmapped Hnodup.
  set (st0 := {| heap := heap st ++ [ODict []];
                 column_creation_counter := column_creation_counter st |}).
  set (st1 := {| heap := heap st ++ [ODict []; OOptions opts];
                 column_creation_counter := column_creation_counter st |}).
  assert (get_declared_columns bases attrs false st = Ok (length (heap st), st0)) as Hdecl.
  { rewrite get_declared_columns_allocated; [|by intros n l; rewrite Hattrs;
      intros H; apply elem_of_nil in H|done].
    unfold declared_dict, local_columns. by rewrite Hinh, Hattrs. }
  assert (∀ f, f ∈ in_order ↔ f ∈ opts_fields model) as Hperm.
  { intros f. apply elem_of_sorted. }
  assert (forallb mapped (selected_fields model None None) = true) as Hsel.
  { rewrite selected_all. apply forallb_forall. intros f Hf.
    apply list_elem_of_In, Hperm, list_elem_of_In in Hf.
    by apply (proj1 (forallb_forall _ _) Hmapped). }
  destruct (columns_for_model_mapped model None None st1 Hsel)
    as (cl & st2 & more & Hc & Hheap & Hfresh & Hread & _).
  rewrite selected_all in Hheap. fold in_order in Hheap.
  unfold model_columns in Hread. rewrite selected_all in Hread. fold in_order in Hread.
  assert (in_order ≡ₚ opts_fields model) as Hp by apply sorted_Permutation.
  assert (length in_order = length (opts_fields model)) as Hlen by (by rewrite Hp).
  assert (NoDup (field_name <$> in_order)) as Hnd by (by rewrite Hp).
  rewrite OrderedDict_NoDup_id in Hread by (by rewrite field_list_keys).
  set (d := field_list_of (length (heap st1)) in_order) in *.
  assert ((filter (λ kv : string * option loc, kv.2 = None) d).*1 = []) as Hnone.
  { assert (filter (λ kv : string * option loc, kv.2 = None) d = []) as ->; [|done].
    apply elem_of_nil_inv. intros [k v] H.
    apply list_elem_of_filter in H as [Hv H]. simpl in Hv.
    by apply field_list_values in H. }
  assert (read_dict (heap st2) (length (heap st)) = Ok []) as Hdd.
  { unfold read_dict. rewrite Hheap. cbn [heap st1].
    rewrite <- app_assoc. by rewrite lookup_app_r, Nat.sub_diag by lia. }
  eexists _, st2, _. split; [|split; [|split; [reflexivity|split]]].
  - unfold DatatableMetaclass_new. rewrite (bind_step _ _ _ _ _ Hdecl).
    cbn zeta. fold opts.
    rewrite (bind_step _ _ st0 (length (heap st0)) st1)
      by (unfold alloc, st0, st1; cbn [heap column_creation_counter];
          by rewrite <- app_assoc).
    rewrite Hmodel, Hcols, Hexcl.
    apply bind_ok. exists cl, st2. split.
    2:{ rewrite (bind_step _ _ st2 [] st2) by (unfold get_dict; by rewrite Hdd).
        rewrite (bind_step _ _ st2 d st2) by (unfold get_dict; by rewrite Hread).
        reflexivity. }
    rewrite (bind_step _ _ _ _ _ Hc).
    rewrite (bind_step _ _ st2 d st2) by (unfold get_dict; by rewrite Hread).
    rewrite (bind_step _ _ st2 [] st2) by (unfold get_dict; by rewrite Hdd).
    cbn zeta. rewrite Hnone. unfold missing_columns.
    rewrite decide_True by (apply difference_diag_L).
    cbn [foldM]. rewrite (bind_step _ _ st2 tt st2) by done.
    rewrite (bind_step _ _ st2 d st2) by (unfold get_dict; by rewrite Hread).
    rewrite (bind_step _ _ st2 [] st2) by (unfold get_dict; by rewrite Hdd).
    unfold od_update. cbn [foldl]. unfold mbind, M_bind, store, mret, M_ret.
    do 2 f_equal. destruct st2 as [h2 n2]. cbn [heap column_creation_counter] in *.
    f_equal. apply list_insert_id. unfold read_dict in Hread.
    destruct (h2 !! cl) as [[c|d'|]|] eqn:E; try done. by injection Hread as ->.
  - cbn [base_columns]. unfold column_items. rewrite Hread. cbn [mbind result_bind].
    unfold d. rewrite (column_items_derived _ _ _ (column_creation_counter st)).
    + done.
    + intros k f Hk. unfold read_column. rewrite Hheap.
      rewrite lookup_app_r by lia.
      replace (length (heap st1) + k - length (heap st1))%nat with k by lia.
      rewrite lookup_app_l.
      2:{ unfold derived_columns. rewrite length_imap. by apply lookup_lt_Some in Hk. }
      unfold derived_columns. rewrite list_lookup_imap, Hk. done.
  - by rewrite length_imap.
  - intros Hsorted. unfold in_order. rewrite sorted_in_order by done.
    unfold field_names. apply list_eq. intros i.
    rewrite !list_lookup_fmap, list_lookup_imap. by destruct (_ !! i).
Qed.

(** The base class [Datatable] itself: no [Meta], no columns. *)
Definition Datatable_class : TableClass :=
  {| class_name := "Datatable"; class_Meta := None;
     _meta := 1%nat;
     declared_columns := 0%nat; base_columns := 0%nat;
     class_attrs := class_members [] (class_body [] None) [] [] |}.

Definition Datatable_store : pystate :=
  {| heap := [ODict []; OOptions (DatatableOptions_init None)];
     column_creation_counter := 0 |}.

Example Datatable_class_created :
  DatatableMetaclass_new "Datatable" [] (class_body [] None) empty_store
  = Ok (Datatable_class, Datatable_store).
Proof. reflexivity. Qed.

Lemma model_fields_become_columns_witness :
  ∃ cls st' items,
    DatatableMetaclass_new "AbcTable" [as_base Datatable_class]
      (class_body [] (Some (sample_Meta abc_model None None))) Datatable_store
    = Ok (cls, st') ∧
    column_items (heap st') (base_columns cls) = Ok items ∧
    length items = 3%nat ∧
    items.*1 = ["a"; "b"; "c"].
Proof.
  destruct (model_fields_become_columns "AbcTable" [as_base Datatable_class]
              (class_body [] (Some (sample_Meta abc_model None None)))
              Datatable_store abc_model)
    as (cls & st' & items & Hnew & Hitems & _ & Hlen & Hnames).
  - reflexivity.
  - reflexivity.
  - reflexivity.
  - reflexivity.
  - intros base d Hbase Hd. apply list_elem_of_singleton in Hbase as ->.
    injection Hd as <-. by exists [].
  - reflexivity.
  - reflexivity.
  - apply (bool_decide_unpack _). by vm_compute.
  - exists cls, st', items. repeat split; [done|done|done|].
    apply Hnames. repeat constructor; simpl; lia.
Defined.

Example abc_columns :
  match DatatableMetaclass_new "AbcTable" [as_base Datatable_class]
          (class_body [] (Some (sample_Meta abc_model None None))) Datatable_store with
  | Ok (cls, st) =>
      column_items (heap st) (base_columns cls)
      = Ok [ ("a", Some {| col_class := TextColumn; col_name := Some "a";
                           col_sources := ["a"]; col_label := Some "A";
                           col_processor := None; col_creation_counter := 0 |});
             ("b", Some {| col_class := IntegerColumn; col_name := Some "b";
                           col_sources := ["b"]; col_label := Some "B";
                           col_processor := None; col_creation_counter := 1 |});
             ("c", Some {| col_class := DateColumn; col_name := Some "c";
                           col_sources := ["c"]; col_label := Some "C";
                           col_processor := None; col_creation_counter := 2 |}) ]
  | Raise _ => False
  end.
Proof. vm_compute. reflexivity. Qed.

(** *** Declared columns win *)

Lemma od_set_elem {V} (d : list (string * V)) k v k' v' :
  (k', v') ∈ od_set d k v → (k', v') = (k, v) ∨ (k', v') ∈ d.
Proof.
  induction d as [|[k0 v0] d IH]; simpl.
  - intros H. apply list_elem_of_singleton in H. by left.
  - destruct (decide (k0 = k)).
    + rewrite !elem_of_cons. tauto.
    + rewrite !elem_of_cons. intros [H|H]; [tauto|]. apply IH in H. tauto.
Qed.

Lemma od_update_elem {V} (d items : list (string * V)) k v :
  (k, v) ∈ od_update d items → (k, v) ∈ d ∨ (k, v) ∈ items.
Proof.
  unfold od_update. revert d. induction items as [|[k0 v0] items IH]; intros d; simpl.
  - by left.
  - intros H. apply IH in H as [H|H].
    + apply od_set_elem in H as [H|H]; [right; rewrite H; left|by left].
    + right. by right.
Qed.

(** Every column [columns_for_model] puts in its dictionary is an object it
    has just created. *)
Lemma model_columns_new base model fields exclude n l :
  (n, Some l) ∈ model_columns base model fields exclude → (base ≤ l)%nat.
Proof.
  assert (∀ sel n l, (n, Some l) ∈ OrderedDict (field_list_of base sel) → (base ≤ l)%nat)
    as Hfield.
  { intros sel n' l' H. apply od_update_elem in H as [H|H]; [by apply elem_of_nil in H|].
    unfold field_list_of in H. apply list_elem_of_lookup in H as [i H].
    rewrite list_lookup_imap in H. destruct (sel !! i); [|done].
    injection H as _ <-. lia. }
  unfold model_columns. intros H.
  destruct fields as [[|f0 fs]|]; [by eapply Hfield| |by eapply Hfield].
  apply od_update_elem in H as [H|H]; [by apply elem_of_nil in H|].
  apply list_elem_of_fmap in H as (f & Hf & _). injection Hf as -> Hl.
  destruct (od_get _ f) as [v|] eqn:E; [|done]. simpl in Hl. subst v.
  apply od_get_elem in E. by eapply Hfield.
Qed.

Lemma foldM_invariant {A B} (R : pystate → pystate → Prop) (f : B → A → M B)
    (l : list A) :
  (∀ s, R s s) → (∀ s1 s2 s3, R s1 s2 → R s2 s3 → R s1 s3) →
  (∀ b a s r s', f b a s = Ok (r, s') → R s s') →
  ∀ b s r s', foldM f b l s = Ok (r, s') → R s s'.
Proof.
  intros Hrefl Htrans Hf. induction l as [|x l IH]; intros b s r s' H; simpl in H.
  - inversion H. apply Hrefl.
  - apply bind_ok in H as (b' & s1 & H1 & H2). eauto.
Qed.

(** Dictionaries and options objects stay as they are. *)
Definition dicts_kept (s s' : pystate) : Prop :=
  length (heap s') = length (heap s) ∧
  (∀ l d, read_dict (heap s) l = Ok d → read_dict (heap s') l = Ok d) ∧
  (∀ l o, read_options (heap s) l = Ok o → read_options (heap s') l = Ok o).

Lemma set_column_dicts_kept l f s u s' :
  set_column l f s = Ok (u, s') → dicts_kept s s'.
Proof.
  unfold set_column. intros H. apply bind_ok in H as (c & s1 & Hc & H).
  unfold get_column in Hc. destruct (read_column (heap s) l) as [c'|] eqn:E; [|done].
  injection Hc as -> <-. unfold store in H. injection H as _ <-.
  split; cbn [heap]; [by rewrite length_insert|]. unfold read_column in E. split.
  - intros l' d Hd. unfold read_dict in *.
    destruct (decide (l = l')) as [->|Hne].
    + destruct (heap s !! l') as [[| |]|]; done.
    + by rewrite list_lookup_insert_ne.
  - intros l' o Ho. unfold read_options in *.
    destruct (decide (l = l')) as [->|Hne].
    + destruct (heap s !! l') as [[| |]|]; done.
    + by rewrite list_lookup_insert_ne.
Qed.

Lemma dicts_kept_refl s : dicts_kept s s.
Proof. by repeat split. Qed.

Lemma dicts_kept_trans s1 s2 s3 : dicts_kept s1 s2 → dicts_kept s2 s3 → dicts_kept s1 s3.
Proof.
  intros (H1 & H2 & H3) (H4 & H5 & H6). split; [congruence|]. split; eauto.
Qed.

Lemma declared_column_step_dicts_kept model item s u s' :
  declared_column_step model item s = Ok (u, s') → dicts_kept s s'.
Proof.
  unfold declared_column_step. destruct item as [n [l|]]; [|done]. intros H.
  apply bind_ok in H as (u1 & s1 & H1 & H). apply set_column_dicts_kept in H1.
  apply bind_ok in H as (c1 & s2 & H2 & H).
  unfold get_column in H2. destruct (read_column _ _); [|done]. injection H2 as -> <-.
  apply bind_ok in H as (u2 & s3 & H3 & H).
  assert (dicts_kept s1 s3) as H13.
  { destruct (bool_decide _).
    - by apply set_column_dicts_kept in H3.
    - injection H3 as _ ->. apply dicts_kept_refl. }
  apply bind_ok in H as (c2 & s4 & H4 & H).
  unfold get_column in H4. destruct (read_column _ _); [|done]. injection H4 as -> <-.
  assert (dicts_kept s3 s') as H3'.
  { destruct (falsy_str _).
    - apply bind_ok in H as (fld & s5 & H5 & H). unfold lift in H5.
      destruct (get_field_by_name _ _); [|done]. injection H5 as -> <-.
      by apply set_column_dicts_kept in H.
    - injection H as _ ->. apply dicts_kept_refl. }
  eauto using dicts_kept_trans.
Qed.

(** The steps of a class creation that returns, for options with a model. *)
Lemma DatatableMetaclass_new_model name bases attrs st cls st' model :
  let opts := DatatableOptions_init (getattr_Meta bases attrs) in
  DatatableMetaclass_new name bases attrs st = Ok (cls, st') →
  opt_model opts = Some model →
  ∃ dd st0 st1 st2 st4,
    let auto :=
      model_columns (length (heap st1)) model (opt_columns opts) (opt_exclude opts) in
    declared_columns cls = length (heap st) ∧
    _meta cls = S (length (heap st)) ∧
    heap st0 = heap st ++ [ODict dd] ∧
    heap st1 = heap st ++ [ODict dd; OOptions opts] ∧
    NoDup (od_keys dd) ∧
    get_declared_columns bases attrs false st = Ok (declared_columns cls, st0) ∧
    alloc (OOptions opts) st0 = Ok (_meta cls, st1) ∧
    columns_for_model model (opt_columns opts) (opt_exclude opts) st1
    = Ok (base_columns cls, st2) ∧
    (∃ more, heap st2 = heap st1 ++ more) ∧
    (length (heap st1) ≤ base_columns cls < length (heap st2))%nat ∧
    read_dict (heap st2) (base_columns cls) = Ok auto ∧
    foldM (λ _ item, declared_column_step model item) tt dd st2 = Ok (tt, st4) ∧
    dicts_kept st2 st4 ∧
    heap st' = <[base_columns cls := ODict (od_update auto dd)]> (heap st4) ∧
    read_dict (heap st') (declared_columns cls) = Ok dd ∧
    read_dict (heap st') (base_columns cls) = Ok (od_update auto dd) ∧
    read_options (heap st') (_meta cls) = Ok opts.
Proof.
  intros opts Hnew Hmodel. unfold DatatableMetaclass_new in Hnew.
  apply bind_ok in Hnew as (dl & st0 & Hdecl & Hnew).
  destruct (get_declared_columns_inv _ _ _ _ _ _ Hdecl) as (dd & -> & Hh0 & _ & Hnodup).
  cbn zeta in Hnew. fold opts in Hnew.
  apply bind_ok in Hnew as (ml & st1 & Halloc & Hnew).
  assert (ml = S (length (heap st)) ∧ heap st1 = heap st ++ [ODict dd; OOptions opts])
    as [-> Hh1].
  { unfold alloc in Halloc. injection Halloc as <- <-. cbn [heap].
    rewrite Hh0, length_app, <- app_assoc. split; [simpl; lia|done]. }
  apply bind_ok in Hnew as (cols & st3 & Hcols & Hret).
  apply bind_ok in Hret as (declared' & s & Hdeclared' & Hret).
  unfold get_dict in Hdeclared'.
  destruct (read_dict (heap st3) (length (heap st))) as [declared0|]; [|done].
  injection Hdeclared' as <- <-.
  apply bind_ok in Hret as (assembled' & s & Hassembled' & Hret).
  unfold get_dict in Hassembled'.
  destruct (read_dict (heap st3) cols) as [assembled0|]; [|done].
  injection Hassembled' as <- <-.
  injection Hret as <- <-. cbn [_meta declared_columns base_columns] in *.
  rewrite Hmodel in Hcols.
  apply bind_ok in Hcols as (cl & st2 & Hc & Hcols).
  destruct (forallb mapped (selected_fields model (opt_columns opts) (opt_exclude opts)))
    eqn:Hmapped.
  2:{ by rewrite columns_for_model_unmapped in Hc. }
  destruct (columns_for_model_mapped model (opt_columns opts) (opt_exclude opts) st1 Hmapped)
    as (cl' & st2' & more & Hc' & Hheap & Hfresh & Hread & _).
  rewrite Hc in Hc'. injection Hc' as <- <-.
  set (d := model_columns (length (heap st1)) model (opt_columns opts) (opt_exclude opts))
    in *.
  assert (read_dict (heap st2) (length (heap st)) = Ok dd) as Hdd.
  { unfold read_dict. rewrite Hheap, Hh1, <- app_assoc.
    by rewrite lookup_app_r, Nat.sub_diag by lia. }
  assert (read_options (heap st2) (S (length (heap st))) = Ok opts) as Hopts.
  { unfold read_options. rewrite Hheap, Hh1, <- app_assoc.
    rewrite lookup_app_r by lia.
    by replace (S (length (heap st)) - length (heap st))%nat with 1%nat by lia. }
  apply bind_ok in Hcols as (d0 & s & Hd0 & Hcols).
  unfold get_dict in Hd0. rewrite Hread in Hd0. injection Hd0 as <- <-.
  apply bind_ok in Hcols as (dd0 & s & Hdd0 & Hcols).
  unfold get_dict in Hdd0. rewrite Hdd in Hdd0. injection Hdd0 as <- <-.
  cbn zeta in Hcols. destruct (decide (_ = ∅)); [|done].
  apply bind_ok in Hcols as ([] & st4 & Hloop & Hcols).
  pose proof Hloop as Hkept.
  apply (foldM_invariant dicts_kept) in Hkept;
    [|apply dicts_kept_refl|apply dicts_kept_trans|].
  2:{ intros b a s r s' H. by apply declared_column_step_dicts_kept in H. }
  destruct Hkept as (Hlen & Hdicts & Hoptions).
  apply bind_ok in Hcols as (d0 & s & Hd0 & Hcols).
  unfold get_dict in Hd0. rewrite (Hdicts _ _ Hread) in Hd0. injection Hd0 as <- <-.
  apply bind_ok in Hcols as (dd0 & s & Hdd0 & Hcols).
  unfold get_dict in Hdd0. rewrite (Hdicts _ _ Hdd) in Hdd0. injection Hdd0 as <- <-.
  apply bind_ok in Hcols as (u' & s & Hstore & Hcols).
  injection Hcols as <- <-. unfold store in Hstore. injection Hstore as _ <-.
  cbn [heap].
  assert (length (heap st1) = S (S (length (heap st)))) as Hlen1.
  { rewrite Hh1, length_app. simpl. lia. }
  assert (cl < length (heap st2))%nat as Hcl.
  { unfold read_dict in Hread.
    destruct (heap st2 !! cl) eqn:E; [|done]. by apply lookup_lt_Some in E. }
  exists dd, st0, st1, st2, st4. cbn zeta. fold d.
  split; [done|]. split; [done|]. split; [done|]. split; [done|]. split; [done|].
  split; [done|]. split; [done|]. split; [done|]. split; [eauto|]. split; [done|].
  split; [done|]. split; [done|]. split; [done|]. split; [done|].
  split; [|split].
  - unfold read_dict. rewrite list_lookup_insert_ne by lia. by apply Hdicts in Hdd.
  - unfold read_dict. rewrite list_lookup_insert_eq by lia. done.
  - unfold read_options. rewrite list_lookup_insert_ne by lia. by apply Hoptions in Hopts.
Qed.

(** The options object of a new class is the one built from the [Meta]
    found; it is the second object the creation adds to the store. *)
Lemma DatatableMetaclass_new_options name bases attrs st cls st' :
  DatatableMetaclass_new name bases attrs st = Ok (cls, st') →
  read_options (heap st') (_meta cls)
  = Ok (DatatableOptions_init (getattr_Meta bases attrs)) ∧
  declared_columns cls = length (heap st) ∧
  _meta cls = S (length (heap st)).
Proof.
  intros Hnew.
  destruct (opt_model (DatatableOptions_init (getattr_Meta bases attrs))) as [model|]
    eqn:Hmodel.
  - destruct (DatatableMetaclass_new_model _ _ _ _ _ _ _ Hnew Hmodel)
      as (dd & st0 & st1 & st2 & st4 & Hdl & Hml & H).
    cbn zeta in H. by repeat split; [apply H|..].
  - unfold DatatableMetaclass_new in Hnew.
    apply bind_ok in Hnew as (dl & st0 & Hdecl & Hnew).
    destruct (get_declared_columns_inv _ _ _ _ _ _ Hdecl) as (dd & -> & Hh0 & _).
    cbn zeta in Hnew. apply bind_ok in Hnew as (ml & st1 & Halloc & Hnew).
    unfold alloc in Halloc. injection Halloc as <- <-.
    rewrite Hmodel in Hnew.
    apply bind_ok in Hnew as (cols & s & Hcols & Hnew). injection Hcols as <- <-.
    apply bind_ok in Hnew as (declared0 & s & Hd0 & Hnew). unfold get_dict in Hd0.
    destruct (read_dict _ _) as [x0|] in Hd0; [|done]. injection Hd0 as <- <-.
    apply bind_ok in Hnew as (assembled0 & s & Hd0 & Hnew). unfold get_dict in Hd0.
    destruct (read_dict _ _) as [x1|] in Hd0; [|done]. injection Hd0 as <- <-.
    injection Hnew as <- <-.
    cbn [_meta declared_columns heap]. rewrite Hh0, length_app. simpl.
    split; [|split; [done|lia]].
    unfold read_options. rewrite lookup_app_r by (rewrite length_app; simpl; lia).
    by rewrite length_app, Nat.sub_diag.
Qed.

(** C8. For every class created with a configured model, the assembled
    mapping holds under each declared name the very object the declared
    mapping holds, which is not the object derived from the model field of
    that name; a name without a declaration holds what [columns_for_model]
    derived. *)
Theorem declared_column_overrides_model_field (name : string) (bases : list BaseClass)
    (attrs : ClassAttrs) (st : pystate) (cls : TableClass) (st' : pystate)
    (opts : DatatableOptions) (model : Model) :
  DatatableMetaclass_new name bases attrs st = Ok (cls, st') →
  read_options (heap st') (_meta cls) = Ok opts →
  opt_model opts = Some model →
  ∃ declared auto assembled st0 st1 st2 cl,
    get_declared_columns bases attrs false st = Ok (declared_columns cls, st0) ∧
    alloc (OOptions opts) st0 = Ok (_meta cls, st1) ∧
    columns_for_model model (opt_columns opts) (opt_exclude opts) st1
      = Ok (cl, st2) ∧
    read_dict (heap st2) cl = Ok auto ∧
    read_dict (heap st') (declared_columns cls) = Ok declared ∧
    read_dict (heap st') (base_columns cls) = Ok assembled ∧
    (∀ n v, od_get declared n = Some v → od_get assembled n = Some v) ∧
    (∀ n, n ∉ od_keys declared → od_get assembled n = od_get auto n) ∧
    (∀ n l l', od_get declared n = Some (Some l) → (l < length (heap st))%nat →
               od_get auto n = Some (Some l') → l ≠ l').
Proof.
  intros Hnew Hopts Hmodel.
  destruct (DatatableMetaclass_new_options _ _ _ _ _ _ Hnew) as (Hopts' & _).
  rewrite Hopts in Hopts'. injection Hopts' as ->.
  destruct (DatatableMetaclass_new_model _ _ _ _ _ _ _ Hnew Hmodel)
    as (dd & st0 & st1 & st2 & st4 & _ & _ & _ & Hh1 & Hnodup & Hdecl & Halloc & Hc & _
        & _ & Hread & _ & _ & _ & Hdd & Hasm & _).
  cbn zeta in *.
  set (d := model_columns (length (heap st1)) model
              (opt_columns (DatatableOptions_init (getattr_Meta bases attrs)))
              (opt_exclude (DatatableOptions_init (getattr_Meta bases attrs)))) in *.
  exists dd, d, (od_update d dd), st0, st1, st2, (base_columns cls).
  split; [done|]. split; [done|]. split; [done|]. split; [done|]. split; [done|].
  split; [done|]. split; [|split].
  - intros n v Hv. rewrite od_get_update, od_get_reverse_NoDup by done. by rewrite Hv.
  - intros n Hn. rewrite od_get_update, od_get_reverse_NoDup by done.
    apply od_get_None in Hn. by rewrite Hn.
  - intros n l l' _ Hl Hl' ->. apply od_get_elem, model_columns_new in Hl'.
    rewrite Hh1, length_app in Hl'. simpl in Hl'. lia.
Qed.

(** A table over the sample model that declares its own column [b]. *)
Definition declared_b : Column :=
  {| col_class := Column_; col_name := None; col_sources := [];
     col_label := Some "Custom B"; col_processor := Some (PName "render_b");
     col_creation_counter := 0 |}.

Definition store_with_b : pystate :=
  {| heap := heap Datatable_store ++ [OColumn declared_b];
     column_creation_counter := 1 |}.

Definition b_body : ClassAttrs :=
  class_body [("b", 2%nat)] (Some (sample_Meta abc_model None None)).

Definition b_class : TableClass :=
  Eval vm_compute in
    match DatatableMetaclass_new "BTable" [as_base Datatable_class] b_body store_with_b with
    | Ok (cls, _) => cls
    | Raise _ => Datatable_class
    end.

Definition b_store : pystate :=
  Eval vm_compute in
    match DatatableMetaclass_new "BTable" [as_base Datatable_class] b_body store_with_b with
    | Ok (_, st) => st
    | Raise _ => store_with_b
    end.

Lemma b_class_created :
  DatatableMetaclass_new "BTable" [as_base Datatable_class] b_body store_with_b
  = Ok (b_class, b_store).
Proof. vm_compute. reflexivity. Qed.

Lemma declared_column_overrides_model_field_witness :
  ∃ assembled,
    read_dict (heap b_store) (base_columns b_class) = Ok assembled ∧
    od_get assembled "b" = Some (Some 2%nat).
Proof.
  destruct (declared_column_overrides_model_field "BTable" [as_base Datatable_class]
              b_body store_with_b b_class b_store
              (DatatableOptions_init (Some (sample_Meta abc_model None None)))
              abc_model b_class_created eq_refl eq_refl)
    as (declared & auto & assembled & st0 & st1 & st2 & cl & _ & _ & _ & _ & Hd & Ha
        & Hwin & _).
  exists assembled. split; [done|]. apply Hwin.
  vm_compute in Hd. injection Hd as <-. reflexivity.
Defined.

Example b_columns :
  column_items (heap b_store) (base_columns b_class)
  = Ok [ ("a", Some (derived_column (sample_field "a" [CharField] 1) 1));
         ("b", Some {| col_class := Column_; col_name := Some "b";
                       col_sources := ["b"]; col_label := Some "Custom B";
                       col_processor := Some (PName "render_b");
                       col_creation_counter := 0 |});
         ("c", Some (derived_column (sample_field "c" [DateField] 3) 3)) ].
Proof. vm_compute. reflexivity. Qed.

(** ** Instances copy the class's columns *)

(** Every reference in the dictionary at [d] is to a column of the store. *)
Definition columns_present (h : list obj) (items : list (string * option loc)) : Prop :=
  ∀ k l, (k, Some l) ∈ items → ∃ c, read_column h l = Ok c.

(** [out] is a copy of [item]: the same name, and under it a new object (at
    or after [base]) with the contents of the old one. *)
Definition copy_of (h0 h' : list obj) (base : nat)
    (item out : string * option loc) : Prop :=
  item.1 = out.1 ∧
  match item.2, out.2 with
  | None, None => True
  | Some l, Some l' =>
      (base ≤ l' < length h')%nat ∧
      ∃ c, read_column h0 l = Ok c ∧ read_column h' l' = Ok c
  | _, _ => False
  end.

Lemma read_column_app h more l c :
  read_column h l = Ok c → read_column (h ++ more) l = Ok c.
Proof.
  unfold read_column. intros H. destruct (h !! l) as [o|] eqn:E; [|done].
  by rewrite (lookup_app_l_Some _ _ _ _ E).
Qed.

Lemma copy_of_app h0 h' more base item out :
  copy_of h0 h' base item out → copy_of h0 (h' ++ more) base item out.
Proof.
  unfold copy_of. intros [Hk Hv]. split; [done|].
  destruct item.2 as [l|], out.2 as [l'|]; try done.
  destruct Hv as [Hr (c & H0 & H')]. split; [rewrite length_app; lia|].
  exists c. split; [done|]. by apply read_column_app.
Qed.

(** The state of the copy loop: the store has grown by column objects only,
    the memo sends old objects to their copies, and [out] copies [done_]. *)
Definition copying (h0 : list obj) (n : nat) (done_ : list (string * option loc))
    (acc : gmap nat loc * list (string * option loc)) (st : pystate) : Prop :=
  (∃ more, heap st = h0 ++ more ∧ ∀ o, o ∈ more → ∃ c, o = OColumn c) ∧
  column_creation_counter st = n ∧
  (∀ l l', acc.1 !! l = Some l' →
           (length h0 ≤ l' < length (heap st))%nat ∧
           ∃ c, read_column h0 l = Ok c ∧ read_column (heap st) l' = Ok c) ∧
  Forall2 (copy_of h0 (heap st) (length h0)) done_ acc.2.

Lemma deepcopy_step_copying h0 n done_ acc st item :
  copying h0 n done_ acc st →
  (∀ l, item.2 = Some l → ∃ c, read_column h0 l = Ok c) →
  ∃ acc' st', deepcopy_step acc item st = Ok (acc', st') ∧
              copying h0 n (done_ ++ [item]) acc' st'.
Proof.
  destruct acc as [memo out], item as [k v].
  intros ((more & Hh & Hmore) & Hn & Hmemo & Hout) Hitem. cbn [fst snd] in *.
  unfold deepcopy_step. cbn [fst snd]. destruct v as [l|].
  - destruct (memo !! l) as [l'|] eqn:El.
    + eexists _, _. split; [reflexivity|]. split; [eauto|]. split; [done|].
      split; [done|]. cbn [snd].
      apply Forall2_app; [done|]. constructor; [|constructor].
      split; [done|]. by apply Hmemo.
    + destruct (Hitem l eq_refl) as [c Hc].
      assert (read_column (heap st) l = Ok c) as Hc'.
      { rewrite Hh. by apply read_column_app. }
      eexists _, _. split.
      { apply bind_ok. exists c, st. split; [unfold get_column; by rewrite Hc'|].
        apply bind_ok. eexists _, _. split; reflexivity. }
      assert (read_column (heap st ++ [OColumn c]) (length (heap st)) = Ok c) as Hnew.
      { unfold read_column. by rewrite lookup_snoc. }
      split; [|split; [done|split]]; cbn [heap fst snd].
      * exists (more ++ [OColumn c]). split; [by rewrite Hh, app_assoc|].
        intros o Ho. apply elem_of_app in Ho as [Ho|Ho]; [eauto|].
        apply list_elem_of_singleton in Ho. eauto.
      * intros l1 l1' H1. rewrite length_app. simpl.
        destruct (decide (l = l1)) as [->|Hne].
        -- rewrite lookup_insert_eq in H1. injection H1 as <-.
           split; [rewrite Hh, length_app; lia|]. eauto.
        -- rewrite lookup_insert_ne in H1 by done.
           destruct (Hmemo _ _ H1) as [Hr (c1 & H0 & H')].
           split; [lia|]. exists c1. split; [done|]. by apply read_column_app.
      * apply Forall2_app.
        -- eapply Forall2_impl; [exact Hout|]. intros. by apply copy_of_app.
        -- constructor; [|constructor]. split; [done|]. cbn [fst snd].
           split; [rewrite length_app, Hh, length_app; simpl; lia|]. eauto.
  - eexists _, _. split; [reflexivity|]. split; [eauto|]. split; [done|].
    split; [done|]. cbn [snd].
    apply Forall2_app; [done|]. constructor; [|constructor]. by split.
Qed.

Lemma deepcopy_loop h0 n (items : list (string * option loc)) :
  columns_present h0 items →
  ∀ done_ acc st,
    copying h0 n done_ acc st →
    ∃ acc' st', foldM deepcopy_step acc items st = Ok (acc', st') ∧
                copying h0 n (done_ ++ items) acc' st'.
Proof.
  induction items as [|item items IH]; intros Hwf done_ acc st Hinv.
  { exists acc, st. by rewrite app_nil_r. }
  destruct (deepcopy_step_copying h0 n done_ acc st item Hinv)
    as (acc1 & st1 & Hstep & Hinv1).
  { intros l Hl. destruct item as [k v]. simpl in Hl. subst v.
    apply (Hwf k l). left. }
  destruct (IH (λ k l H, Hwf k l (proj2 (elem_of_cons _ _ _) (or_intror H)))
               _ _ _ Hinv1) as (acc' & st' & Hfold & Hinv').
  exists acc', st'. split.
  - cbn [foldM]. by rewrite (bind_step _ _ _ _ _ Hstep).
  - by rewrite <- app_assoc in Hinv'.
Qed.

Lemma read_items_copy h0 h' base (items out : list (string * option loc)) :
  Forall2 (copy_of h0 h' base) items out →
  ∀ acc, foldR (read_item h') acc out = foldR (read_item h0) acc items.
Proof.
  induction 1 as [|[k v] [k' v'] items out [Hk Hv] _ IH]; intros acc; [done|].
  cbn [fst snd] in *. subst k'. cbn [foldR].
  destruct v as [l|], v' as [l'|]; try done.
  - destruct Hv as [_ (c & H0 & H')].
    rewrite (read_item_column _ _ _ _ _ H0), (read_item_column _ _ _ _ _ H').
    cbn [mbind result_bind]. apply IH.
  - unfold read_item at 1 3. cbn [fst snd mbind result_bind]. apply IH.
Qed.

(** The cells an ordered dictionary of columns occupies: its own and those of
    the columns it refers to. *)
Definition reach (h : list obj) (d : loc) : list loc :=
  d :: omap snd (dict_at h d).

Lemma deepcopy_allocated d st items :
  read_dict (heap st) d = Ok items →
  columns_present (heap st) items →
  ∃ l st' more,
    deepcopy d st = Ok (l, st') ∧
    heap st' = heap st ++ more ∧
    column_creation_counter st' = column_creation_counter st ∧
    column_items (heap st') l = column_items (heap st) d ∧
    (∀ l', l' ∈ reach (heap st') l → (length (heap st) ≤ l' < length (heap st'))%nat).
Proof.
  intros Hd Hwf.
  destruct (deepcopy_loop (heap st) (column_creation_counter st) items Hwf [] (∅, []) st)
    as ([memo out] & st1 & Hfold & (more & Hh & _) & Hn & _ & Hout).
  { split; [exists []; split; [by rewrite app_nil_r|]|].
    - intros o Ho. by apply elem_of_nil in Ho.
    - split; [done|]. split; [|constructor]. intros l l' H. simpl in H.
      by rewrite lookup_empty in H. }
  cbn [fst snd app] in *.
  exists (length (heap st1)), {| heap := heap st1 ++ [ODict out];
                                column_creation_counter := column_creation_counter st1 |},
         (more ++ [ODict out]).
  assert (read_dict (heap st1 ++ [ODict out]) (length (heap st1)) = Ok out) as Hread.
  { unfold read_dict. by rewrite lookup_snoc. }
  split; [|split; [|split; [|split]]]; cbn [heap column_creation_counter].
  - unfold deepcopy. rewrite (bind_step _ _ st items st) by (unfold get_dict; by rewrite Hd).
    by rewrite (bind_step _ _ _ _ _ Hfold).
  - by rewrite Hh, app_assoc.
  - done.
  - unfold column_items. rewrite Hread, Hd. cbn [mbind result_bind].
    apply (read_items_copy _ _ (length (heap st))).
    eapply Forall2_impl; [exact Hout|]. intros. by apply copy_of_app.
  - intros l' Hl'. unfold reach in Hl'. rewrite length_app. simpl.
    apply elem_of_cons in Hl' as [->|Hl'].
    + rewrite Hh, length_app. lia.
    + unfold dict_at in Hl'. rewrite lookup_snoc in Hl'.
      apply list_elem_of_omap in Hl' as ([k v] & Hkv & Hv). simpl in Hv. subst v.
      apply list_elem_of_lookup in Hkv as [i Hi].
      destruct (Forall2_lookup_r _ _ _ _ _ Hout Hi) as ([k0 v0] & _ & _ & Hcopy).
      cbn [snd] in Hcopy. destruct v0; [|done]. lia.
Qed.


Lemma read_options_app h more l o :
  read_options h l = Ok o → read_options (h ++ more) l = Ok o.
Proof.
  unfold read_options. intros H. destruct (h !! l) as [x|] eqn:E; [|done].
  by rewrite (lookup_app_l_Some _ _ _ _ E).
Qed.

Lemma read_options_allocated h l o : read_options h l = Ok o → (l < length h)%nat.
Proof.
  unfold read_options. intros H. destruct (h !! l) eqn:E; [|done].
  by apply lookup_lt_Some in E.
Qed.

(** [deepcopy] only adds objects, whatever the store. *)
Lemma deepcopy_appends d st l st1 :
  deepcopy d st = Ok (l, st1) →
  ∃ more, heap st1 = heap st ++ more ∧
          column_creation_counter st1 = column_creation_counter st.
Proof.
  unfold deepcopy. intros H. apply bind_ok in H as (items & s & Hitems & H).
  unfold get_dict in Hitems. destruct (read_dict _ _); [|done]. injection Hitems as -> <-.
  apply bind_ok in H as (r & s & Hloop & H). unfold alloc in H. injection H as _ <-.
  cbn [heap column_creation_counter].
  assert (∃ more, heap s = heap st ++ more ∧
                  column_creation_counter s = column_creation_counter st)
    as (more & -> & ->).
  { revert Hloop.
    apply (foldM_invariant
             (λ s s', ∃ more, heap s' = heap s ++ more ∧
                              column_creation_counter s' = column_creation_counter s)).
    - intros s0. exists []. by rewrite app_nil_r.
    - intros s1 s2 s3 (m1 & H1 & Hn1) (m2 & H2 & Hn2). exists (m1 ++ m2).
      rewrite H2, H1, app_assoc. split; [done|congruence].
    - intros [memo out] item s0 r' s' Hstep. unfold deepcopy_step in Hstep.
      destruct item.2 as [l0|].
      2:{ injection Hstep as _ <-. exists []. by rewrite app_nil_r. }
      destruct (memo !! l0).
      { injection Hstep as _ <-. exists []. by rewrite app_nil_r. }
      apply bind_ok in Hstep as (c & s3 & Hc & Hstep). unfold get_column in Hc.
      destruct (read_column _ _); [|done]. injection Hc as -> <-.
      apply bind_ok in Hstep as (l' & s4 & Hl' & Hstep). unfold alloc in Hl'.
      injection Hl' as _ <-. injection Hstep as _ <-. by eexists. }
  exists (more ++ [ODict r.2]). by rewrite app_assoc.
Qed.

(** What a construction that returns has done: it has read the class's
    options, copied the class's columns, and configured the new table, which
    wrote the defaults to the class's options. *)
Lemma Datatable_init_Ok normalize_config get_field_definition cls object_list0 url0
    view0 callback_target model0 query_config kwargs st self st' :
  Datatable_init normalize_config get_field_definition cls object_list0 url0 view0
    callback_target model0 query_config kwargs st = Ok (self, st') →
  ∃ opts more st1 d,
    read_options (heap st) (_meta cls) = Ok opts ∧
    deepcopy (base_columns cls) st = Ok (columns self, st1) ∧
    heap st1 = heap st ++ more ∧
    read_dict (heap st1) (columns self) = Ok d ∧
    heap st' = <[_meta cls := OOptions (meta_defaults opts)]> (heap st) ++ more ∧
    column_creation_counter st' = column_creation_counter st ∧
    (object_list self, url self, view self, fallback_callback_target self,
     _records self, self_meta self)
    = (object_list0, url0, view0, callback_target, None, _meta cls) ∧
    model self = match match opt_model opts with Some m => Some m | None => model0 end with
                 | Some m => Some m
                 | None => ol_model object_list0
                 end ∧
    normalize_config opts kwargs query_config (model self) = Ok (config self) ∧
    foldR (flat_column_name get_field_definition) [] (od_keys d)
    = Ok (_flat_column_names self) ∧
    configure_ordering (_flat_column_names self) (cfg_ordering (config self))
    = Ok (ordering self) ∧
    self_attrs self
    = <["unpaged_record_count" := AData VNone]>
        (<["total_initial_record_count" := AData VNone]>
           (<["ordering" := keys_attr (map_to_list (ordering self)).*1]>
              (<["_flat_column_names" := names_attr (_flat_column_names self)]>
                 (<["config" := AData (VOpaque "config")]>
                    (init_attrs cls object_list0 url0 view0 callback_target
                       (model self) (od_keys d)))))).
Proof.
  unfold Datatable_init. intros H.
  apply bind_ok in H as (opts & s & Hopts & H). unfold get_options in Hopts.
  destruct (read_options (heap st) (_meta cls)) as [o|] eqn:Eo; [|done].
  injection Hopts as -> <-.
  apply bind_ok in H as (l & st1 & Hcopy & H).
  destruct (deepcopy_appends _ _ _ _ Hcopy) as (more & Hh1 & Hn1).
  apply bind_ok in H as (d & s & Hd & H). unfold get_dict in Hd.
  destruct (read_dict (heap st1) l) as [d'|] eqn:Ed; [|done]. injection Hd as -> <-.
  apply bind_ok in H as (mc & s & Hmc & H). unfold get_options in Hmc.
  rewrite Hh1, (read_options_app _ _ _ _ Eo) in Hmc. injection Hmc as <- <-.
  apply bind_ok in H as (self1 & st2 & Hconf & H). injection H as <- <-.
  apply configure_Ok in Hconf
    as (cfg & opts' & d0 & flat & ord & Hcfg & Hopts' & Hd0 & _ & Hflat & Hord & Hh2 & Hn2
        & ->).
  cbn [self_meta columns model] in *.
  rewrite Hh1, (read_options_app _ _ _ _ Eo) in Hopts'. injection Hopts' as <-.
  rewrite Ed in Hd0. injection Hd0 as <-.
  exists opts, more, st1, d. cbn.
  split; [done|]. split; [done|]. split; [done|]. split; [done|]. split.
  { rewrite Hh2, Hh1. apply insert_app_l. by eapply read_options_allocated. }
  split; [congruence|]. repeat split; done.
Qed.

(** Any sequence of assignments to cells of the store. *)
Definition mutate (writes : list (loc * obj)) (h : list obj) : list obj :=
  foldl (λ h (w : loc * obj), <[w.1 := w.2]> h) h writes.


Lemma column_items_agree (h h' : list obj) (d : loc) :
  (∀ l, l ∈ reach h d → h' !! l = h !! l) →
  column_items h' d = column_items h d.
Proof.
  intros Hagree. unfold column_items, read_dict.
  rewrite (Hagree d) by left.
  destruct (h !! d) as [[c|items|]|] eqn:Hd; try done.
  cbn [mbind result_bind].
  assert (∀ k l, (k, Some l) ∈ items → read_column h' l = read_column h l) as Hcols.
  { intros k l Hkl. unfold read_column. rewrite Hagree; [done|].
    right. unfold dict_at. rewrite Hd. apply list_elem_of_omap.
    by exists (k, Some l). }
  assert (∀ acc k v, (∀ l, v = Some l → read_column h' l = read_column h l) →
                     read_item h' acc (k, v) = read_item h acc (k, v)) as Hstep.
  { intros acc k v Hv. unfold read_item. cbn [fst snd].
    destruct v as [l|]; [|done]. by rewrite (Hv l). }
  clear Hagree Hd. generalize (@nil (string * option Column)).
  induction items as [|[k v] items IH]; intros acc; [done|].
  cbn [foldR]. rewrite Hstep.
  - destruct (read_item h acc (k, v)); [|done]. cbn [mbind result_bind].
    apply IH. intros k' l' H. apply (Hcols k'). by right.
  - intros l ->. apply (Hcols k). left.
Qed.

Lemma read_dict_app h more d items :
  read_dict h d = Ok items → read_dict (h ++ more) d = Ok items.
Proof.
  unfold read_dict. intros H. destruct (h !! d) as [o|] eqn:E; [|done].
  by rewrite (lookup_app_l_Some _ _ _ _ E).
Qed.


Lemma Datatable_init_copy normalize_config get_field_definition cls object_list url
    view callback_target model query_config kwargs st self st' items :
  read_dict (heap st) (base_columns cls) = Ok items →
  columns_present (heap st) items →
  Datatable_init normalize_config get_field_definition cls object_list url view
    callback_target model query_config kwargs st = Ok (self, st') →
  (∃ opts more,
     read_options (heap st) (_meta cls) = Ok opts ∧
     heap st' = <[_meta cls := OOptions (meta_defaults opts)]> (heap st) ++ more) ∧
  column_creation_counter st' = column_creation_counter st ∧
  column_items (heap st') (columns self) = column_items (heap st) (base_columns cls) ∧
  (∀ l, l ∈ reach (heap st') (columns self) →
        (length (heap st) ≤ l < length (heap st'))%nat).
Proof.
  intros Hd Hwf Hinit.
  destruct (Datatable_init_Ok _ _ _ _ _ _ _ _ _ _ _ _ _ Hinit)
    as (opts & more & st1 & d & Hopts & Hcopy & Hh1 & _ & Hh' & Hn & _).
  destruct (deepcopy_allocated _ _ _ Hd Hwf)
    as (l & st1' & more' & Hcopy' & _ & _ & Hitems & Hfresh).
  rewrite Hcopy in Hcopy'. injection Hcopy' as <- <-.
  pose proof (read_options_allocated _ _ _ Hopts) as Hm.
  assert (heap st' = <[_meta cls := OOptions (meta_defaults opts)]> (heap st1)) as Hh.
  { rewrite Hh', Hh1. symmetry. by apply insert_app_l. }
  assert (∀ l, l ∈ reach (heap st1) (columns self) → heap st' !! l = heap st1 !! l)
    as Hagree.
  { intros l Hl. apply Hfresh in Hl. rewrite Hh. apply list_lookup_insert_ne. lia. }
  split; [eauto|]. split; [done|]. split.
  - rewrite <- Hitems. by apply column_items_agree.
  - intros l Hl.
    assert (l ∈ reach (heap st1) (columns self)) as Hl1.
    { unfold reach, dict_at in *. by rewrite Hagree in Hl by left. }
    apply Hfresh in Hl1. by rewrite Hh, length_insert.
Qed.






(** Stand-ins for the collaborators of [configure]. *)
Definition sample_normalize_config (meta_config : DatatableOptions)
    (view_config query_config : list (string * pyval)) (model : option Model)
    : result Config :=
  Ok {| cfg_ordering := opt_ordering meta_config;
        cfg_page_length := opt_page_length meta_config;
        cfg_start_offset := 0;
        cfg_structure_template := opt_structure_template meta_config |}.

Definition sample_get_field_definition (name : string) : result ColumnInfoTuple :=
  Ok {| info_pretty_name := None; info_fields := [name] |}.

Definition no_rows : ObjectList := {| ol_items := []; ol_model := None |}.

Definition new_b_table : M Datatable :=
  Datatable_init sample_normalize_config sample_get_field_definition b_class
    no_rows "/" None None None [] [].

(** Two instances of the sample table, one after the other. *)
Definition first_table : Datatable :=
  Eval vm_compute in
    match new_b_table b_store with Ok (t, _) => t | Raise _ => sample_table ∅ None end.

Definition first_store : pystate :=
  Eval vm_compute in
    match new_b_table b_store with Ok (_, st) => st | Raise _ => b_store end.

Definition second_table : Datatable :=
  Eval vm_compute in
    match new_b_table first_store with Ok (t, _) => t | Raise _ => sample_table ∅ None end.

Definition second_store : pystate :=
  Eval vm_compute in
    match new_b_table first_store with Ok (_, st) => st | Raise _ => b_store end.

Lemma first_table_created : new_b_table b_store = Ok (first_table, first_store).
Proof. vm_compute. reflexivity. Qed.


(** Relabel the first instance's column [b] and drop its column [a]. *)
Definition relabel_b : list (loc * obj) :=
  [ (10%nat, OColumn (with_label "Changed" declared_b));
    (columns first_table, ODict [("b", Some 10%nat)]) ].


Example relabel_b_is_local :
  column_items (mutate relabel_b (heap second_store)) (columns first_table)
    = Ok [("b", Some (with_label "Changed" declared_b))] ∧
  od_keys <$> column_items (mutate relabel_b (heap second_store)) (columns second_table)
    = Ok ["a"; "b"; "c"] ∧
  od_keys <$> column_items (mutate relabel_b (heap second_store)) (base_columns b_class)
    = Ok ["a"; "b"; "c"] ∧
  column_items (heap first_store) (columns first_table)
    = column_items (heap b_store) (base_columns b_class).
Proof. vm_compute. repeat split; reflexivity. Qed.


(** * Further properties of the module *)

(** ** [pretty_name] *)

Lemma capitalize_idemp (c : ascii) : capitalize (capitalize c) = capitalize c.
Proof. destruct c as [[] [] [] [] [] [] [] []]; reflexivity. Qed.

(** X1. On a name of ASCII characters, [pretty_name] changes the first
    character only, to its capital: a first letter [a]-[z] becomes the upper
    case letter 32 positions before it, any other first character is kept;
    the length and everything after the first character are kept, the empty
    name stays empty, and a second application changes nothing. *)
Theorem pretty_name_first_character (name : string) :
  pretty_name (pretty_name name) = pretty_name name ∧
  String.length (pretty_name name) = String.length name ∧
  tail (pretty_name name) = tail name ∧
  (pretty_name name = "" ↔ name = "") ∧
  (∀ c rest, name = String c rest → is_lower c = false → pretty_name name = name) ∧
  (∀ c rest, name = String c rest → is_lower c = true →
     ∃ C, pretty_name name = String C rest ∧ is_upper C = true ∧ C ≠ c ∧
          N_of_ascii C = (N_of_ascii c - 32)%N).
Proof.
  destruct name as [|c rest]; simpl.
  - repeat split; done.
  - rewrite capitalize_idemp. repeat split; try done.
    + intros c' rest' [= -> ->] Hc. unfold capitalize. by rewrite Hc.
    + intros c' rest' [= -> ->] Hc. unfold capitalize. rewrite Hc.
      exists (ascii_of_N (N_of_ascii c' - 32)).
      unfold is_lower in Hc. unfold is_upper. cbn zeta in *.
      apply andb_prop in Hc as [Hlo Hhi].
      apply N.leb_le in Hlo, Hhi.
      assert (N_of_ascii (ascii_of_N (N_of_ascii c' - 32)) = (N_of_ascii c' - 32)%N)
        as Hn by (apply N_ascii_embedding; lia).
      rewrite Hn. split; [done|]. split.
      { apply andb_true_intro. split; apply N.leb_le; lia. }
      split; [|done]. intros E. rewrite E in Hn. lia.
Qed.

Example pretty_name_region : pretty_name "region type" = "Region type".
Proof. reflexivity. Qed.

(** ** [get_column_index] *)

(** X2. For a name that does not start with ['!'], [get_column_index] never
    raises: it returns -1 exactly when the name is not a flat column name,
    and otherwise the position of its first occurrence, which is within
    bounds. *)
Theorem get_column_index_first_position (flat : list (option string)) (name : string) :
  startswith "!" name = false →
  ∃ i, get_column_index flat name = Ok i ∧
       ((i = -1 ∧ Some name ∉ flat) ∨
        (0 ≤ i < Z.of_nat (length flat) ∧
         flat !! Z.to_nat i = Some (Some name) ∧
         ∀ k : nat, (k < Z.to_nat i)%nat → flat !! k ≠ Some (Some name))).
Proof.
  intros Hbang. unfold get_column_index. rewrite Hbang.
  destruct (decide (Some name ∈ flat)) as [Hin|Hin].
  - destruct (index_of_found _ _ Hin) as (i & -> & Hi & Hl & Hfirst).
    exists i. split; [done|]. right. split; [|done].
    apply lookup_lt_Some in Hl. lia.
  - rewrite index_of_missing by done. exists (-1). split; [done|]. by left.
Qed.

Lemma get_column_index_first_position_witness :
  ∃ i, get_column_index [Some "a"; Some "b"; Some "a"] "b" = Ok i ∧
       ((i = -1 ∧ Some "b" ∉ [Some "a"; Some "b"; Some "a"]) ∨
        (0 ≤ i < 3 ∧
         [Some "a"; Some "b"; Some "a"] !! Z.to_nat i = Some (Some "b") ∧
         ∀ k : nat, (k < Z.to_nat i)%nat →
                    [Some "a"; Some "b"; Some "a"] !! k ≠ Some (Some "b"))).
Proof.
  apply (get_column_index_first_position [Some "a"; Some "b"; Some "a"] "b").
  reflexivity.
Defined.

(** ** Pages *)

(** X3. With a non-negative offset and page length, the current page has
    [min(page_length, len(records) - start_offset)] rows (none when the
    offset is at or past the end), so never more than the page length. *)
Theorem current_page_length (self : Datatable) (records : list Obj) :
  _records self = Some records →
  0 ≤ cfg_start_offset (config self) →
  0 ≤ cfg_page_length (config self) →
  ∃ page, _get_current_page self = Ok page ∧
          length page = (Z.to_nat (cfg_page_length (config self))
                         `min` (length records - Z.to_nat (cfg_start_offset (config self))))%nat ∧
          (Z.of_nat (length page) ≤ cfg_page_length (config self)) ∧
          (Z.of_nat (length records) ≤ cfg_start_offset (config self) → page = []).
Proof.
  intros Hr Hs Hp. eexists. split.
  { apply current_page_paged; [done|lia]. }
  rewrite slice_nonneg by lia.
  replace (cfg_start_offset (config self) + cfg_page_length (config self)
           - cfg_start_offset (config self)) with (cfg_page_length (config self)) by lia.
  assert (length (take (Z.to_nat (cfg_page_length (config self)))
                    (drop (Z.to_nat (cfg_start_offset (config self))) records))
          = (Z.to_nat (cfg_page_length (config self))
             `min` (length records - Z.to_nat (cfg_start_offset (config self))))%nat) as Hlen.
  { by rewrite length_take, length_drop. }
  split; [done|]. split; [lia|].
  intros Hend. apply nil_length_inv. lia.
Qed.

Lemma current_page_length_witness :
  ∃ page, _get_current_page (populated_table (rows 7) 5 5) = Ok page ∧
          length page = 2%nat.
Proof.
  destruct (current_page_length (populated_table (rows 7) 5 5) (rows 7))
    as (page & Hpage & Hlen & _); [reflexivity|simpl; lia|simpl; lia|].
  exists page. split; [done|]. exact Hlen.
Defined.

Lemma take_pages {A} (l : list A) (n count : nat) :
  mjoin ((λ k, take n (drop (k * n) l)) <$> seq 0 count) = take (count * n) l.
Proof.
  induction count as [|count IH]; [by rewrite take_0|].
  rewrite seq_S, fmap_app, join_app, IH. simpl. rewrite app_nil_r.
  rewrite <- (take_drop (count * n) (take (n + count * n) l)) at 1.
  rewrite take_take, skipn_firstn_comm.
  f_equal; f_equal; lia.
Qed.

(** X4. Paging through the records with a fixed positive page length, at the
    offsets 0, n, 2n, ..., returns every record once and in order: the pages
    put end to end are the record list as soon as they reach its end. *)
Theorem pages_cover_records (records : list Obj) (n : Z) (count : nat)
    (pages : nat → Datatable) :
  0 < n →
  (∀ k, _records (pages k) = Some records ∧
        cfg_page_length (config (pages k)) = n ∧
        cfg_start_offset (config (pages k)) = Z.of_nat k * n) →
  Z.of_nat (length records) ≤ Z.of_nat count * n →
  ∃ ps, Forall2 (λ k page, _get_current_page (pages k) = Ok page) (seq 0 count) ps ∧
        mjoin ps = records.
Proof.
  intros Hn Hpages Hcount.
  exists ((λ k, take (Z.to_nat n) (drop (k * Z.to_nat n) records)) <$> seq 0 count).
  split.
  - apply Forall2_fmap_r, Forall_Forall2_diag, Forall_forall. intros k _.
    destruct (Hpages k) as (Hr & Hp & Hs).
    rewrite (current_page_paged _ _ Hr) by lia. rewrite Hp, Hs.
    rewrite slice_nonneg by lia. do 3 f_equal; lia.
  - rewrite take_pages. apply take_ge. lia.
Qed.

Lemma pages_cover_records_witness :
  ∃ ps, Forall2 (λ k page, _get_current_page (populated_table (rows 7) 3 (Z.of_nat k * 3))
                           = Ok page) (seq 0 3) ps ∧
        mjoin ps = rows 7.
Proof.
  apply (pages_cover_records (rows 7) 3 3
           (λ k, populated_table (rows 7) 3 (Z.of_nat k * 3))).
  - lia.
  - intros k. repeat split.
  - simpl. lia.
Defined.

(** ** Mangled names *)

(** Letters, digits and single underscores: [prev] tells that the character
    before was an underscore. *)
Fixpoint clean (prev : bool) (s : string) : bool :=
  match s with
  | EmptyString => true
  | String c rest =>
      if is_alnum c then clean false rest
      else Ascii.eqb c "_" && negb prev && clean true rest
  end.

Lemma sub_runs_clean (b : bool) (s : string) : clean b (sub_runs b s) = true.
Proof.
  revert b. induction s as [|c s IH]; intros b; [done|]. simpl.
  destruct (is_alnum c) eqn:Hc; simpl.
  - rewrite Hc. apply IH.
  - destruct b; [apply IH|]. simpl. apply IH.
Qed.

Lemma sub_runs_fixed (b : bool) (s : string) : clean b s = true → sub_runs b s = s.
Proof.
  revert b. induction s as [|c s IH]; intros b; [done|]. simpl.
  destruct (is_alnum c) eqn:Hc.
  - intros H. f_equal. by apply IH.
  - intros H. apply andb_prop in H as [H Hrest]. apply andb_prop in H as [Hus Hb].
    apply Ascii.eqb_eq in Hus as ->. destruct b; [done|]. f_equal. by apply IH.
Qed.

Lemma clean_chars (b : bool) (s : string) :
  clean b s = true → all_chars (λ c, is_alnum c || Ascii.eqb c "_") s = true.
Proof.
  revert b. induction s as [|c s IH]; intros b; [done|]. simpl.
  destruct (is_alnum c); simpl; [apply IH|].
  intros H. apply andb_prop in H as [H Hrest]. apply andb_prop in H as [-> _].
  simpl. by apply (IH true).
Qed.

Lemma clean_no_double (b : bool) (u v : string) : clean b (u +:+ "__" +:+ v) = false.
Proof.
  revert b. induction u as [|c u IH]; intros b.
  - rewrite append_nil. simpl. by destruct b.
  - rewrite append_cons. simpl. rewrite IH. rewrite IH.
    destruct (is_alnum c); [done|]. by rewrite !andb_false_r.
Qed.

(** X5. A mangled name is made of letters, digits and underscores with no two
    underscores in a row; mangling leaves such a name as it is, so mangling
    twice is mangling once. *)
Theorem mangle_identifier (name : string) :
  all_chars (λ c, is_alnum c || Ascii.eqb c "_") (mangle name) = true ∧
  (∀ u v, mangle name ≠ u +:+ "__" +:+ v) ∧
  mangle (mangle name) = mangle name ∧
  (clean false name = true → mangle name = name).
Proof.
  pose proof (sub_runs_clean false name) as Hclean. fold (mangle name) in Hclean.
  split; [by apply (clean_chars false)|]. split; [|split].
  - intros u v Heq. rewrite Heq, clean_no_double in Hclean. done.
  - by apply sub_runs_fixed.
  - apply sub_runs_fixed.
Qed.

Lemma mangle_identifier_witness : mangle "street_name" = "street_name".
Proof. apply (proj2 (proj2 (proj2 (mangle_identifier "street_name")))). reflexivity. Defined.

(** ** Direction prefixes *)

(** X6. [name.lstrip('-+')] takes off a prefix made of ['-'] and ['+'] only,
    and all of it: what is left does not start with either character, and
    stripping again changes nothing. *)
Theorem plain_name_strips_signs (name : string) :
  (∃ signs, name = signs +:+ plain_name name ∧
            all_chars (λ c, char_in c ["-"%char; "+"%char]) signs = true) ∧
  (∀ c rest, plain_name name = String c rest → c ≠ "-"%char ∧ c ≠ "+"%char) ∧
  plain_name (plain_name name) = plain_name name.
Proof.
  unfold plain_name. induction name as [|c name (Hsigns & Hfirst & Hidem)].
  { split; [by exists ""|]. by split. }
  cbn [lstrip]. destruct (char_in c ["-"%char; "+"%char]) eqn:Hc.
  - split; [|split; [exact Hfirst|exact Hidem]].
    destruct Hsigns as (signs & Hname & Hall).
    exists (String c signs). rewrite append_cons, <- Hname. split; [done|].
    cbn [all_chars]. by rewrite Hc.
  - split; [by exists ""|]. split.
    + intros c' rest [= -> ->]. split; intros ->; done.
    + cbn [lstrip]. by rewrite Hc.
Qed.

(** ** From model fields to column classes *)

(** The loop of [get_column_for_modelfield] over any list of items. *)
Fixpoint first_column_class (model_field : ModelField)
    (items : list (ColumnClass * list ModelFieldClass)) : option ColumnClass :=
  match items with
  | [] => None
  | (ColumnClass, modelfield_classes) :: rest =>
      if isinstance model_field modelfield_classes then Some ColumnClass
      else first_column_class model_field rest
  end.

Lemma get_column_for_modelfield_loop (f : ModelField) :
  get_column_for_modelfield f = first_column_class f COLUMN_TYPES.
Proof. reflexivity. Qed.

Lemma isinstance_true (f : ModelField) (row : list ModelFieldClass) :
  isinstance f row = true ↔ ∃ c, c ∈ row ∧ c ∈ field_classes f.
Proof.
  unfold isinstance. rewrite existsb_exists. split.
  - intros (c & Hc & Hf). exists c. split; [by apply list_elem_of_In|].
    by apply bool_decide_eq_true in Hf.
  - intros (c & Hc & Hf). exists c. split; [by apply list_elem_of_In|].
    by apply bool_decide_eq_true.
Qed.

Lemma first_column_class_Some f items cc :
  first_column_class f items = Some cc →
  ∃ row, (cc, row) ∈ items ∧ isinstance f row = true.
Proof.
  induction items as [|[cc' row] items IH]; [done|]. simpl.
  destruct (isinstance f row) eqn:E.
  - intros [= <-]. exists row. split; [left|done].
  - intros H. destruct (IH H) as (row' & Hin & Hrow). exists row'. split; [by right|done].
Qed.

Lemma first_column_class_None f items :
  first_column_class f items = None ↔ ∀ cc row, (cc, row) ∈ items → isinstance f row = false.
Proof.
  induction items as [|[cc' row] items IH]; simpl.
  - split; [|done]. intros _ cc row H. by apply elem_of_nil in H.
  - destruct (isinstance f row) eqn:E.
    + split; [done|]. intros H. specialize (H cc' row). rewrite E in H.
      by discriminate H; left.
    + rewrite IH. split.
      * intros H cc row0 Hin. apply elem_of_cons in Hin as [[= -> ->]|Hin]; eauto.
      * intros H cc row0 Hin. apply (H cc). by right.
Qed.

(** Every field class is listed once in the table. *)
Definition column_class_of (c : ModelFieldClass) : ColumnClass :=
  match c with
  | CharField | TextField | FileField => TextColumn
  | DateField => DateColumn
  | BooleanField | NullBooleanField => BooleanColumn
  | IntegerField | AutoField => IntegerColumn
  | FloatField | DecimalField => FloatColumn
  | ForeignKey => ForeignKeyColumn
  end.

Lemma COLUMN_TYPES_rows (cc : ColumnClass) (row : list ModelFieldClass) (c : ModelFieldClass) :
  (cc, row) ∈ COLUMN_TYPES → c ∈ row → column_class_of c = cc.
Proof.
  unfold COLUMN_TYPES. intros Hrow Hc.
  repeat (apply elem_of_cons in Hrow as [[= -> ->]|Hrow];
          [repeat (apply elem_of_cons in Hc as [->|Hc]; [reflexivity|]);
           by apply elem_of_nil in Hc|]).
  by apply elem_of_nil in Hrow.
Qed.

Lemma COLUMN_TYPES_complete (c : ModelFieldClass) :
  ∃ row, (column_class_of c, row) ∈ COLUMN_TYPES ∧ c ∈ row.
Proof.
  destruct c; simpl; eexists; (split; [|]);
    try (apply list_elem_of_In; simpl; eauto 10; fail).
  all: apply list_elem_of_In; simpl; eauto 10.
Qed.

Lemma get_column_for_modelfield_Some (f : ModelField) (cc : ColumnClass) :
  get_column_for_modelfield f = Some cc →
  ∃ c, c ∈ field_classes f ∧ column_class_of c = cc.
Proof.
  rewrite get_column_for_modelfield_loop. intros H.
  apply first_column_class_Some in H as (row & Hrow & Hinst).
  apply isinstance_true in Hinst as (c & Hc & Hf). exists c. split; [done|].
  by apply (COLUMN_TYPES_rows cc row).
Qed.

Lemma get_column_for_modelfield_None (f : ModelField) :
  get_column_for_modelfield f = None ↔ field_classes f = [].
Proof.
  rewrite get_column_for_modelfield_loop, first_column_class_None. split.
  - intros H. destruct (field_classes f) as [|c fc] eqn:E; [done|]. exfalso.
    destruct (COLUMN_TYPES_complete c) as (row & Hrow & Hc).
    specialize (H _ _ Hrow).
    assert (isinstance f row = true) as Ht; [|congruence].
    apply isinstance_true. exists c. split; [done|]. rewrite E. left.
  - intros E cc row _. destruct (isinstance f row) eqn:Hi; [|done].
    apply isinstance_true in Hi as (c & _ & Hc). rewrite E in Hc.
    by apply elem_of_nil in Hc.
Qed.

(** The loop over the items of the table in any order. *)
Lemma first_column_class_permutation (f : ModelField)
    (items : list (ColumnClass * list ModelFieldClass)) :
  items ≡ₚ COLUMN_TYPES →
  (first_column_class f items = None ↔ field_classes f = []) ∧
  (∀ cc, first_column_class f items = Some cc →
         ∃ c, c ∈ field_classes f ∧ column_class_of c = cc).
Proof.
  intros Hperm. split.
  - rewrite first_column_class_None, <- get_column_for_modelfield_None,
      get_column_for_modelfield_loop, first_column_class_None.
    split; intros H cc row Hin; apply (H cc row); by rewrite ?Hperm in *.
  - intros cc H. apply first_column_class_Some in H as (row & Hrow & Hinst).
    apply isinstance_true in Hinst as (c & Hc & Hf). exists c. split; [done|].
    apply (COLUMN_TYPES_rows cc row); [|done]. by rewrite <- Hperm.
Qed.

(** X7. A field gets a column class exactly when it is an instance of one of
    the listed field classes, and [None] otherwise. The class chosen always
    lists a class of the field; and since no field class is listed twice, a
    field whose listed classes all belong to one column class gets that one.
    All of this holds for the loop over the items of [COLUMN_TYPES] in any
    order, so for such a field the class does not depend on the order in
    which the table is walked. *)
Theorem get_column_for_modelfield_listed (f : ModelField) :
  (get_column_for_modelfield f = None ↔ field_classes f = []) ∧
  (∀ cc, get_column_for_modelfield f = Some cc →
         ∃ c, c ∈ field_classes f ∧ column_class_of c = cc) ∧
  (∀ cc, field_classes f ≠ [] →
         (∀ c, c ∈ field_classes f → column_class_of c = cc) →
         get_column_for_modelfield f = Some cc) ∧
  get_column_for_modelfield f = first_column_class f COLUMN_TYPES ∧
  (∀ items, items ≡ₚ COLUMN_TYPES →
     (first_column_class f items = None ↔ field_classes f = []) ∧
     (∀ cc, first_column_class f items = Some cc →
            ∃ c, c ∈ field_classes f ∧ column_class_of c = cc) ∧
     (∀ cc, field_classes f ≠ [] →
            (∀ c, c ∈ field_classes f → column_class_of c = cc) →
            first_column_class f items = Some cc ∧
            first_column_class f items = get_column_for_modelfield f)).
Proof.
  assert (∀ items cc, items ≡ₚ COLUMN_TYPES → field_classes f ≠ [] →
            (∀ c, c ∈ field_classes f → column_class_of c = cc) →
            first_column_class f items = Some cc) as Hone.
  { intros items cc Hperm Hne Hall.
    pose proof (first_column_class_permutation f items Hperm) as [Hnone Hsome].
    destruct (first_column_class f items) as [cc'|] eqn:E.
    - destruct (Hsome cc' eq_refl) as (c & Hc & <-). f_equal. by apply Hall.
    - by destruct Hne; apply Hnone. }
  split; [apply get_column_for_modelfield_None|].
  split; [apply get_column_for_modelfield_Some|].
  split; [intros cc Hne Hall; by apply (Hone COLUMN_TYPES)|].
  split; [reflexivity|].
  intros items Hperm.
  destruct (first_column_class_permutation f items Hperm) as [Hnone Hsome].
  split; [done|]. split; [done|].
  intros cc Hne Hall. split; [by apply Hone|].
  rewrite get_column_for_modelfield_loop.
  by rewrite (Hone items cc), (Hone COLUMN_TYPES cc).
Qed.

Lemma get_column_for_modelfield_listed_witness :
  get_column_for_modelfield (sample_field "when" [DateField] 1) = Some DateColumn.
Proof.
  apply (proj1 (proj2 (proj2 (get_column_for_modelfield_listed
                                (sample_field "when" [DateField] 1))))).
  - done.
  - intros c H. apply list_elem_of_singleton in H as ->. reflexivity.
Defined.

(** ** What [columns_for_model] returns *)

Lemma forallb_false {A} (p : A → bool) (l : list A) :
  forallb p l = false ↔ ∃ x, x ∈ l ∧ p x = false.
Proof.
  induction l as [|y l IH]; simpl.
  - split; [done|]. intros (x & H & _). by apply elem_of_nil in H.
  - rewrite andb_false_iff, IH. split.
    + intros [H|(x & Hx & Hp)]; [exists y; split; [left|done]|].
      exists x. split; [by right|done].
    + intros (x & Hx & Hp). apply elem_of_cons in Hx as [->|Hx]; [by left|].
      right. eauto.
Qed.

Lemma elem_of_selected_fields model fields exclude f :
  f ∈ selected_fields model fields exclude ↔
  f ∈ opts_fields model ∧ selected fields exclude f = true.
Proof.
  unfold selected_fields. rewrite list_elem_of_filter, elem_of_sorted. tauto.
Qed.

Lemma mapped_false (f : ModelField) : mapped f = false ↔ field_classes f = [].
Proof.
  rewrite <- get_column_for_modelfield_None. unfold mapped.
  rewrite bool_decide_eq_false. destruct (get_column_for_modelfield f) as [cc|].
  - split; [|done]. intros H. exfalso. apply H. eauto.
  - split; [done|]. by intros _ [? ?].
Qed.

(** X8. [columns_for_model] raises [TypeError] exactly when a model field that
    passes the include and exclude lists is an instance of no listed field
    class; in every other case it returns. *)
Theorem columns_for_model_TypeError (model : Model) (fields exclude : option (list string))
    (st : pystate) :
  (columns_for_model model fields exclude st = Raise TypeError ↔
   ∃ f, f ∈ opts_fields model ∧ selected fields exclude f = true ∧
        field_classes f = []) ∧
  (columns_for_model model fields exclude st ≠ Raise TypeError →
   ∃ l st', columns_for_model model fields exclude st = Ok (l, st')).
Proof.
  destruct (forallb mapped (selected_fields model fields exclude)) eqn:Hm.
  - destruct (columns_for_model_mapped model fields exclude st Hm)
      as (l & st' & more & Hc & _).
    split; [|eauto]. rewrite Hc. split; [done|].
    intros (f & Hf & Hs & Hc'). exfalso.
    assert (mapped f = true) as Ht.
    { apply (proj1 (forallb_forall _ _) Hm), list_elem_of_In.
      by apply elem_of_selected_fields. }
    apply mapped_false in Hc'. congruence.
  - rewrite (columns_for_model_unmapped _ _ _ _ Hm). split; [|done].
    split; [|done]. intros _.
    apply forallb_false in Hm as (f & Hf & Hmf).
    apply elem_of_selected_fields in Hf as [Hf Hs]. apply mapped_false in Hmf. eauto.
Qed.

Lemma columns_for_model_TypeError_witness :
  ∃ l st', columns_for_model abc_model (Some ["c"; "a"]) None empty_store = Ok (l, st').
Proof.
  apply (proj2 (columns_for_model_TypeError abc_model (Some ["c"; "a"]) None empty_store)).
  vm_compute. discriminate.
Defined.

(** A call that returns has met only mapped fields. *)
Lemma columns_for_model_Ok model fields exclude st l st' :
  columns_for_model model fields exclude st = Ok (l, st') →
  forallb mapped (selected_fields model fields exclude) = true.
Proof.
  intros H. destruct (forallb _ _) eqn:Hm; [done|].
  by rewrite columns_for_model_unmapped in H.
Qed.

Lemma columns_for_model_dict model fields exclude st l st' :
  columns_for_model model fields exclude st = Ok (l, st') →
  read_dict (heap st') l = Ok (model_columns (length (heap st)) model fields exclude).
Proof.
  intros H. pose proof (columns_for_model_Ok _ _ _ _ _ _ H) as Hm.
  destruct (columns_for_model_mapped model fields exclude st Hm)
    as (l' & st'' & more & Hc & _ & _ & Hread & _).
  rewrite H in Hc. by injection Hc as <- <-.
Qed.

Lemma od_keys_graph {V} (g : string → V) (l : list string) :
  od_keys ((λ f, (f, g f)) <$> l) = l.
Proof.
  unfold od_keys. rewrite <- list_fmap_compose. by rewrite <- (list_fmap_id l) at 2.
Qed.

Lemma od_keys_OrderedDict {V} (items : list (string * V)) (k : string) :
  k ∈ od_keys (OrderedDict items) ↔ k ∈ od_keys items.
Proof.
  unfold OrderedDict. rewrite od_keys_update. split; [|by right].
  intros [H|H]; [by apply elem_of_nil in H|done].
Qed.

(** X9. With a non-empty include list the returned dictionary has exactly the
    included names that are not excluded, in the order of the include list
    (not of the model's fields); a name that is no model field is kept, with
    the value [None], and every other name holds a column. *)
Theorem columns_for_model_include_list (model : Model) (include : list string)
    (exclude : option (list string)) (st : pystate) (l : loc) (st' : pystate) :
  include ≠ [] →
  columns_for_model model (Some include) exclude st = Ok (l, st') →
  ∃ d, read_dict (heap st') l = Ok d ∧
       (∀ k, k ∈ od_keys d ↔ k ∈ include ∧ excluded exclude k = false) ∧
       (NoDup include → od_keys d = filter (λ k, excluded exclude k = false) include) ∧
       (∀ k, od_get d k = Some None ↔
             k ∈ include ∧ excluded exclude k = false ∧ k ∉ field_names model) ∧
       (∀ k v, od_get d k = Some (Some v) → k ∈ field_names model).
Proof.
  intros Hne Hc. exists (model_columns (length (heap st)) model (Some include) exclude).
  split; [by apply columns_for_model_dict|].
  assert (∀ k, k ∈ od_keys (model_columns (length (heap st)) model (Some include) exclude)
               ↔ k ∈ include ∧ excluded exclude k = false) as Hkeys.
  { intros k. unfold model_columns. destruct include as [|f0 fs]; [done|].
    rewrite od_keys_OrderedDict, od_keys_graph, list_elem_of_filter. tauto. }
  assert (∀ k, od_get (model_columns (length (heap st)) model (Some include) exclude) k
               = Some None ↔
               k ∈ include ∧ excluded exclude k = false ∧ k ∉ field_names model) as Hnone.
  { intros k. rewrite <- none_model_columns_spec by done.
    symmetry. apply od_get_None_value.
    unfold model_columns. destruct include; apply OrderedDict_NoDup. }
  split; [done|]. split; [|split; [done|]].
  - intros Hnd. unfold model_columns. destruct include as [|f0 fs]; [done|].
    rewrite OrderedDict_NoDup_id; rewrite ?od_keys_graph; [done|].
    change (NoDup (od_keys ((λ f, (f, mjoin (od_get
      (OrderedDict (field_list_of (length (heap st))
         (selected_fields model (Some (f0 :: fs)) exclude))) f))) <$>
      filter (λ f, excluded exclude f = false) (f0 :: fs)))).
    rewrite od_keys_graph. by apply NoDup_filter.
  - intros k v Hv.
    destruct (decide (k ∈ field_names model)) as [|Hnf]; [done|]. exfalso.
    assert (od_get (model_columns (length (heap st)) model (Some include) exclude) k
            = Some None) as Hn; [|congruence].
    apply Hnone. apply od_get_Some_key, Hkeys in Hv as [Hin Hex]. done.
Qed.

Definition listed_loc : loc :=
  Eval vm_compute in
    match columns_for_model abc_model (Some ["c"; "zzz"; "a"]) None empty_store with
    | Ok (l, _) => l
    | Raise _ => 0%nat
    end.

Definition listed_store : pystate :=
  Eval vm_compute in
    match columns_for_model abc_model (Some ["c"; "zzz"; "a"]) None empty_store with
    | Ok (_, st) => st
    | Raise _ => empty_store
    end.

Lemma columns_for_model_include_list_witness :
  ∃ d, read_dict (heap listed_store) listed_loc = Ok d ∧
       od_keys d = ["c"; "zzz"; "a"] ∧
       od_get d "zzz" = Some None.
Proof.
  destruct (columns_for_model_include_list abc_model ["c"; "zzz"; "a"] None empty_store
              listed_loc listed_store) as (d & Hd & _ & Hkeys & Hnone & _).
  - done.
  - vm_compute. reflexivity.
  - exists d. split; [done|]. split.
    + rewrite Hkeys; [reflexivity|].
      apply (bool_decide_unpack _). by vm_compute.
    + apply Hnone. split; [right; left|]. split; [reflexivity|].
      intros H. by repeat (apply elem_of_cons in H as [?|H]; [done|]);
        apply elem_of_nil in H.
Defined.

Lemma insert_sorted_StronglySorted {A} (key : A → Z) (x : A) (l : list A) :
  StronglySorted (λ a b, key a ≤ key b) l →
  StronglySorted (λ a b, key a ≤ key b) (insert_sorted key x l).
Proof.
  induction 1 as [|y l Hl IH Hy]; simpl; [by repeat constructor|].
  destruct (Z.leb_spec (key x) (key y)) as [Hle|Hgt].
  - constructor; [by constructor|]. constructor; [done|].
    eapply Forall_impl; [exact Hy|]. simpl. intros. lia.
  - constructor; [done|]. apply Forall_forall. intros z Hz.
    apply elem_of_insert_sorted in Hz as [->|Hz]; [lia|].
    by apply (proj1 (Forall_forall _ _) Hy).
Qed.

Lemma sorted_StronglySorted {A} (key : A → Z) (l : list A) :
  StronglySorted (λ a b, key a ≤ key b) (sorted key l).
Proof.
  unfold sorted. induction l as [|x l IH]; simpl; [constructor|].
  by apply insert_sorted_StronglySorted.
Qed.

Lemma selected_without_include exclude f :
  selected None exclude f = negb (excluded exclude (field_name f)).
Proof. done. Qed.

(** X10. Without an include list the returned dictionary has exactly the
    names of the model's fields that are not excluded, each holding a column;
    for distinct field names they come in the order of the fields' creation
    counters, fields with equal counters keeping every field of the model. *)
Theorem columns_for_model_all_fields (model : Model) (exclude : option (list string))
    (st : pystate) (l : loc) (st' : pystate) :
  columns_for_model model None exclude st = Ok (l, st') →
  let in_order := sorted field_creation_counter (opts_fields model) in
  ∃ d, read_dict (heap st') l = Ok d ∧
       (∀ k, k ∈ od_keys d ↔ k ∈ field_names model ∧ excluded exclude k = false) ∧
       (∀ k v, (k, v) ∈ d → v ≠ None) ∧
       (NoDup (field_names model) →
        od_keys d = field_name <$>
                      filter (λ f, excluded exclude (field_name f) = false) in_order) ∧
       StronglySorted (λ f g, field_creation_counter f ≤ field_creation_counter g)
         in_order ∧
       in_order ≡ₚ opts_fields model.
Proof.
  intros Hc in_order. exists (model_columns (length (heap st)) model None exclude).
  split; [by apply columns_for_model_dict|].
  unfold model_columns.
  assert (selected_fields model None exclude
          = filter (λ f, excluded exclude (field_name f) = false) in_order) as Hsel.
  { unfold selected_fields. fold in_order. apply list_filter_iff. intros f.
    rewrite selected_without_include. by destruct (excluded exclude (field_name f)). }
  split; [|split; [|split; [|split]]].
  - intros k. rewrite od_keys_OrderedDict. unfold od_keys. rewrite field_list_keys.
    rewrite list_elem_of_fmap. unfold field_names. rewrite list_elem_of_fmap. split.
    + intros (f & -> & Hf). apply elem_of_selected_fields in Hf as [Hf Hs].
      split; [eauto|]. rewrite selected_without_include in Hs.
      by destruct (excluded exclude (field_name f)).
    + intros [(f & -> & Hf) Hex]. exists f. split; [done|].
      apply elem_of_selected_fields. split; [done|].
      by rewrite selected_without_include, Hex.
  - intros k v Hkv. apply od_update_elem in Hkv as [Hkv|Hkv];
      [by apply elem_of_nil in Hkv|]. by apply field_list_values in Hkv.
  - intros Hnd. rewrite OrderedDict_NoDup_id.
    + unfold od_keys. by rewrite field_list_keys, Hsel.
    + rewrite field_list_keys, Hsel.
      apply (sublist_NoDup _ (field_name <$> in_order)).
      * unfold in_order. by rewrite sorted_Permutation.
      * apply fmap_sublist, sublist_filter.
  - apply sorted_StronglySorted.
  - apply sorted_Permutation.
Qed.

Definition all_fields_loc : loc :=
  Eval vm_compute in
    match columns_for_model abc_model None (Some ["b"]) empty_store with
    | Ok (l, _) => l
    | Raise _ => 0%nat
    end.

Definition all_fields_store : pystate :=
  Eval vm_compute in
    match columns_for_model abc_model None (Some ["b"]) empty_store with
    | Ok (_, st) => st
    | Raise _ => empty_store
    end.

Lemma columns_for_model_all_fields_witness :
  ∃ d, read_dict (heap all_fields_store) all_fields_loc = Ok d ∧
       od_keys d = ["a"; "c"].
Proof.
  destruct (columns_for_model_all_fields abc_model (Some ["b"]) empty_store
              all_fields_loc all_fields_store) as (d & Hd & _ & _ & Hkeys & _).
  - vm_compute. reflexivity.
  - exists d. split; [done|]. rewrite Hkeys; [reflexivity|].
    apply (bool_decide_unpack _). by vm_compute.
Defined.

(** X11. An include list that is empty is not the same as none: every field
    fails [f.name not in fields], so whatever the model and the exclude list
    the call returns an empty dictionary, creates no column and leaves the
    creation counter alone. *)
Theorem columns_for_model_empty_include (model : Model) (exclude : option (list string))
    (st : pystate) :
  columns_for_model model (Some []) exclude st
  = Ok (length (heap st),
        {| heap := heap st ++ [ODict []];
           column_creation_counter := column_creation_counter st |}).
Proof.
  assert (selected_fields model (Some []) exclude = []) as Hsel.
  { unfold selected_fields. apply elem_of_nil_inv. intros f Hf.
    apply list_elem_of_filter in Hf as [Hs _]. unfold selected, not_listed in Hs.
    rewrite bool_decide_eq_false_2 in Hs by apply not_elem_of_nil. done. }
  unfold columns_for_model. unfold mbind at 1, M_bind at 1.
  rewrite columns_loop. cbn zeta. fold (selected_fields model (Some []) exclude).
  rewrite Hsel. destruct st as [h n]. simpl. rewrite app_nil_r, Nat.add_0_r. done.
Qed.

Lemma columns_for_model_heap model fields exclude st l st' :
  columns_for_model model fields exclude st = Ok (l, st') →
  ∃ more,
    heap st' = heap st ++ derived_columns (column_creation_counter st)
                            (selected_fields model fields exclude) ++ more ∧
    (length (heap st) ≤ l < length (heap st'))%nat ∧
    column_creation_counter st'
    = (column_creation_counter st + length (selected_fields model fields exclude))%nat.
Proof.
  intros H. pose proof (columns_for_model_Ok _ _ _ _ _ _ H) as Hm.
  destruct (columns_for_model_mapped model fields exclude st Hm)
    as (l' & st'' & more & Hc & Hheap & Hfresh & Hread & _).
  rewrite H in Hc. injection Hc as <- <-. exists more. split; [done|]. split.
  - split; [done|]. unfold read_dict in Hread.
    destruct (heap st' !! l) eqn:E; [|done]. by apply lookup_lt_Some in E.
  - revert H. unfold columns_for_model. unfold mbind at 1, M_bind at 1.
    rewrite columns_loop. cbn zeta. fold (selected_fields model fields exclude).
    rewrite Hm. unfold mbind, M_bind, alloc, get_dict, mret, M_ret.
    cbn [heap column_creation_counter].
    destruct fields as [[|f0 fs]|]; cbn [heap column_creation_counter].
    + intros H0. simpl in H0. by injection H0 as _ <-.
    + intros H0. simpl in H0.
      destruct (read_dict _ _) in H0; simpl in H0; [|done].
      by injection H0 as _ <-.
    + intros H0. simpl in H0. by injection H0 as _ <-.
Qed.

(** X12. A call of [columns_for_model] that returns has only added to the
    store: every object that was there is untouched and the dictionary
    returned is a new one. It creates one column per field that passes the
    lists, in creation order, named after the field, with the field's name as
    its only source and the capitalised verbose name as label, and advances
    the creation counter by the number of these fields. *)
Theorem columns_for_model_only_adds (model : Model) (fields exclude : option (list string))
    (st : pystate) (l : loc) (st' : pystate) :
  columns_for_model model fields exclude st = Ok (l, st') →
  let chosen := selected_fields model fields exclude in
  (∀ i, (i < length (heap st))%nat → heap st' !! i = heap st !! i) ∧
  (length (heap st) ≤ l < length (heap st'))%nat ∧
  column_creation_counter st' = (column_creation_counter st + length chosen)%nat ∧
  (∀ (k : nat) f, chosen !! k = Some f →
     ∃ c, read_column (heap st') (length (heap st) + k)%nat = Ok c ∧
          col_name c = Some (field_name f) ∧
          col_sources c = [field_name f] ∧
          col_label c = Some (pretty_name (verbose_name f)) ∧
          col_processor c = None ∧
          get_column_for_modelfield f = Some (col_class c) ∧
          col_creation_counter c = (column_creation_counter st + k)%nat).
Proof.
  intros H chosen.
  destruct (columns_for_model_heap _ _ _ _ _ _ H) as (more & Hheap & Hl & Hn).
  split; [|split; [done|split; [done|]]].
  - intros i Hi. rewrite Hheap. by apply lookup_app_l.
  - intros k f Hk. exists (derived_column f (column_creation_counter st + k)).
    split.
    + unfold read_column. rewrite Hheap, lookup_app_r by lia.
      replace (length (heap st) + k - length (heap st))%nat with k by lia.
      rewrite lookup_app_l.
      2:{ unfold derived_columns. rewrite length_imap. by apply lookup_lt_Some in Hk. }
      unfold derived_columns. fold chosen. by rewrite list_lookup_imap, Hk.
    + repeat split. cbn [derived_column col_class].
      assert (mapped f = true) as Hm.
      { apply (proj1 (forallb_forall _ _) (columns_for_model_Ok _ _ _ _ _ _ H)).
        apply list_elem_of_In, list_elem_of_lookup. eauto. }
      unfold mapped in Hm. apply bool_decide_eq_true in Hm as [cc Hcc].
      by rewrite Hcc.
Qed.

Lemma columns_for_model_only_adds_witness :
  column_creation_counter all_fields_store = 2%nat ∧
  (0 ≤ all_fields_loc < length (heap all_fields_store))%nat.
Proof.
  destruct (columns_for_model_only_adds abc_model None (Some ["b"]) empty_store
              all_fields_loc all_fields_store) as (_ & Hl & Hn & _).
  - vm_compute. reflexivity.
  - split; [exact Hn|exact Hl].
Defined.
(** ** Decimal numerals *)

Lemma pretty_N_char_digit (k : N) :
  (k < 10)%N →
  is_digit (pretty_N_char k) = true ∧
  Z.of_N (N_of_ascii (pretty_N_char k)) - 48 = Z.of_N k.
Proof.
  intros Hk.
  assert (k = 0 ∨ k = 1 ∨ k = 2 ∨ k = 3 ∨ k = 4 ∨ k = 5 ∨ k = 6 ∨ k = 7 ∨ k = 8 ∨ k = 9)%N
    as Hcases by lia.
  repeat (destruct Hcases as [->|Hcases]; [by vm_compute|]). subst k. by vm_compute.
Qed.

Lemma pretty_N_go_digits (x : N) :
  ∀ s, all_chars is_digit s = true → all_chars is_digit (pretty_N_go x s) = true.
Proof.
  induction (N.lt_wf_0 x) as [x _ IH]. intros s Hs.
  assert (x = 0 ∨ 0 < x)%N as [->|Hx] by lia; [by rewrite pretty_N_go_0|].
  rewrite pretty_N_go_step by done. apply IH; [by apply N.div_lt|].
  cbn [all_chars]. rewrite Hs, andb_true_r.
  apply pretty_N_char_digit. by apply N.mod_lt.
Qed.

Lemma pretty_N_go_nonempty (x : N) : ∀ s, s ≠ "" → pretty_N_go x s ≠ "".
Proof.
  induction (N.lt_wf_0 x) as [x _ IH]. intros s Hs.
  assert (x = 0 ∨ 0 < x)%N as [->|Hx] by lia; [by rewrite pretty_N_go_0|].
  rewrite pretty_N_go_step by done. apply IH; [by apply N.div_lt|done].
Qed.

Lemma pretty_N_go_value (x : N) :
  ∀ s, digits_value 0 (pretty_N_go x s) = digits_value (Z.of_N x) s.
Proof.
  induction (N.lt_wf_0 x) as [x _ IH]. intros s.
  assert (x = 0 ∨ 0 < x)%N as [->|Hx] by lia; [by rewrite pretty_N_go_0|].
  rewrite pretty_N_go_step by done. rewrite IH by (by apply N.div_lt).
  cbn [digits_value].
  destruct (pretty_N_char_digit (x `mod` 10)) as [-> ->]; [by apply N.mod_lt|].
  f_equal. pose proof (N.div_mod x 10). lia.
Qed.

Lemma pretty_nat_digits (n : nat) :
  all_chars is_digit (pretty n) = true ∧ pretty n ≠ "" ∧
  digits_value 0 (pretty n) = Some (Z.of_nat n).
Proof.
  unfold pretty, pretty_nat, pretty, pretty_N.
  destruct (decide (N.of_nat n = 0%N)) as [E|E].
  - split; [done|]. split; [done|]. simpl. f_equal. lia.
  - split; [by apply pretty_N_go_digits|]. split.
    + rewrite pretty_N_go_step by lia. by apply pretty_N_go_nonempty.
    + rewrite pretty_N_go_value. simpl. f_equal. lia.
Qed.

Lemma digit_not_space (c : ascii) : is_digit c = true → is_space c = false.
Proof. destruct c as [[] [] [] [] [] [] [] []]; by vm_compute. Qed.

Lemma digit_alnum (c : ascii) : is_digit c = true → is_alnum c = true.
Proof. unfold is_alnum. by intros ->. Qed.

Lemma all_chars_impl (P Q : ascii → bool) (s : string) :
  (∀ c, P c = true → Q c = true) → all_chars P s = true → all_chars Q s = true.
Proof.
  intros HPQ. induction s as [|c s IH]; [done|]. cbn [all_chars].
  intros [Hc Hs]%andb_prop. by rewrite (HPQ _ Hc), IH.
Qed.

Lemma rstrip_space_digits (s : string) : all_chars is_digit s = true → rstrip_space s = s.
Proof.
  induction s as [|c s IH]; [done|]. cbn [all_chars rstrip_space].
  intros [Hc Hs]%andb_prop. rewrite (IH Hs).
  destruct s; [by rewrite (digit_not_space _ Hc)|done].
Qed.

Lemma int_digits (s : string) (n : Z) :
  all_chars is_digit s = true → s ≠ "" → digits_value 0 s = Some n → int s = Ok n.
Proof.
  intros Hall Hne Hval. unfold int. rewrite (rstrip_space_digits _ Hall).
  destruct s as [|c s]; [done|]. cbn [all_chars] in Hall.
  apply andb_prop in Hall as [Hc _]. cbn [lstrip_space].
  rewrite (digit_not_space _ Hc).
  assert (c ≠ "-"%char ∧ c ≠ "+"%char) as [Hminus Hplus].
  { split; intros ->; done. }
  destruct c as [[] [] [] [] [] [] [] []]; try done;
    rewrite Hval; f_equal; lia.
Qed.

(** ** Index references *)

(** X13. An index reference is read back as written: for the name ['!']
    followed by the decimal numeral of [n], [get_column_index] returns [n],
    without looking at the column names and without a bounds check. *)
Theorem index_reference_round_trip (flat : list (option string)) (n : nat) :
  get_column_index flat ("!" +:+ pretty n) = Ok (Z.of_nat n).
Proof.
  destruct (pretty_nat_digits n) as (Hall & Hne & Hval).
  change ("!" +:+ pretty n) with (String "!"%char (pretty n)).
  unfold get_column_index, startswith, tail. cbn [String.prefix].
  destruct (Ascii.ascii_dec "!" "!"); [|done].
  assert (String.prefix "" (pretty n) = true) as -> by (by destruct (pretty n)).
  by apply int_digits.
Qed.

(** ** Hook names *)

Lemma digits_before_suffix (u v : string) :
  all_chars is_digit u = true → all_chars is_digit v = true →
  u +:+ "_data" = v +:+ "_data" → u = v.
Proof.
  revert v. induction u as [|c u IH]; intros [|c' v] Hu Hv H; try done.
  - rewrite append_nil, append_cons in H. injection H as <- _.
    by apply andb_prop in Hv as [Hc _].
  - rewrite append_nil, append_cons in H. injection H as -> _.
    by apply andb_prop in Hu as [Hc _].
  - rewrite !append_cons in H. injection H as -> H.
    cbn [all_chars] in Hu, Hv.
    apply andb_prop in Hu as [_ Hu]. apply andb_prop in Hv as [_ Hv].
    f_equal. by apply IH.
Qed.

(** X14. The index hooks of different positions have different names. A name
    hook can be an index hook all the same: a column whose label (or name) is
    the decimal numeral of [i] is looked up under [get_column_<i>_data], the
    name of the index hook of position [i]. *)
Theorem hook_names (i j : nat) :
  (hook_by_index i = hook_by_index j → i = j) ∧
  hook_by_name (mangle (pretty i)) = hook_by_index i.
Proof.
  destruct (pretty_nat_digits i) as (Hi & _ & _).
  destruct (pretty_nat_digits j) as (Hj & _ & _). split.
  - unfold hook_by_index. intros H. apply (inj (String.append "get_column_")) in H.
    apply digits_before_suffix in H; [|done..]. by apply (inj pretty).
  - unfold hook_by_name, hook_by_index. rewrite mangle_word; [done|].
    eapply all_chars_impl; [apply digit_alnum|done].
Qed.
(** ** [configure] *)

(** A loop that appends one result per element. *)
Lemma foldR_collect {A B} (f : A → result B) (step : list B → A → result (list B)) :
  (∀ acc x, step acc x = y ← f x; Ok (acc ++ [y])) →
  ∀ l acc out, foldR step acc l = Ok out ↔
    ∃ ys, out = acc ++ ys ∧ Forall2 (λ x y, f x = Ok y) l ys.
Proof.
  intros Hstep. induction l as [|x l IH]; intros acc out; cbn [foldR].
  - split.
    + intros [= <-]. exists []. by rewrite app_nil_r.
    + intros (ys & -> & Hys). inversion Hys. by rewrite app_nil_r.
  - rewrite Hstep. destruct (f x) as [y|e] eqn:Hx; cbn [mbind result_bind].
    + rewrite IH. split.
      * intros (ys & -> & Hys). exists (y :: ys). rewrite <- app_assoc.
        split; [done|]. by constructor.
      * intros (ys & -> & Hys). inversion Hys as [|? y' ? ys' Hy Hys']; subst.
        rewrite Hx in Hy. injection Hy as <-. exists ys'.
        by rewrite <- app_assoc.
    + split; [done|]. intros (ys & _ & Hys). inversion Hys; subst. congruence.
Qed.

(** The flat name of a column: [column.fields[0]] when there are fields,
    [column.pretty_name] otherwise. *)
Definition flat_name (info : ColumnInfoTuple) : option string :=
  match info_fields info with
  | f :: _ => Some f
  | [] => info_pretty_name info
  end.

Lemma flat_column_name_step get_field_definition acc column :
  flat_column_name get_field_definition acc column
  = y ← flat_name <$> get_field_definition column; Ok (acc ++ [y]).
Proof. unfold flat_column_name. destruct (get_field_definition column); reflexivity. Qed.

(** X15. After [configure] the table has one flat column name per column of
    its dictionary, in the dictionary's order: the first field of the
    column's definition when it has fields, its pretty name otherwise. *)
Theorem configure_flat_column_names normalize_config get_field_definition
    (self : Datatable) (meta_config : DatatableOptions)
    (view_config query_config : list (string * pyval)) (st : pystate)
    (self' : Datatable) (st' : pystate) :
  configure normalize_config get_field_definition self meta_config view_config
    query_config st = Ok (self', st') →
  ∃ d, read_dict (heap st) (columns self) = Ok d ∧
       length (_flat_column_names self') = length d ∧
       ∀ (i : nat) k, od_keys d !! i = Some k →
         ∃ info, get_field_definition k = Ok info ∧
                 _flat_column_names self' !! i
                 = Some (match info_fields info with
                         | f :: _ => Some f
                         | [] => info_pretty_name info
                         end).
Proof.
  intros H.
  apply configure_Ok in H
    as (cfg & opts & d & flat & ord & _ & _ & Hd & _ & Hflat & _ & _ & _ & ->).
  cbn [_flat_column_names]. exists d. split; [done|].
  apply (foldR_collect (λ k, flat_name <$> get_field_definition k)) in Hflat
    as (ys & -> & Hys); [|apply flat_column_name_step].
  rewrite app_nil_l. split.
  - apply Forall2_length in Hys. unfold od_keys in Hys.
    by rewrite length_fmap in Hys.
  - intros i k Hk. destruct (Forall2_lookup_l _ _ _ _ _ Hys Hk) as (y & Hy & Hf).
    destruct (get_field_definition k) as [info|]; [|done].
    injection Hf as <-. by exists info.
Qed.

(** The options of the sample class, and a second call of [configure] on
    its first instance. *)
Definition b_options : DatatableOptions :=
  DatatableOptions_init (Some (sample_Meta abc_model None None)).

Definition configured_first_table : Datatable :=
  Eval vm_compute in
    match configure sample_normalize_config sample_get_field_definition first_table
            (meta_defaults b_options) [] [] first_store with
    | Ok (t, _) => t
    | Raise _ => first_table
    end.

Lemma configure_flat_column_names_witness :
  ∃ d, read_dict (heap first_store) (columns first_table) = Ok d ∧
       length (_flat_column_names configured_first_table) = length d.
Proof.
  destruct (configure_flat_column_names sample_normalize_config
              sample_get_field_definition first_table (meta_defaults b_options) [] []
              first_store configured_first_table first_store)
    as (d & Hd & Hlen & _).
  - vm_compute. reflexivity.
  - by exists d.
Defined.

(** X16. Of the objects of the store [configure] writes to one only: the
    options object that [self._meta] names, which is the one of the class and
    so of all its instances. There a [None] among the hidden, search-field
    and unsortable lists becomes the empty list; a list that was given and
    every other option are kept. On the table it leaves the result set, the
    url, the view, the delegate, the model, the column dictionary and the
    records as they were and sets the configuration to what
    [normalize_config] returned for the table's model; of the members only
    [config], [_flat_column_names] and [ordering] are assigned. *)
Theorem configure_frame normalize_config get_field_definition
    (self : Datatable) (meta_config : DatatableOptions)
    (view_config query_config : list (string * pyval)) (st : pystate)
    (self' : Datatable) (st' : pystate) :
  configure normalize_config get_field_definition self meta_config view_config
    query_config st = Ok (self', st') →
  ∃ opts opts',
    read_options (heap st) (self_meta self) = Ok opts ∧
    heap st' = <[self_meta self := OOptions opts']> (heap st) ∧
    column_creation_counter st' = column_creation_counter st ∧
    opt_hidden_columns opts' = Some (default [] (opt_hidden_columns opts)) ∧
    opt_search_fields opts' = Some (default [] (opt_search_fields opts)) ∧
    opt_unsortable_columns opts' = Some (default [] (opt_unsortable_columns opts)) ∧
    (opt_model opts', opt_columns opts', opt_exclude opts', opt_ordering opts',
     opt_page_length opts', opt_search opts', opt_structure_template opts',
     opt_result_counter_id opts')
    = (opt_model opts, opt_columns opts, opt_exclude opts, opt_ordering opts,
       opt_page_length opts, opt_search opts, opt_structure_template opts,
       opt_result_counter_id opts) ∧
    (object_list self', url self', view self', fallback_callback_target self',
     model self', columns self', _records self', self_meta self')
    = (object_list self, url self, view self, fallback_callback_target self,
       model self, columns self, _records self, self_meta self) ∧
    normalize_config meta_config view_config query_config (model self)
    = Ok (config self') ∧
    (∀ name, name ∉ ["config"; "_flat_column_names"; "ordering"] →
             self_attrs self' !! name = self_attrs self !! name) ∧
    (∀ name, name ∈ ["config"; "_flat_column_names"; "ordering"] →
             is_Some (self_attrs self' !! name)).
Proof.
  intros H.
  apply configure_Ok in H
    as (cfg & opts & d & flat & ord & Hcfg & Hopts & _ & _ & _ & _ & Hheap & Hn & ->).
  exists opts, (meta_defaults opts).
  split; [done|]. split; [done|]. split; [done|].
  cbn [meta_defaults opt_hidden_columns opt_search_fields opt_unsortable_columns].
  split; [by destruct (opt_hidden_columns _)|].
  split; [by destruct (opt_search_fields _)|].
  split; [by destruct (opt_unsortable_columns _)|].
  split; [done|]. split; [done|]. split; [done|]. cbn [self_attrs]. split.
  - intros name Hname. rewrite !not_elem_of_cons in Hname.
    destruct Hname as (H1 & H2 & H3 & _).
    by rewrite !lookup_insert_ne by done.
  - intros name Hname.
    repeat (apply elem_of_cons in Hname as [->|Hname];
            [rewrite ?lookup_insert_ne by done; rewrite lookup_insert_eq; eauto|]).
    by apply elem_of_nil in Hname.
Qed.

Definition reconfigured_store : pystate :=
  Eval vm_compute in
    match configure sample_normalize_config sample_get_field_definition first_table
            (meta_defaults b_options) [] [] first_store with
    | Ok (_, st) => st
    | Raise _ => first_store
    end.

Lemma configure_frame_witness :
  ∃ opts',
    heap reconfigured_store
    = <[self_meta first_table := OOptions opts']> (heap first_store) ∧
    opt_hidden_columns opts' = Some [].
Proof.
  destruct (configure_frame sample_normalize_config sample_get_field_definition
              first_table (meta_defaults b_options) [] [] first_store
              configured_first_table reconfigured_store)
    as (opts & opts' & Hopts & Hheap & _ & Hhidden & _).
  - vm_compute. reflexivity.
  - exists opts'. split; [exact Hheap|]. rewrite Hhidden.
    vm_compute in Hopts. injection Hopts as <-. reflexivity.
Defined.

(** ** Ordering entries *)

(** X17. Whatever the spec, also with index references, every entry of the
    ordering state built by [configure] comes from an entry of the spec: its
    order index is the position of a spec entry, its key is that entry
    without the direction prefix, its column position is what
    [get_column_index] returns for the key and is never -1, and its
    direction is [desc] for an entry starting with ['-'] and [asc] for every
    other. Without a spec, or with an empty one, the state is empty. *)
Theorem ordering_entries_from_spec (flat : list (option string))
    (spec : option (list string)) (m : gmap string ColumnOrderingTuple) :
  configure_ordering flat spec = Ok m →
  (∀ k t, m !! k = Some t →
     ∃ items name, spec = Some items ∧ items !! order t = Some name ∧
       k = plain_name name ∧ name ≠ "" ∧
       get_column_index flat k = Ok (column_index t) ∧ column_index t ≠ -1 ∧
       (direction t = "desc" ∧ startswith "-" name = true ∨
        direction t = "asc" ∧ startswith "-" name = false)) ∧
  (spec = None ∨ spec = Some [] → m = ∅).
Proof.
  intros H. split.
  - intros k t Hk. destruct spec as [[|n0 items]|].
    + injection H as <-. by rewrite lookup_empty in Hk.
    + unfold configure_ordering, enumerate in H.
      destruct (ordering_loop_entries flat (n0 :: items) [] ∅ m H) with (k := k) (t := t)
        as (name & Hname & Hkey & Hne & Hidx & Hpos & Hdir); [|done|].
      { intros k' t' Hk'. by rewrite lookup_empty in Hk'. }
      exists (n0 :: items), name. repeat split; try done.
      rewrite Hdir. unfold sort_direction, startswith.
      destruct name as [|c rest]; [done|]. cbn [String.prefix].
      destruct (Ascii.ascii_dec "-" c) as [<-|Hc].
      * left. split; [done|]. by destruct rest.
      * right. split; [|done]. destruct c as [[] [] [] [] [] [] [] []]; done.
    + injection H as <-. by rewrite lookup_empty in Hk.
  - intros [->| ->]; by injection H as <-.
Qed.

Lemma ordering_entries_from_spec_witness :
  ∃ name, ["-b"; "nope"; "a"] !! 0%nat = Some name ∧ "b" = plain_name name.
Proof.
  destruct (ordering_entries_from_spec [Some "a"; Some "b"] (Some ["-b"; "nope"; "a"])
              (<["a" := {| order := 2; column_index := 0; direction := "asc" |}]>
                 (<["b" := {| order := 0; column_index := 1; direction := "desc" |}]> ∅)))
    as [Hentries _].
  - reflexivity.
  - destruct (Hentries "b" {| order := 0; column_index := 1; direction := "desc" |})
      as (items & name & Hspec & Hname & Hkey & _); [reflexivity|].
    injection Hspec as <-. by exists name.
Defined.

(** ** [Datatable.__init__] *)

(** The names that [__init__] and [configure] assign on the instance. *)
Definition instance_attribute_names : list string :=
  [ "object_list"; "url"; "view"; "fallback_callback_target"; "model"; "columns";
    "config"; "_flat_column_names"; "ordering"; "total_initial_record_count";
    "unpaged_record_count" ].

(** X18. [__init__] reads the options of the class as they are when it runs
    and, through [configure], writes the three defaults to them: after the
    construction the class's options object, which the instance shares as
    [self._meta], has [[]] for each of the three lists that was [None], so
    the class and every later instance see them. No other object that existed
    is written and no column is constructed. The table has the arguments as
    its result set, url, view and delegate and has no records yet; its model
    is the one of the options when there is one, else the [model] argument
    when that is not [None], else the [model] attribute of the result set; its
    configuration is what [normalize_config] returns for the options read,
    the keyword arguments, the query configuration and that model. The names
    assigned on the instance are members of it ([view] is the view given),
    and every other name is looked up as on the class. *)
Theorem Datatable_init_attributes normalize_config get_field_definition
    (cls : TableClass) (object_list0 : ObjectList) (url0 : string)
    (view0 callback_target : option PyObject) (model0 : option Model)
    (query_config kwargs : list (string * pyval)) (st : pystate)
    (self : Datatable) (st' : pystate) :
  Datatable_init normalize_config get_field_definition cls object_list0 url0 view0
    callback_target model0 query_config kwargs st = Ok (self, st') →
  ∃ opts,
    read_options (heap st) (_meta cls) = Ok opts ∧
    read_options (heap st') (_meta cls) = Ok (meta_defaults opts) ∧
    self_meta self = _meta cls ∧
    (∀ l, (l < length (heap st))%nat → l ≠ _meta cls → heap st' !! l = heap st !! l) ∧
    column_creation_counter st' = column_creation_counter st ∧
    (object_list self, url self, view self, fallback_callback_target self)
    = (object_list0, url0, view0, callback_target) ∧
    _records self = None ∧
    (∀ m, opt_model opts = Some m → model self = Some m) ∧
    (∀ m, opt_model opts = None → model0 = Some m → model self = Some m) ∧
    (opt_model opts = None → model0 = None → model self = ol_model object_list0) ∧
    normalize_config opts kwargs query_config (model self) = Ok (config self) ∧
    (∀ name, name ∈ instance_attribute_names → is_Some (self_attrs self !! name)) ∧
    self_attrs self !! "view" = Some (object_attr view0) ∧
    (∀ name, name ∉ instance_attribute_names →
             self_attrs self !! name = class_attrs cls !! name).
Proof.
  intros H.
  destruct (Datatable_init_Ok _ _ _ _ _ _ _ _ _ _ _ _ _ H)
    as (opts & more & st1 & d & Hopts & _ & _ & _ & Hh' & Hn & Hfields & Hmodel & Hcfg
        & _ & _ & Hattrs).
  pose proof (read_options_allocated _ _ _ Hopts) as Hm.
  injection Hfields as Hol Hurl Hview Htarget Hrecords Hmeta.
  exists opts. split; [done|]. split.
  { unfold read_options. rewrite Hh', lookup_app_l by (by rewrite length_insert).
    by rewrite list_lookup_insert_eq. }
  split; [done|]. split.
  { intros l Hl Hne. rewrite Hh', lookup_app_l by (by rewrite length_insert).
    by apply list_lookup_insert_ne. }
  split; [done|]. split; [congruence|]. split; [done|].
  split; [intros m Hm'; by rewrite Hmodel, Hm'|].
  split; [intros m Hm' ->; by rewrite Hmodel, Hm'|].
  split; [intros Hm' ->; by rewrite Hmodel, Hm'|].
  split; [done|]. rewrite Hattrs. unfold init_attrs. split; [|split].
  - intros name Hname. unfold instance_attribute_names in Hname.
    repeat (apply elem_of_cons in Hname as [->|Hname];
            [rewrite ?lookup_insert_ne by done; rewrite lookup_insert_eq; eauto|]).
    by apply elem_of_nil in Hname.
  - rewrite !lookup_insert_ne by done. by rewrite lookup_insert_eq.
  - intros name Hname. unfold instance_attribute_names in Hname.
    rewrite !not_elem_of_cons in Hname.
    destruct Hname as (? & ? & ? & ? & ? & ? & ? & ? & ? & ? & ? & _).
    by rewrite !lookup_insert_ne by done.
Qed.

Lemma Datatable_init_attributes_witness :
  read_options (heap first_store) (_meta b_class) = Ok (meta_defaults b_options) ∧
  model first_table = Some abc_model.
Proof.
  destruct (Datatable_init_attributes sample_normalize_config
              sample_get_field_definition b_class no_rows "/" None None None [] []
              b_store first_table first_store)
    as (opts & Hopts & Hopts' & _ & _ & _ & _ & _ & Hm & _).
  - exact first_table_created.
  - vm_compute in Hopts. injection Hopts as <-. split; [exact Hopts'|].
    apply Hm. reflexivity.
Defined.
(** ** Rows *)

Lemma to_text_unicode PY2 decode_utf8 text_type (value cell : pyval) :
  to_text PY2 decode_utf8 text_type value = Ok cell → ∃ s, cell = VUnicode s.
Proof.
  unfold to_text. intros H.
  destruct (match value with VTuple _ | VList _ => getitem value 0 | _ => Ok value end)
    as [v1|]; [|done].
  cbn [mbind result_bind] in H.
  destruct (match v1 with
            | VStr s => if PY2 then VUnicode <$> decode_utf8 s else Ok v1
            | _ => Ok v1
            end) as [v2|]; [|done].
  injection H as <-. eauto.
Qed.

Lemma record_cell_unicode column_value PY2 decode_utf8 text_type self obj i column cell :
  record_cell column_value PY2 decode_utf8 text_type self obj i column = Ok cell →
  ∃ s, cell = VUnicode s.
Proof.
  unfold record_cell. destruct column as [column|]; [|done]. intros H.
  destruct (column_value _ _ _) as [pair|]; [|done]. cbn [mbind result_bind] in H.
  destruct (getitem pair 1) as [value|]; [|done]. cbn [mbind result_bind] in H.
  destruct (_get_processor_method _ _ _) as [processor|]; [|done].
  cbn [mbind result_bind] in H.
  destruct (if attr_truthy processor then _ else _) as [v|]; [|done].
  by apply to_text_unicode in H.
Qed.

Lemma record_fold_keys column_value PY2 decode_utf8 text_type self obj
    (items : list (string * option Column)) :
  ∀ i0 (data0 data : gmap string pyval),
    foldR (record_step column_value PY2 decode_utf8 text_type self obj)
          data0 (enumerate_from i0 items) = Ok data →
    ∀ k, is_Some (data !! k) ↔
         is_Some (data0 !! k) ∨ ∃ j, (j < length items)%nat ∧ k = pretty (i0 + j)%nat.
Proof.
  induction items as [|[name column] items IH]; intros i0 data0 data H k.
  { injection H as <-. split; [by left|]. intros [H|(j & Hj & _)]; [done|].
    simpl in Hj. lia. }
  cbn [enumerate_from foldR] in H.
  destruct (record_step _ _ _ _ _ _ _ (i0, _)) as [data1|] eqn:Hstep; [|done].
  cbn [mbind result_bind] in H.
  apply record_step_inv in Hstep as (cell & _ & ->).
  rewrite (IH _ _ _ H k). cbn [length]. split.
  - intros [Hk|(j & Hj & ->)].
    + destruct (decide (k = pretty i0)) as [->|Hne].
      * right. exists 0%nat. split; [lia|]. by rewrite Nat.add_0_r.
      * left. by rewrite lookup_insert_ne in Hk.
    + right. exists (S j). split; [lia|]. f_equal. lia.
  - intros [Hk|(j & Hj & ->)].
    + left. destruct (decide (k = pretty i0)) as [->|Hne].
      * by rewrite lookup_insert_eq.
      * by rewrite lookup_insert_ne.
    + destruct j as [|j].
      * left. rewrite Nat.add_0_r. by rewrite lookup_insert_eq.
      * right. exists j. split; [lia|]. f_equal. lia.
Qed.

Lemma record_fold_other column_value PY2 decode_utf8 text_type self obj
    (items : list (string * option Column)) :
  ∀ i0 (data0 data : gmap string pyval),
    foldR (record_step column_value PY2 decode_utf8 text_type self obj)
          data0 (enumerate_from i0 items) = Ok data →
    ∀ k, (∀ i : nat, k ≠ pretty i) → data !! k = data0 !! k.
Proof.
  induction items as [|[name column] items IH]; intros i0 data0 data H k Hk.
  { by injection H as <-. }
  cbn [enumerate_from foldR] in H.
  destruct (record_step _ _ _ _ _ _ _ (i0, _)) as [data1|] eqn:Hstep; [|done].
  cbn [mbind result_bind] in H.
  apply record_step_inv in Hstep as (cell & _ & ->).
  rewrite (IH _ _ _ H k Hk). by apply lookup_insert_ne.
Qed.

Lemma pretty_nat_not_word (i : nat) (c : ascii) (rest : string) :
  is_digit c = false → pretty i ≠ String c rest.
Proof.
  intros Hc Heq. destruct (pretty_nat_digits i) as (Hall & _).
  rewrite Heq in Hall. cbn [all_chars] in Hall. by rewrite Hc in Hall.
Qed.

Lemma get_record_data_other column_value PY2 decode_utf8 text_type h self obj data :
  get_record_data column_value PY2 decode_utf8 text_type h self obj = Ok data →
  ∀ k, (∀ i : nat, k ≠ pretty i) →
       data !! k
       = ({[ "pk" := pk obj; "_extra_data" := VDict [] ]} : gmap string pyval) !! k.
Proof.
  unfold get_record_data. intros H k Hk.
  destruct (column_items h (columns self)) as [items|]; [|done].
  cbn [mbind result_bind] in H. unfold enumerate in H.
  by apply (record_fold_other _ _ _ _ _ _ _ _ _ _ H).
Qed.

(** X19. A row that [get_record_data] returns has the object's primary key
    under ["pk"], an empty dictionary under ["_extra_data"], and for each
    column of the table, by position, a cell under the decimal numeral of the
    position; every cell is text, and the row has no other key. *)
Theorem get_record_data_keys column_value PY2 decode_utf8 text_type
    (h : list obj) (self : Datatable) (obj : Obj) (data : gmap string pyval) :
  get_record_data column_value PY2 decode_utf8 text_type h self obj = Ok data →
  ∃ items, column_items h (columns self) = Ok items ∧
    data !! "pk" = Some (pk obj) ∧
    data !! "_extra_data" = Some (VDict []) ∧
    (∀ i : nat, (i < length items)%nat → ∃ s, data !! pretty i = Some (VUnicode s)) ∧
    (∀ k, is_Some (data !! k) ↔
          k = "pk" ∨ k = "_extra_data" ∨ ∃ i : nat, (i < length items)%nat ∧ k = pretty i).
Proof.
  intros H. pose proof H as Hdata. unfold get_record_data in H.
  destruct (column_items h (columns self)) as [items|] eqn:Hitems; [|done].
  cbn [mbind result_bind] in H. unfold enumerate in H.
  exists items. split; [done|].
  set (data0 := ({[ "pk" := pk obj; "_extra_data" := VDict [] ]} : gmap string pyval)) in *.
  assert (∀ k, is_Some (data0 !! k) ↔ k = "pk" ∨ k = "_extra_data") as Hdom0.
  { intros k. unfold data0. destruct (decide (k = "pk")) as [->|Hpk].
    { rewrite lookup_insert_eq. split; [by left|done]. }
    rewrite lookup_insert_ne by done.
    destruct (decide (k = "_extra_data")) as [->|Hextra].
    { rewrite lookup_singleton_eq. split; [by right|done]. }
    rewrite lookup_singleton_ne by done. split; [by intros [? ?]|].
    by intros [?|?]. }
  assert (∀ k, (∀ i : nat, k ≠ pretty i) → data !! k = data0 !! k) as Hframe.
  { intros k Hk. by apply (get_record_data_other _ _ _ _ _ _ _ _ Hdata). }
  split; [|split; [|split]].
  - rewrite Hframe; [done|]. intros i. symmetry. by apply pretty_nat_not_word.
  - rewrite Hframe; [done|]. intros i. symmetry. by apply pretty_nat_not_word.
  - intros i Hi. destruct (lookup_lt_is_Some_2 items i Hi) as [[name column] Hlook].
    destruct (get_record_data_cell _ _ _ _ _ _ _ _ _ _ _ _ Hdata Hitems Hlook)
      as (cell & Hcell & Hget).
    apply record_cell_unicode in Hcell as [s ->]. eauto.
  - intros k. rewrite (record_fold_keys _ _ _ _ _ _ _ _ _ _ H), Hdom0. simpl. tauto.
Qed.

Lemma get_record_data_keys_witness :
  (<["0" := VUnicode "custom"]> {[ "pk" := VInt 7; "_extra_data" := VDict [] ]}
   : gmap string pyval) !! "pk" = Some (VInt 7).
Proof.
  destruct (get_record_data_keys sample_column_value false Ok sample_text_type
              region_type_store region_type_table north
              (<["0" := VUnicode "custom"]>
                 {[ "pk" := VInt 7; "_extra_data" := VDict [] ]}))
    as (items & _ & Hpk & _).
  - reflexivity.
  - exact Hpk.
Defined.

(** ** [get_records] *)

Lemma get_records_Ok apply_options column_value PY2 decode_utf8 text_type
    h self rows self' :
  get_records apply_options column_value PY2 decode_utf8 text_type h self
  = Ok (rows, self') →
  ∃ page,
    match _records self with
    | Some _ => self' = self
    | None => ∃ r, apply_options (object_list self) self = Ok r ∧
                   self' = set_records self r
    end ∧
    _get_current_page self' = Ok page ∧
    Forall2 (λ obj row,
               get_record_data column_value PY2 decode_utf8 text_type h self' obj = Ok row)
            page rows.
Proof.
  unfold get_records. intros H.
  destruct (match _records self with
            | Some _ => Ok self
            | None => populate_records apply_options self
            end) as [self1|] eqn:Hself; [|done].
  cbn [mbind result_bind] in H.
  destruct (_get_current_page self1) as [page|] eqn:Hpage; [|done].
  cbn [mbind result_bind] in H.
  destruct (foldR _ [] page) as [rows1|] eqn:Hrows; [|done].
  injection H as <- <-. exists page. split; [|split; [done|]].
  - destruct (_records self); [by injection Hself as <-|].
    unfold populate_records in Hself.
    destruct (apply_options _ _) as [r|]; [|done]. injection Hself as <-. eauto.
  - apply (foldR_collect
             (get_record_data column_value PY2 decode_utf8 text_type h self1)) in Hrows
      as (ys & -> & Hys); [done|].
    intros acc x. by destruct (get_record_data _ _ _ _ _ _ _).
Qed.

(** X20. [get_records] returns one row per object of the current page, in
    the page's order, each the [get_record_data] of its object; any error of
    the page computation or of a row is the error of the call. *)
Theorem get_records_rows apply_options column_value PY2 decode_utf8 text_type
    (h : list obj) (self : Datatable) (rows : list (gmap string pyval))
    (self' : Datatable) :
  get_records apply_options column_value PY2 decode_utf8 text_type h self
  = Ok (rows, self') →
  ∃ page, _get_current_page self' = Ok page ∧
          length rows = length page ∧
          ∀ (i : nat) obj, page !! i = Some obj →
            ∃ row, rows !! i = Some row ∧
                   get_record_data column_value PY2 decode_utf8 text_type h self' obj
                   = Ok row ∧
                   row !! "pk" = Some (pk obj).
Proof.
  intros H. apply get_records_Ok in H as (page & _ & Hpage & Hrows).
  exists page. split; [done|]. split; [symmetry; by eapply Forall2_length|].
  intros i obj Hi. destruct (Forall2_lookup_l _ _ _ _ _ Hrows Hi) as (row & Hrow & Hdata).
  exists row. split; [done|]. split; [done|].
  rewrite (get_record_data_other _ _ _ _ _ _ _ _ Hdata); [done|].
  intros j. symmetry. by apply pretty_nat_not_word.
Qed.

(** A store with an empty column dictionary and the options of a class
    without [Meta]. *)
Definition plain_store : list obj :=
  [ODict []; OOptions (meta_defaults (DatatableOptions_init None))].

(** The sample table with two records and a page of one. *)
Definition two_rows_table : Datatable :=
  populated_table [north; row 8] 1 1.

Definition apply_nothing (object_list : ObjectList) (self : Datatable)
    : result (list Obj) :=
  Ok (ol_items object_list).

Lemma get_records_rows_witness :
  ∃ page, _get_current_page two_rows_table = Ok page ∧ length page = 1%nat.
Proof.
  destruct (get_records_rows apply_nothing sample_column_value false Ok sample_text_type
              plain_store two_rows_table
              [ {[ "pk" := VInt 8; "_extra_data" := VDict [] ]} ] two_rows_table)
    as (page & Hpage & Hlen & _).
  - reflexivity.
  - exists page. split; [exact Hpage|]. rewrite <- Hlen. reflexivity.
Defined.

(** X21. The records are fetched once. A call on a table without records
    stores what [apply_options] returns for the result set; a call on a table
    that has records leaves the table as it is. In both cases a further call
    on the returned table gives the same rows and the same table whatever
    [apply_options] would return by then: it is not asked again. *)
Theorem get_records_populates_once apply_options column_value PY2 decode_utf8 text_type
    (h : list obj) (self : Datatable) (rows : list (gmap string pyval))
    (self' : Datatable) :
  get_records apply_options column_value PY2 decode_utf8 text_type h self
  = Ok (rows, self') →
  (_records self = None →
   ∃ r, apply_options (object_list self) self = Ok r ∧ _records self' = Some r) ∧
  (is_Some (_records self) → self' = self) ∧
  (∀ apply_options',
     get_records apply_options' column_value PY2 decode_utf8 text_type h self'
     = Ok (rows, self')).
Proof.
  intros H. pose proof H as H0.
  apply get_records_Ok in H as (page & Hself & Hpage & Hrows).
  split; [|split].
  - intros Hnone. rewrite Hnone in Hself. destruct Hself as (r & Hr & ->). eauto.
  - intros [r Hr]. by rewrite Hr in Hself.
  - intros apply_options'.
    assert (∃ r, _records self' = Some r) as [r Hr].
    { destruct (_records self) as [r|] eqn:E.
      - subst self'. eauto.
      - destruct Hself as (r & _ & ->). by exists r. }
    unfold get_records. rewrite Hr. cbn [mbind result_bind]. rewrite Hpage.
    cbn [mbind result_bind].
    assert (foldR (λ acc obj,
                     row ← get_record_data column_value PY2 decode_utf8 text_type h
                             self' obj;
                     mret (acc ++ [row])) [] page = Ok rows) as ->; [|done].
    apply (foldR_collect
             (get_record_data column_value PY2 decode_utf8 text_type h self')).
    + intros acc x. by destruct (get_record_data _ _ _ _ _ _ _).
    + by exists rows.
Qed.

Definition unpopulated_table : Datatable :=
  {| object_list := {| ol_items := [north; row 8]; ol_model := None |};
     url := "/"; view := None; fallback_callback_target := None; model := None;
     columns := 0%nat; config := sample_config 1 1;
     self_meta := 1%nat;
     _flat_column_names := []; ordering := ∅; _records := None;
     self_attrs := ∅ |}.

Lemma get_records_populates_once_witness :
  get_records (λ _ _, Raise TypeError) sample_column_value false Ok sample_text_type
    plain_store (set_records unpopulated_table [north; row 8])
  = Ok ([ {[ "pk" := VInt 8; "_extra_data" := VDict [] ]} ],
        set_records unpopulated_table [north; row 8]).
Proof.
  apply (get_records_populates_once apply_nothing sample_column_value false Ok
           sample_text_type plain_store unpopulated_table
           [ {[ "pk" := VInt 8; "_extra_data" := VDict [] ]} ]
           (set_records unpopulated_table [north; row 8])).
  reflexivity.
Defined.
(** ** Iteration *)

(** [Datatable.__iter__]: the values of [self.columns], in the dictionary's
    order. *)
Definition Datatable_iter (h : list obj) (self : Datatable)
    : result (list (option Column)) :=
  items ← column_items h (columns self);
  mret (items.*2).

(** What [column_items] reads for one entry of the dictionary. *)
Definition read_entry (h : list obj) (item : string * option loc)
    : result (string * option Column) :=
  match item.2 with
  | None => Ok (item.1, None)
  | Some l => c ← read_column h l; Ok (item.1, Some c)
  end.

Lemma column_items_entries (h : list obj) (d : loc) (its : list (string * option Column)) :
  column_items h d = Ok its ↔
  ∃ items, read_dict h d = Ok items ∧
           Forall2 (λ item it, read_entry h item = Ok it) items its.
Proof.
  unfold column_items. destruct (read_dict h d) as [items|]; cbn [mbind result_bind].
  - rewrite (foldR_collect (read_entry h)).
    + split.
      * intros (ys & -> & Hys). by exists items.
      * intros (items' & [= <-] & Hys). by exists its.
    + intros acc [k [l|]]; unfold read_item, read_entry; cbn [fst snd]; [|done].
      by destruct (read_column h l).
  - split; [done|]. by intros (items & ? & _).
Qed.

(** X22. Iterating over a table gives the columns of its dictionary in
    order, and that is the order of the cells of a row: the cell under the
    numeral of [i] is the one computed for the [i]-th column of the
    iteration. For a table as [__init__] returns it, there are as many
    columns as the class has and as the table has flat column names, and each
    has the contents of the class's column at the same position. *)
Theorem iteration_order normalize_config get_field_definition column_value PY2
    decode_utf8 text_type (cls : TableClass) (object_list0 : ObjectList) (url0 : string)
    (view0 callback_target : option PyObject) (model0 : option Model)
    (query_config kwargs : list (string * pyval)) (st : pystate)
    (self : Datatable) (st' : pystate) (items : list (string * option loc)) :
  read_dict (heap st) (base_columns cls) = Ok items →
  columns_present (heap st) items →
  Datatable_init normalize_config get_field_definition cls object_list0 url0 view0
    callback_target model0 query_config kwargs st = Ok (self, st') →
  ∃ cols, Datatable_iter (heap st') self = Ok cols ∧
    length cols = length items ∧
    length (_flat_column_names self) = length cols ∧
    (∀ (i : nat) k l, items !! i = Some (k, Some l) →
       ∃ c, read_column (heap st) l = Ok c ∧ cols !! i = Some (Some c)) ∧
    (∀ obj data (i : nat) column,
       get_record_data column_value PY2 decode_utf8 text_type (heap st') self obj
       = Ok data →
       cols !! i = Some column →
       ∃ cell, record_cell column_value PY2 decode_utf8 text_type self obj i column
               = Ok cell ∧
               data !! pretty i = Some cell).
Proof.
  intros Hd Hwf Hinit.
  destruct (Datatable_init_copy _ _ _ _ _ _ _ _ _ _ _ _ _ _ Hd Hwf Hinit)
    as (_ & _ & Hitems & _).
  destruct (Datatable_init_Ok _ _ _ _ _ _ _ _ _ _ _ _ _ Hinit)
    as (opts & more & st1 & d & Hopts & _ & Hh1 & Hread & Hh' & _ & _ & _ & _ & Hflat & _).
  assert (heap st' = <[_meta cls := OOptions (meta_defaults opts)]> (heap st1)) as Hst'.
  { rewrite Hh', Hh1. symmetry. apply insert_app_l.
    by apply read_options_allocated in Hopts. }
  clear Hinit Hh' Hh1 Hopts.
  apply (foldR_collect (λ k, flat_name <$> get_field_definition k)) in Hflat
    as (ys & -> & Hys); [|apply flat_column_name_step].
  apply Forall2_length in Hys. unfold od_keys in Hys. rewrite length_fmap in Hys.
  assert (∃ its, column_items (heap st) (base_columns cls) = Ok its ∧
                 Forall2 (λ item it, read_entry (heap st) item = Ok it) items its)
    as (its & Hits & Hentries).
  { assert (∃ its, Forall2 (λ item it, read_entry (heap st) item = Ok it) items its)
      as [its Hits].
    { clear Hd. induction items as [|[k v] items IH]; [by exists []|].
      destruct IH as [its Hits].
      { intros k' l' H. apply (Hwf k' l'). by apply list_elem_of_further. }
      destruct v as [l0|].
      - destruct (Hwf k l0) as [c Hc]; [apply list_elem_of_here|].
        exists ((k, Some c) :: its). constructor; [|done].
        unfold read_entry. cbn [fst snd]. by rewrite Hc.
      - exists ((k, None) :: its). by constructor. }
    exists its. split; [|done]. apply column_items_entries. eauto. }
  rewrite Hits in Hitems.
  pose proof Hitems as Hcopy. apply column_items_entries in Hcopy as (d' & Hd' & Hcopy).
  rewrite Hst' in Hd'. apply read_dict_insert_options in Hd' as [Hd' _].
  rewrite Hread in Hd'. injection Hd' as <-.
  exists (its.*2). split; [|split; [|split; [|split]]].
  - unfold Datatable_iter. by rewrite Hitems.
  - rewrite length_fmap. symmetry. by eapply Forall2_length.
  - rewrite app_nil_l, length_fmap, <- Hys. by eapply Forall2_length.
  - intros i k l0 Hi.
    destruct (Forall2_lookup_l _ _ _ _ _ Hentries Hi) as (it & Hit & Hentry).
    unfold read_entry in Hentry. cbn [fst snd] in Hentry.
    destruct (read_column (heap st) l0) as [c|]; [|done]. injection Hentry as <-.
    exists c. split; [done|]. by rewrite list_lookup_fmap, Hit.
  - intros obj data i column Hdata Hi. rewrite list_lookup_fmap in Hi.
    destruct (its !! i) as [[name column']|] eqn:Hit; [|done]. injection Hi as ->.
    apply (get_record_data_cell _ _ _ _ _ _ _ _ _ _ _ _ Hdata Hitems Hit).
Qed.

Lemma iteration_order_witness :
  ∃ cols, Datatable_iter (heap first_store) first_table = Ok cols ∧
          length cols = 3%nat.
Proof.
  destruct (iteration_order sample_normalize_config sample_get_field_definition
              sample_column_value false Ok sample_text_type b_class no_rows "/" None None
              None [] [] b_store first_table first_store
              (dict_at (heap b_store) (base_columns b_class)))
    as (cols & Hiter & Hlen & _).
  - reflexivity.
  - intros k l H. vm_compute in H.
    repeat (apply elem_of_cons in H as [H|H];
            [injection H as -> ->; eexists; reflexivity|]).
    by apply elem_of_nil in H.
  - exact first_table_created.
  - exists cols. split; [exact Hiter|]. rewrite Hlen. reflexivity.
Defined.
(** ** Declared columns *)

(** X23. When the column objects of the class body and the dictionaries of
    the bases are where the references say, [get_declared_columns] returns a
    new dictionary and changes nothing else. It is built from the entries of
    the bases, first base first, followed by the class's own columns in the
    order of their creation counters: under each name it holds the value of
    the last of these entries for the name, so a column of the class replaces
    an inherited one and a later base replaces an earlier one; when no name
    occurs twice the dictionary is that list of entries. *)
Theorem get_declared_columns_merge (bases : list BaseClass) (attrs : ClassAttrs)
    (with_base_columns : bool) (st : pystate) :
  columns_allocated (heap st) attrs →
  bases_allocated (heap st) with_base_columns bases →
  let own := sorted (λ x : string * loc, counter_at (heap st) x.2) (attr_columns attrs) in
  let entries :=
    inherited_columns (heap st) with_base_columns bases
    ++ ((λ x : string * loc, (x.1, Some x.2)) <$> own) in
  ∃ d,
    get_declared_columns bases attrs with_base_columns st
    = Ok (length (heap st),
          {| heap := heap st ++ [ODict d];
             column_creation_counter := column_creation_counter st |}) ∧
    NoDup (od_keys d) ∧
    (∀ k, k ∈ od_keys d ↔ k ∈ entries.*1) ∧
    (∀ k, od_get d k = od_get (reverse entries) k) ∧
    (NoDup entries.*1 → d = entries) ∧
    own ≡ₚ attr_columns attrs ∧
    StronglySorted (λ x y, counter_at (heap st) x.2 ≤ counter_at (heap st) y.2) own.
Proof.
  intros Hcols Hbases own entries.
  exists (declared_dict (heap st) bases attrs with_base_columns).
  split; [by apply get_declared_columns_allocated|].
  unfold declared_dict, local_columns. fold own. fold entries.
  split; [apply OrderedDict_NoDup|]. split; [|split; [|split; [|split]]].
  - intros k. unfold OrderedDict. rewrite od_keys_update. split; [|by right].
    intros [H|H]; [by apply elem_of_nil in H|done].
  - intros k. unfold OrderedDict. rewrite od_get_update.
    by destruct (od_get (reverse entries) k).
  - apply OrderedDict_NoDup_id.
  - apply sorted_Permutation.
  - apply (sorted_StronglySorted (λ x : string * loc, counter_at (heap st) x.2)).
Qed.

(** A class body with two columns written in the order [z], [y], over a
    store where [y] was created first. *)
Definition zy_store : pystate :=
  {| heap := [ OColumn {| col_class := TextColumn; col_name := None; col_sources := [];
                          col_label := None; col_processor := None;
                          col_creation_counter := 1 |};
               OColumn {| col_class := TextColumn; col_name := None; col_sources := [];
                          col_label := None; col_processor := None;
                          col_creation_counter := 0 |} ];
     column_creation_counter := 2 |}.

Definition zy_body : ClassAttrs := class_body [("z", 0%nat); ("y", 1%nat)] None.

Lemma get_declared_columns_merge_witness :
  get_declared_columns [] zy_body false zy_store
  = Ok (2%nat,
        {| heap := heap zy_store ++ [ODict [("y", Some 1%nat); ("z", Some 0%nat)]];
           column_creation_counter := 2 |}).
Proof.
  destruct (get_declared_columns_merge [] zy_body false zy_store)
    as (d & Hcall & _ & _ & _ & Hd & _).
  - intros n l H. vm_compute in H.
    repeat (apply elem_of_cons in H as [H|H];
            [injection H as -> ->; eexists; reflexivity|]).
    by apply elem_of_nil in H.
  - intros base d Hbase. by apply elem_of_nil in Hbase.
  - rewrite Hcall, Hd; [reflexivity|].
    apply (bool_decide_unpack _). by vm_compute.
Defined.

(** ** Classes without a model *)

(** X24. Without a model in the options nothing is derived and nothing is
    checked: on a store where the references of the class body and of the
    bases are good, class creation returns a class whose [base_columns] is
    the very dictionary [declared_columns]. That dictionary and the options
    object of the class, built from the [Meta] found, are the two new objects
    of the store, in this order. *)
Theorem class_without_model (name : string) (bases : list BaseClass)
    (attrs : ClassAttrs) (st : pystate) :
  columns_allocated (heap st) attrs →
  bases_allocated (heap st) false bases →
  opt_model (DatatableOptions_init (getattr_Meta bases attrs)) = None →
  ∃ cls d,
    let st' :=
      {| heap := heap st
                 ++ [ODict d; OOptions (DatatableOptions_init (getattr_Meta bases attrs))];
         column_creation_counter := column_creation_counter st |} in
    DatatableMetaclass_new name bases attrs st = Ok (cls, st') ∧
    base_columns cls = declared_columns cls ∧
    declared_columns cls = length (heap st) ∧
    _meta cls = S (length (heap st)) ∧
    read_options (heap st') (_meta cls)
    = Ok (DatatableOptions_init (getattr_Meta bases attrs)) ∧
    class_name cls = name ∧
    d = declared_dict (heap st) bases attrs false.
Proof.
  intros Hcols Hbases Hmodel. unfold DatatableMetaclass_new.
  rewrite (bind_step _ _ _ _ _ (get_declared_columns_allocated _ _ _ _ Hcols Hbases)).
  cbn zeta. rewrite Hmodel.
  set (opts := DatatableOptions_init (getattr_Meta bases attrs)).
  set (d := declared_dict (heap st) bases attrs false).
  assert (alloc (OOptions opts)
            {| heap := heap st ++ [ODict d];
               column_creation_counter := column_creation_counter st |}
          = Ok (S (length (heap st)),
                {| heap := heap st ++ [ODict d; OOptions opts];
                   column_creation_counter := column_creation_counter st |})) as Halloc.
  { unfold alloc. cbn [heap column_creation_counter].
    rewrite length_app, <- app_assoc, Nat.add_1_r. done. }
  rewrite (bind_step _ _ _ _ _ Halloc).
  set (st1 := {| heap := heap st ++ [ODict d; OOptions opts];
                 column_creation_counter := column_creation_counter st |}).
  assert (get_dict (length (heap st)) st1 = Ok (d, st1)) as Hd.
  { unfold get_dict, read_dict, st1. cbn [heap].
    by rewrite lookup_app_r, Nat.sub_diag by lia. }
  rewrite (bind_step _ _ st1 (length (heap st)) st1) by done.
  rewrite !(bind_step _ _ _ _ _ Hd).
  eexists _, d. cbn zeta. split; [reflexivity|].
  cbn [base_columns declared_columns _meta class_name heap].
  repeat split. unfold read_options.
  rewrite lookup_app_r by lia. by rewrite Nat.sub_succ_l, Nat.sub_diag by lia.
Qed.

Lemma class_without_model_witness :
  ∃ cls st', DatatableMetaclass_new "Plain" [] zy_body zy_store = Ok (cls, st') ∧
             base_columns cls = declared_columns cls ∧ _meta cls = 3%nat.
Proof.
  destruct (class_without_model "Plain" [] zy_body zy_store)
    as (cls & d & Hnew & Halias & _ & Hmeta & _).
  - intros n l H. vm_compute in H.
    repeat (apply elem_of_cons in H as [H|H];
            [injection H as -> ->; eexists; reflexivity|]).
    by apply elem_of_nil in H.
  - intros base d Hbase. by apply elem_of_nil in Hbase.
  - reflexivity.
  - eauto.
Defined.
(** ** Classes with a model *)

Lemma filter_agree {A} (P Q : A → Prop) `{!∀ x, Decision (P x), !∀ x, Decision (Q x)}
    (l : list A) :
  (∀ x, x ∈ l → P x ↔ Q x) → filter P l = filter Q l.
Proof.
  induction l as [|a l IH]; intros Hagree; [done|].
  rewrite !filter_cons, IH by (intros x Hx; apply Hagree; by right).
  destruct (decide (P a)) as [HP|HP], (decide (Q a)) as [HQ|HQ]; try done.
  - destruct HQ. by apply (Hagree a); [left|].
  - destruct HP. by apply (Hagree a); [left|].
Qed.

Section ordered_dict_keys.
Context {V : Type}.
Implicit Types d items : list (string * V).

Lemma od_keys_set_exact d k v :
  od_keys (od_set d k v) = if decide (k ∈ od_keys d) then od_keys d else od_keys d ++ [k].
Proof.
  destruct (decide (k ∈ od_keys d)) as [Hin|Hout].
  - unfold od_keys in *. induction d as [|[k' v'] d IH]; [by apply elem_of_nil in Hin|].
    cbn [od_set]. destruct (decide (k' = k)) as [->|Hne]; [done|].
    rewrite !fmap_cons. f_equal. apply IH.
    rewrite fmap_cons in Hin. apply elem_of_cons in Hin as [Heq|Hin]; [|done].
    by destruct Hne.
  - rewrite od_set_fresh by done. unfold od_keys. by rewrite fmap_app.
Qed.

Lemma od_keys_update_exact items : ∀ d,
  NoDup (od_keys items) →
  od_keys (od_update d items)
  = od_keys d ++ filter (λ k, k ∉ od_keys d) (od_keys items).
Proof.
  unfold od_update.
  induction items as [|[k v] items IH]; intros d Hnodup; cbn [foldl].
  { by rewrite app_nil_r. }
  change (od_keys ((k, v) :: items)) with (k :: od_keys items) in *.
  apply NoDup_cons in Hnodup as [Hk Hnodup].
  rewrite IH by done. cbn [fst snd]. rewrite od_keys_set_exact, filter_cons.
  destruct (decide (k ∈ od_keys d)) as [Hin|Hout].
  - by rewrite decide_False by (by intros H; apply H).
  - rewrite decide_True by done. rewrite <- app_assoc. cbn [app]. do 2 f_equal.
    apply filter_agree. intros k' Hk'.
    rewrite not_elem_of_app, list_elem_of_singleton. split; [tauto|].
    intros H. split; [done|]. by intros ->.
Qed.
End ordered_dict_keys.

(** X25. In a class created with a model, [base_columns] and
    [declared_columns] are two dictionaries. The assembled one keeps the
    names that [columns_for_model] returned in their order, so a declared
    column that takes the place of a model field stands at the field's
    position; the declared names that are new follow, in the order of the
    declared dictionary. *)
Theorem assembled_key_order (name : string) (bases : list BaseClass)
    (attrs : ClassAttrs) (st : pystate) (cls : TableClass) (st' : pystate)
    (opts : DatatableOptions) (model : Model) :
  DatatableMetaclass_new name bases attrs st = Ok (cls, st') →
  read_options (heap st') (_meta cls) = Ok opts →
  opt_model opts = Some model →
  ∃ declared auto assembled st1 st2,
    columns_for_model model (opt_columns opts) (opt_exclude opts) st1
      = Ok (base_columns cls, st2) ∧
    read_dict (heap st2) (base_columns cls) = Ok auto ∧
    read_dict (heap st') (declared_columns cls) = Ok declared ∧
    read_dict (heap st') (base_columns cls) = Ok assembled ∧
    base_columns cls ≠ declared_columns cls ∧
    od_keys assembled
    = od_keys auto ++ filter (λ k, k ∉ od_keys auto) (od_keys declared).
Proof.
  intros Hnew Hopts Hmodel.
  destruct (DatatableMetaclass_new_options _ _ _ _ _ _ Hnew) as (Hopts' & _).
  rewrite Hopts in Hopts'. injection Hopts' as ->.
  destruct (DatatableMetaclass_new_model _ _ _ _ _ _ _ Hnew Hmodel)
    as (dd & st0 & st1 & st2 & st4 & Hdl & _ & _ & Hh1 & Hnodup & _ & _ & Hc & _ & Hcl
        & Hread & _ & _ & _ & Hdd & Hasm & _).
  cbn zeta in *.
  assert (length (heap st1) = S (S (length (heap st)))) as Hlen1.
  { rewrite Hh1, length_app. simpl. lia. }
  eexists dd, _, _, st1, st2. split; [exact Hc|]. split; [exact Hread|].
  split; [exact Hdd|]. split; [exact Hasm|]. split; [lia|].
  by apply od_keys_update_exact.
Qed.

Lemma assembled_key_order_witness :
  ∃ assembled, read_dict (heap b_store) (base_columns b_class) = Ok assembled ∧
               base_columns b_class ≠ declared_columns b_class.
Proof.
  destruct (assembled_key_order "BTable" [as_base Datatable_class] b_body store_with_b
              b_class b_store b_options abc_model)
    as (declared & auto & assembled & st1 & st2 & _ & _ & _ & Hasm & Hne & _).
  - exact b_class_created.
  - reflexivity.
  - reflexivity.
  - exists assembled. split; [exact Hasm|exact Hne].
Defined.
(** ** What class creation does to a declared column *)

(** Lines 131-136 for one column object: the name is set, empty sources
    become the name, and a falsy label becomes the pretty verbose name of the
    model field of that name. *)
Definition normalised (model : Model) (name : string) (c : Column) : result Column :=
  let c := with_name name c in
  let c := if bool_decide (col_sources c = []) then with_sources [name] c else c in
  if falsy_str (col_label c) then
    field ← get_field_by_name model name;
    Ok (with_label (pretty_name (verbose_name field)) c)
  else Ok c.

Lemma read_column_insert (h : list obj) (l : loc) (c c' : Column) :
  read_column h l = Ok c → read_column (<[l := OColumn c']> h) l = Ok c'.
Proof.
  unfold read_column. intros H. destruct (h !! l) eqn:E; [|done].
  apply lookup_lt_Some in E. by rewrite list_lookup_insert_eq.
Qed.

Lemma set_column_column (l : loc) (f : Column → Column) (s : pystate) (c : Column) :
  read_column (heap s) l = Ok c →
  set_column l f s
  = Ok (tt, {| heap := <[l := OColumn (f c)]> (heap s);
               column_creation_counter := column_creation_counter s |}).
Proof.
  intros H. unfold set_column. apply bind_ok. exists c, s. split; [|done].
  unfold get_column. by rewrite H.
Qed.

Lemma declared_column_step_column model k l s c :
  read_column (heap s) l = Ok c →
  declared_column_step model (k, Some l) s
  = c' ← normalised model k c;
    Ok (tt, {| heap := <[l := OColumn c']> (heap s);
               column_creation_counter := column_creation_counter s |}).
Proof.
  intros Hc. unfold declared_column_step, normalised. cbn zeta.
  rewrite (bind_step _ _ _ _ _ (set_column_column l (with_name k) s c Hc)).
  set (s1 := {| heap := <[l := OColumn (with_name k c)]> (heap s);
                column_creation_counter := column_creation_counter s |}).
  assert (read_column (heap s1) l = Ok (with_name k c)) as H1
    by (by eapply read_column_insert).
  rewrite (bind_step _ _ s1 (with_name k c) s1) by (unfold get_column; by rewrite H1).
  set (c2 := if bool_decide (col_sources (with_name k c) = [])
             then with_sources [k] (with_name k c) else with_name k c).
  set (s2 := {| heap := <[l := OColumn c2]> (heap s);
                column_creation_counter := column_creation_counter s |}).
  assert ((if bool_decide (col_sources (with_name k c) = [])
           then set_column l (with_sources [k]) else mret tt) s1 = Ok (tt, s2)) as H2.
  { unfold c2, s2. destruct (bool_decide _).
    - rewrite (set_column_column _ _ _ _ H1). unfold s1. cbn [heap column_creation_counter].
      by rewrite list_insert_insert_eq.
    - done. }
  rewrite (bind_step _ _ _ _ _ H2).
  assert (read_column (heap s2) l = Ok c2) as H3 by (by eapply read_column_insert).
  rewrite (bind_step _ _ s2 c2 s2) by (unfold get_column; by rewrite H3).
  destruct (falsy_str (col_label c2)); [|done].
  unfold lift. destruct (get_field_by_name model k) as [field|e]; [|done].
  cbn [fmap result_fmap mbind result_bind].
  rewrite (bind_step _ _ s2 field s2) by done.
  rewrite (set_column_column _ _ _ _ H3). unfold s2. cbn [heap column_creation_counter].
  by rewrite list_insert_insert_eq.
Qed.

Lemma declared_column_step_Ok model k v s u s' :
  declared_column_step model (k, v) s = Ok (u, s') →
  ∃ l c c', v = Some l ∧ read_column (heap s) l = Ok c ∧
            normalised model k c = Ok c' ∧
            heap s' = <[l := OColumn c']> (heap s).
Proof.
  destruct v as [l|]; [|done]. intros H.
  destruct (read_column (heap s) l) as [c|e] eqn:Hc.
  - rewrite (declared_column_step_column _ _ _ _ _ Hc) in H.
    destruct (normalised model k c) as [c'|] eqn:Hn; [|done].
    injection H as _ <-. by exists l, c, c'.
  - unfold declared_column_step, set_column in H.
    rewrite (bind_raise _ _ _ e) in H; [done|].
    apply bind_raise. unfold get_column. by rewrite Hc.
Qed.

(** The loop leaves alone every object that is not among its items. *)
Lemma declared_loop_frame model (items : list (string * option loc)) (l : loc) :
  l ∉ omap snd items →
  ∀ s u s', foldM (λ _ item, declared_column_step model item) tt items s = Ok (u, s') →
            heap s' !! l = heap s !! l.
Proof.
  induction items as [|[k v] items IH]; intros Hl s u s' H.
  { by injection H as _ <-. }
  cbn [foldM] in H. apply bind_ok in H as ([] & s1 & Hstep & H).
  apply declared_column_step_Ok in Hstep as (l0 & c & c' & -> & _ & _ & Hh).
  cbn [omap snd] in Hl. apply not_elem_of_cons in Hl as [Hne Hl].
  rewrite (IH Hl _ _ _ H), Hh. by apply list_lookup_insert_ne.
Qed.

Lemma declared_loop_column model (items : list (string * option loc)) :
  NoDup (omap snd items) →
  ∀ s u s' k l c,
    foldM (λ _ item, declared_column_step model item) tt items s = Ok (u, s') →
    (k, Some l) ∈ items → read_column (heap s) l = Ok c →
    ∃ c', normalised model k c = Ok c' ∧ read_column (heap s') l = Ok c'.
Proof.
  induction items as [|[k0 v0] items IH]; intros Hnodup s u s' k l c H Hin Hc.
  { by apply elem_of_nil in Hin. }
  cbn [foldM] in H. apply bind_ok in H as ([] & s1 & Hstep & H).
  apply declared_column_step_Ok in Hstep as (l0 & c0 & c0' & -> & Hc0 & Hn0 & Hh).
  cbn [omap snd] in Hnodup. apply NoDup_cons in Hnodup as [Hl0 Hnodup].
  apply elem_of_cons in Hin as [[= <- <-]|Hin].
  - rewrite Hc in Hc0. injection Hc0 as <-. exists c0'. split; [done|].
    unfold read_column. rewrite (declared_loop_frame _ _ _ Hl0 _ _ _ H), Hh.
    by apply (read_column_insert _ _ c).
  - apply (IH Hnodup _ _ _ _ _ _ H Hin).
    assert (l ≠ l0) as Hne.
    { intros ->. apply Hl0. apply list_elem_of_omap. by exists (k, Some l0). }
    unfold read_column. rewrite Hh, list_lookup_insert_ne by done. exact Hc.
Qed.

(** X26. In a class created with a model whose declared dictionary names
    distinct column objects, every declared column is left with its key as
    its name, with [[key]] as sources when it had none, and with its own
    label when that was truthy; a column without one has the pretty verbose
    name of the model field called like the key, so such a column is always
    named after a model field. Its class, processor and creation counter are
    unchanged. *)
Theorem declared_columns_normalised (name : string) (bases : list BaseClass)
    (attrs : ClassAttrs) (st : pystate) (cls : TableClass) (st' : pystate)
    (opts : DatatableOptions) (model : Model) :
  DatatableMetaclass_new name bases attrs st = Ok (cls, st') →
  read_options (heap st') (_meta cls) = Ok opts →
  opt_model opts = Some model →
  ∃ declared,
    read_dict (heap st') (declared_columns cls) = Ok declared ∧
    (NoDup (omap snd declared) →
     ∀ k l c, (k, Some l) ∈ declared → read_column (heap st) l = Ok c →
       ∃ c', read_column (heap st') l = Ok c' ∧
         col_name c' = Some k ∧
         col_sources c' = (if bool_decide (col_sources c = []) then [k]
                           else col_sources c) ∧
         (falsy_str (col_label c) = false → col_label c' = col_label c) ∧
         (falsy_str (col_label c) = true →
          ∃ field, get_field_by_name model k = Ok field ∧
                   col_label c' = Some (pretty_name (verbose_name field))) ∧
         (col_class c', col_processor c', col_creation_counter c')
         = (col_class c, col_processor c, col_creation_counter c)).
Proof.
  intros Hnew Hopts Hmodel.
  destruct (DatatableMetaclass_new_options _ _ _ _ _ _ Hnew) as (Hopts' & _).
  rewrite Hopts in Hopts'. injection Hopts' as ->.
  destruct (DatatableMetaclass_new_model _ _ _ _ _ _ _ Hnew Hmodel)
    as (dd & st0 & st1 & st2 & st4 & Hdl & _ & _ & Hh1 & _ & _ & _ & _ & [more Hh2] & Hcl
        & Hread & Hloop & Hkept & Hh' & Hdd & _).
  cbn zeta in *.
  exists dd. split; [exact Hdd|].
  intros Hnodup k l c Hin Hc.
  assert (read_column (heap st2) l = Ok c) as Hc2.
  { rewrite Hh2, Hh1, <- app_assoc. by apply read_column_app. }
  destruct (declared_loop_column model dd Hnodup _ _ _ _ _ _ Hloop Hin Hc2)
    as (c' & Hnorm & Hc4).
  exists c'. split.
  { unfold read_column. rewrite Hh'.
    destruct (decide (base_columns cls = l)) as [Heq|Hne].
    - apply Hkept in Hread. unfold read_dict in Hread. unfold read_column in Hc4.
      rewrite Heq in Hread. by destruct (heap st4 !! l) as [[| |]|].
    - by rewrite list_lookup_insert_ne. }
  clear - Hnorm. unfold normalised in Hnorm. cbn zeta in Hnorm.
  change (col_sources (with_name k c)) with (col_sources c) in Hnorm.
  destruct (bool_decide (col_sources c = [])) eqn:Hs.
  - change (col_label (with_sources [k] (with_name k c))) with (col_label c) in Hnorm.
    destruct (falsy_str (col_label c)).
    + destruct (get_field_by_name model k) as [field|]; [|done]. injection Hnorm as <-.
      repeat split; [done|]. intros _. by exists field.
    + injection Hnorm as <-. repeat split; done.
  - change (col_label (with_name k c)) with (col_label c) in Hnorm.
    destruct (falsy_str (col_label c)).
    + destruct (get_field_by_name model k) as [field|]; [|done]. injection Hnorm as <-.
      repeat split; [done|]. intros _. by exists field.
    + injection Hnorm as <-. repeat split; done.
Qed.

Lemma declared_columns_normalised_witness :
  ∃ c', read_column (heap b_store) 2%nat = Ok c' ∧ col_name c' = Some "b" ∧
        col_sources c' = ["b"].
Proof.
  destruct (declared_columns_normalised "BTable" [as_base Datatable_class] b_body
              store_with_b b_class b_store b_options abc_model b_class_created
              eq_refl eq_refl)
    as (declared & Hd & Hcols).
  vm_compute in Hd. injection Hd as <-.
  destruct (Hcols (NoDup_singleton _) "b" 2%nat declared_b)
    as (c' & Hc' & Hname & Hsources & _).
  - apply list_elem_of_here.
  - reflexivity.
  - exists c'. split; [exact Hc'|]. split; [exact Hname|exact Hsources].
Defined.
